(** * Housekeeping service of the Yorkie backend

    A shallow embedding of [server/backend/housekeeping/housekeeping.go]:
    the two scheduler loops ([AttachDeactivateCandidates],
    [AttachDocumentHardDeletion]), the two sweeps ([deactivateCandidates],
    [DeleteDocument]) and the two candidate finders
    ([FindDeactivateCandidates], [FindDocumentHardDeletionCandidates]).

    The database, the coordinator (lock service) and [clients.Deactivate]
    are Go interfaces / foreign packages: they are type classes over an
    abstract environment [W], every method a state transformer on [W].
    Each call of the code into a collaborator is recorded as an [Event], so
    that the order and number of calls can be stated.

    Conventions. Go [int] and [time.Duration] are [Z]: the only arithmetic
    is [len], a comparison, [len - 1] and a counter bounded by a [len], none
    of which can wrap. Slices of pointers are lists of values: the store is
    taken to return no nil entry, and the collaborators to return rather
    than panic; the one panic of the package itself that remains, the index
    of the last project of an empty page, is modelled. The module
    [pointers] embeds the finders and the sweeps once more with nil entries
    and the nil locker, and says when they panic.

    A pass of a loop (one run of the body of its [for]) is one move of the
    system: the statements about the loops speak of the states between
    passes, not of the calls of two passes that overlap in time. *)

From Stdlib Require Import String List ZArith Bool Lia.
Import ListNotations.
Local Open Scope string_scope.
Local Open Scope list_scope.
Local Open Scope Z_scope.

(** ** Data *)

(** [types.ID] is a Go string. *)
Definition types_ID := string.

(** [time.Duration]: a signed count of nanoseconds. *)
Definition Duration := Z.

(** A non-nil Go [error], identified by its message; [error] is the
    interface value, [None] being [nil]. *)
Definition Err := string.
Definition error := option Err.

(** The [(value, error)] pair returned by a collaborator; the code reads the
    value only after it has seen [err == nil]. *)
Inductive result (A : Type) : Type :=
| Ok (a : A)
| Fail (err : Err).
Arguments Ok {A} a.
Arguments Fail {A} err.

(** [database.ProjectInfo]: only the field [ID] is read by this package. *)
Record ProjectInfo := { ProjectInfo_ID : types_ID }.

(** [types.ClientRefKey] and [database.ClientInfo] with its [RefKey()]. *)
Record ClientRefKey := { RefKey_ProjectID : types_ID; RefKey_ClientID : types_ID }.
Record ClientInfo := { ClientInfo_ProjectID : types_ID; ClientInfo_ID : types_ID }.

Definition RefKey (clientInfo : ClientInfo) : ClientRefKey :=
  {| RefKey_ProjectID := ClientInfo_ProjectID clientInfo;
     RefKey_ClientID := ClientInfo_ID clientInfo |}.

(** [database.DocInfo]: this package only passes documents along; they are
    identified here by project and ID. *)
Record DocInfo := { DocInfo_ProjectID : types_ID; DocInfo_ID : types_ID }.

Definition deactivateCandidatesKey : string := "housekeeping/deactivateCandidates".
Definition documentHardDeletionLockKey : string := "housekeeping/DocumentHardDeletionLock".

(** The configuration part of the [Housekeeping] struct. The fields
    [database] and [coordinator] are the class instances below; [ctx] and
    [cancelFunc] are the [cancelled] flag of the [World]. *)
Record Housekeeping := {
  intervalDeactivateCandidates : Duration;
  intervalDeleteDocuments : Duration;
  documentHardDeletionGracefulPeriod : Duration;
  clientDeactivationCandidateLimitPerProject : Z;
  DocumentHardDeletionCandidateLimitPerProject : Z;
  projectFetchSize : Z
}.

(** ** Collaborators

    Every method takes, first, whether the [context.Context] it is handed
    is already done: that is all a callee can observe of the shutdown
    signal. *)

Class Database (W : Type) := {
  (* [database.DefaultProjectID]: a constant of the database package, which
     this package only hands back as the start-of-cycle cursor. *)
  DefaultProjectID : types_ID;
  FindNextNCyclingProjectInfos :
    bool -> Z -> types_ID -> W -> result (list ProjectInfo) * W;
  FindDeactivateCandidatesPerProject :
    bool -> ProjectInfo -> Z -> W -> result (list ClientInfo) * W;
  FindDocumentHardDeletionCandidatesPerProject :
    bool -> ProjectInfo -> Z -> Duration -> W -> result (list DocInfo) * W;
  db_DeleteDocument :
    bool -> list DocInfo -> W -> result Z * W
}.

(** [sync.Coordinator] with the [sync.Locker] it hands out. *)
Class Coordinator (W : Type) := {
  Locker : Type;
  NewLocker : bool -> string -> W -> result Locker * W;
  Lock : bool -> Locker -> W -> error * W;
  Unlock : bool -> Locker -> W -> error * W
}.

(** [clients.Deactivate(ctx, db, refKey)]. *)
Class Clients (W : Type) := {
  Deactivate : bool -> ClientRefKey -> W -> result ClientInfo * W
}.

(** ** Contexts, worlds, events *)

(** The two contexts of the package: [context.Background()], which is never
    done, and [h.ctx], which is done once [h.cancelFunc] has been called. *)
Inductive Context := Background | hctx.

Definition ctxDone (ctx : Context) (cancelled : bool) : bool :=
  match ctx with
  | Background => false
  | hctx => cancelled
  end.

Inductive SelectCase := CaseTimeAfter | CaseDone.

(** How a Go function leaves: by [return] or by a run-time panic. *)
Inductive Res (A : Type) : Type :=
| Ret (a : A)
| Panic (msg : string).
Arguments Ret {A} a.
Arguments Panic {A} msg.

Section Model.

Context {W : Type} {DB : Database W} {CO : Coordinator W} {CL : Clients W}.

Record World := { env : W; cancelled : bool }.

Definition setEnv (w : World) (e : W) : World :=
  {| env := e; cancelled := cancelled w |}.

Inductive Event :=
| ENewLocker (key : string) (r : result Locker)
| ELock (locker : Locker) (err : error)
| EUnlock (locker : Locker) (err : error)
| EFindNextNCyclingProjectInfos (n : Z) (lastProjectID : types_ID)
    (r : result (list ProjectInfo))
| EFindDeactivateCandidatesPerProject (project : ProjectInfo) (limit : Z)
    (r : result (list ClientInfo))
| EFindDocumentHardDeletionCandidatesPerProject (project : ProjectInfo)
    (limit : Z) (deletedAfterTime : Duration) (r : result (list DocInfo))
| EDeactivate (refKey : ClientRefKey) (err : error)
| EDeleteDocument (candidates : list DocInfo) (r : result Z)
| ELogError (err : Err)
| ELogInfof (format : string) (candidates : Z) (count : Z)
| ESelect (interval : Duration).

(** ** The monad: state, an event log, and Go panics *)

Definition M (A : Type) : Type := World -> Res A * World * list Event.

Definition ret {A} (a : A) : M A := fun w => (Ret a, w, []).

Definition panic {A} (msg : string) : M A := fun w => (Panic msg, w, []).

Definition bind {A B} (m : M A) (k : A -> M B) : M B := fun w =>
  let '(r, w1, t1) := m w in
  match r with
  | Ret a => let '(r2, w2, t2) := k a w1 in (r2, w2, t1 ++ t2)
  | Panic msg => (Panic msg, w1, t1)
  end.

(** [defer d; body]: the deferred call runs when the function leaves, by
    return or by panic; the results are unnamed, so it cannot change them. *)
Definition defer {A} (d : M unit) (body : M A) : M A := fun w =>
  let '(r, w1, t1) := body w in
  let '(_, w2, t2) := d w1 in
  (r, w2, t1 ++ t2).

(** A call into a collaborator: run it on the environment, log it. *)
Definition call {A} (op : bool -> W -> A * W) (ev : A -> Event)
    (ctx : Context) : M A := fun w =>
  let '(a, e) := op (ctxDone ctx (cancelled w)) (env w) in
  (Ret a, setEnv w e, [ev a]).

Definition emit (ev : Event) : M unit := fun w => (Ret tt, w, [ev]).

(** *** The calls the package makes *)

Definition database_FindNextNCyclingProjectInfos (ctx : Context)
    (pageSize : Z) (lastProjectID : types_ID) : M (result (list ProjectInfo)) :=
  call (fun d => FindNextNCyclingProjectInfos d pageSize lastProjectID)
       (EFindNextNCyclingProjectInfos pageSize lastProjectID) ctx.

Definition database_FindDeactivateCandidatesPerProject (ctx : Context)
    (project : ProjectInfo) (candidatesLimit : Z) : M (result (list ClientInfo)) :=
  call (fun d => FindDeactivateCandidatesPerProject d project candidatesLimit)
       (EFindDeactivateCandidatesPerProject project candidatesLimit) ctx.

Definition database_FindDocumentHardDeletionCandidatesPerProject (ctx : Context)
    (project : ProjectInfo) (candidatesLimit : Z) (deletedAfterTime : Duration)
    : M (result (list DocInfo)) :=
  call (fun d => FindDocumentHardDeletionCandidatesPerProject d project
                   candidatesLimit deletedAfterTime)
       (EFindDocumentHardDeletionCandidatesPerProject project candidatesLimit
          deletedAfterTime) ctx.

Definition database_DeleteDocument (ctx : Context) (candidates : list DocInfo)
    : M (result Z) :=
  call (fun d => db_DeleteDocument d candidates) (EDeleteDocument candidates) ctx.

Definition coordinator_NewLocker (ctx : Context) (key : string)
    : M (result Locker) :=
  call (fun d => NewLocker d key) (ENewLocker key) ctx.

Definition locker_Lock (ctx : Context) (locker : Locker) : M error :=
  call (fun d => Lock d locker) (ELock locker) ctx.

Definition locker_Unlock (ctx : Context) (locker : Locker) : M error :=
  call (fun d => Unlock d locker) (EUnlock locker) ctx.

(** [clients.Deactivate] returns a client info and an error; the callers
    here drop the info. *)
Definition clients_Deactivate (ctx : Context) (refKey : ClientRefKey) : M error :=
  call (fun d e => let '(r, e') := Deactivate d refKey e in
                   (match r with Ok _ => None | Fail err => Some err end, e'))
       (EDeactivate refKey) ctx.

Definition logging_Error (err : Err) : M unit := emit (ELogError err).

(** The third argument of the format, [time.Since(start)], is wall-clock
    time and is left out of the logged event. *)
Definition logging_Infof (format : string) (a b : Z) : M unit :=
  emit (ELogInfof format a b).

(** [len(xs)] as a Go [int]. *)
Definition len {A} (xs : list A) : Z := Z.of_nat (length xs).

(** [xs[i]]: a run-time panic when [i] is out of range. *)
Definition index {A} (xs : list A) (i : Z) : M A :=
  if i <? 0 then panic "index out of range"
  else match nth_error xs (Z.to_nat i) with
       | Some x => ret x
       | None => panic "index out of range"
       end.

(** ** Candidate finding *)

(** [for _, project := range projects { infos, err := lookup(project);
    if err != nil { return ..., err }; candidates = append(candidates, infos...) }] *)
Fixpoint rangeProjects {C} (lookup : ProjectInfo -> M (result (list C)))
    (projects : list ProjectInfo) (candidates : list C) : M (result (list C)) :=
  match projects with
  | [] => ret (Ok candidates)
  | project :: rest =>
      bind (lookup project) (fun r =>
        match r with
        | Fail err => ret (Fail err)
        | Ok infos => rangeProjects lookup rest (candidates ++ infos)
        end)
  end.

(** [if len(projects) < projectFetchSize { top = DefaultProjectID }
     else { top = projects[len(projects)-1].ID }] *)
Definition topProjectID (projects : list ProjectInfo) (projectFetchSize : Z)
    : M types_ID :=
  if len projects <? projectFetchSize then ret DefaultProjectID
  else bind (index projects (len projects - 1))
            (fun project => ret (ProjectInfo_ID project)).

Definition FindDeactivateCandidates (ctx : Context)
    (clientDeactivationCandidateLimitPerProject : Z) (projectFetchSize : Z)
    (lastProjectID : types_ID) : M (types_ID * list ClientInfo * error) :=
  bind (database_FindNextNCyclingProjectInfos ctx projectFetchSize lastProjectID)
    (fun r =>
  match r with
  | Fail err => ret (DefaultProjectID, [], Some err)
  | Ok projects =>
      bind (rangeProjects
              (fun project => database_FindDeactivateCandidatesPerProject ctx
                 project clientDeactivationCandidateLimitPerProject)
              projects []) (fun r =>
      match r with
      | Fail err => ret (DefaultProjectID, [], Some err)
      | Ok candidates =>
          bind (topProjectID projects projectFetchSize) (fun top =>
          ret (top, candidates, None))
      end)
  end).

Definition FindDocumentHardDeletionCandidates (ctx : Context)
    (documentHardDeletionCandidateLimitPerProject : Z) (projectFetchSize : Z)
    (deletedAfterTime : Duration) (lastProjectID : types_ID)
    : M (types_ID * list DocInfo * error) :=
  bind (database_FindNextNCyclingProjectInfos ctx projectFetchSize lastProjectID)
    (fun r =>
  match r with
  | Fail err => ret (DefaultProjectID, [], Some err)
  | Ok projects =>
      bind (rangeProjects
              (fun project => database_FindDocumentHardDeletionCandidatesPerProject
                 ctx project documentHardDeletionCandidateLimitPerProject
                 deletedAfterTime)
              projects []) (fun r =>
      match r with
      | Fail err => ret (DefaultProjectID, [], Some err)
      | Ok candidates =>
          bind (topProjectID projects projectFetchSize) (fun top =>
          ret (top, candidates, None))
      end)
  end).

(** ** The sweeps *)

(** [defer func() { if err := locker.Unlock(ctx); err != nil {
      logging.From(ctx).Error(err) } }()] *)
Definition unlockOrLog (ctx : Context) (locker : Locker) : M unit :=
  bind (locker_Unlock ctx locker) (fun err =>
  match err with
  | Some e => logging_Error e
  | None => ret tt
  end).

(** [for _, clientInfo := range candidates { if _, err := clients.Deactivate(
      ctx, h.database, clientInfo.RefKey()); err != nil { return ..., err };
      deactivatedCount++ }] *)
Fixpoint rangeDeactivate (ctx : Context) (candidates : list ClientInfo)
    (deactivatedCount : Z) : M (result Z) :=
  match candidates with
  | [] => ret (Ok deactivatedCount)
  | clientInfo :: rest =>
      bind (clients_Deactivate ctx (RefKey clientInfo)) (fun err =>
        match err with
        | Some e => ret (Fail e)
        | None => rangeDeactivate ctx rest (deactivatedCount + 1)
        end)
  end.

(** The part of [deactivateCandidates] that runs under the lock (from the
    call of [FindDeactivateCandidates] to the last [return]). *)
Definition deactivateCandidates_locked (h : Housekeeping) (ctx : Context)
    (housekeepingLastProjectID : types_ID) : M (types_ID * error) :=
  bind (FindDeactivateCandidates ctx
          (clientDeactivationCandidateLimitPerProject h)
          (projectFetchSize h) housekeepingLastProjectID)
    (fun '(lastProjectID, candidates, err) =>
  match err with
  | Some e => ret (DefaultProjectID, Some e)
  | None =>
      bind (rangeDeactivate ctx candidates 0) (fun r =>
      match r with
      | Fail e => ret (DefaultProjectID, Some e)
      | Ok deactivatedCount =>
          bind (if 0 <? len candidates
                then logging_Infof "HSKP: candidates %d, deactivated %d, %s"
                       (len candidates) deactivatedCount
                else ret tt) (fun _ =>
          ret (lastProjectID, None))
      end)
  end).

Definition deactivateCandidates (h : Housekeeping) (ctx : Context)
    (housekeepingLastProjectID : types_ID) : M (types_ID * error) :=
  bind (coordinator_NewLocker ctx deactivateCandidatesKey) (fun r =>
  match r with
  | Fail err => ret (DefaultProjectID, Some err)
  | Ok locker =>
      bind (locker_Lock ctx locker) (fun err =>
      match err with
      | Some e => ret (DefaultProjectID, Some e)
      | None =>
          defer (unlockOrLog ctx locker)
                (deactivateCandidates_locked h ctx housekeepingLastProjectID)
      end)
  end).

(** The part of [DeleteDocument] that runs under the lock. *)
Definition DeleteDocument_locked (h : Housekeeping) (ctx : Context)
    (housekeepingLastProjectID : types_ID) : M (types_ID * error) :=
  bind (FindDocumentHardDeletionCandidates ctx
          (DocumentHardDeletionCandidateLimitPerProject h)
          (projectFetchSize h)
          (documentHardDeletionGracefulPeriod h)
          housekeepingLastProjectID)
    (fun '(lastProjectID, candidates, err) =>
  match err with
  | Some e => ret (DefaultProjectID, Some e)
  | None =>
      bind (database_DeleteDocument ctx candidates) (fun r =>
      match r with
      | Fail e => ret (DefaultProjectID, Some e)
      | Ok deletedDocumentsCount =>
          bind (if 0 <? len candidates
                then logging_Infof "HSKP: candidates %d, hard deleted %d, %s"
                       (len candidates) deletedDocumentsCount
                else ret tt) (fun _ =>
          ret (lastProjectID, None))
      end)
  end).

Definition DeleteDocument (h : Housekeeping) (ctx : Context)
    (housekeepingLastProjectID : types_ID) : M (types_ID * error) :=
  bind (coordinator_NewLocker ctx documentHardDeletionLockKey) (fun r =>
  match r with
  | Fail err => ret (DefaultProjectID, Some err)
  | Ok locker =>
      bind (locker_Lock ctx locker) (fun err =>
      match err with
      | Some e => ret (DefaultProjectID, Some e)
      | None =>
          defer (unlockOrLog ctx locker)
                (DeleteDocument_locked h ctx housekeepingLastProjectID)
      end)
  end).

(** ** The scheduler loops *)

(** Where a loop goroutine stands: about to run its body, blocked in the
    [select] (with the interval of the pending [time.After] and whether that
    timer has fired), returned, or dead of a panic. A panic that is not
    recovered ends the whole process: [Panicked] marks the loop in which it
    arose, and nothing is said of what the other loop does afterwards. *)
Inductive Control :=
| AtSweep (housekeepingLastProjectID : types_ID)
| AtSelect (housekeepingLastProjectID : types_ID) (interval : Duration)
    (fired : bool)
| Returned
| Panicked (msg : string).

(** One pass through the body of the [for]: from [ctx := context.Background()]
    to the [continue] or to the [select]. Entering the [select] evaluates
    [time.After(interval)], logged as [ESelect]. *)
Definition loopBody (sweep : Context -> types_ID -> M (types_ID * error))
    (interval : Duration) (housekeepingLastProjectID : types_ID) : M Control :=
  let ctx := Background in
  bind (sweep ctx housekeepingLastProjectID) (fun '(lastProjectID, err) =>
  match err with
  | Some e =>
      bind (logging_Error e) (fun _ =>
      ret (AtSweep housekeepingLastProjectID))
  | None =>
      bind (emit (ESelect interval)) (fun _ =>
      ret (AtSelect lastProjectID interval false))
  end).

Definition AttachDeactivateCandidates_body (h : Housekeeping)
    : types_ID -> M Control :=
  loopBody (deactivateCandidates h) (intervalDeactivateCandidates h).

Definition AttachDocumentHardDeletion_body (h : Housekeeping)
    : types_ID -> M Control :=
  loopBody (DeleteDocument h) (intervalDeleteDocuments h).

(** [Stop]: [h.cancelFunc(); return nil]. *)
Definition Stop (w : World) : error * World :=
  (None, {| env := env w; cancelled := true |}).

(** The two goroutines started by [Start]. *)
Inductive Goroutine := GDeactivateCandidates | GDocumentHardDeletion.

Record System := {
  deactivateLoop : Control;
  deletionLoop : Control;
  world : World;
  trace : list Event
}.

Definition controlOf (g : Goroutine) (s : System) : Control :=
  match g with
  | GDeactivateCandidates => deactivateLoop s
  | GDocumentHardDeletion => deletionLoop s
  end.

Definition setControl (g : Goroutine) (c : Control) (s : System) : System :=
  match g with
  | GDeactivateCandidates =>
      {| deactivateLoop := c; deletionLoop := deletionLoop s;
         world := world s; trace := trace s |}
  | GDocumentHardDeletion =>
      {| deactivateLoop := deactivateLoop s; deletionLoop := c;
         world := world s; trace := trace s |}
  end.

Definition bodyOf (h : Housekeeping) (g : Goroutine) : types_ID -> M Control :=
  match g with
  | GDeactivateCandidates => AttachDeactivateCandidates_body h
  | GDocumentHardDeletion => AttachDocumentHardDeletion_body h
  end.

(** [New] then [Start]: a fresh, uncancelled [h.ctx]; both loops at the top
    of their body with [housekeepingLastProjectID := DefaultProjectID]. *)
Definition Start (e : W) : System :=
  {| deactivateLoop := AtSweep DefaultProjectID;
     deletionLoop := AtSweep DefaultProjectID;
     world := {| env := e; cancelled := false |};
     trace := [] |}.

(** What can happen next: a goroutine runs its loop body, the [select] of a
    goroutine proceeds with one of its cases, a pending timer fires, or the
    host calls [Stop]. *)
Inductive Move :=
| Run (g : Goroutine)
| Select (g : Goroutine) (c : SelectCase)
| Fire (g : Goroutine)
| CallStop.

(** A move that is not enabled gives [None]. The [select] proceeds with a
    case only when its channel is ready: [time.After] once the timer has
    fired, [h.ctx.Done()] once the context is cancelled. *)
Definition exec (h : Housekeeping) (m : Move) (s : System) : option System :=
  match m with
  | Run g =>
      match controlOf g s with
      | AtSweep housekeepingLastProjectID =>
          let '(r, w, t) := bodyOf h g housekeepingLastProjectID (world s) in
          let c := match r with Ret c => c | Panic msg => Panicked msg end in
          Some (setControl g c
                  {| deactivateLoop := deactivateLoop s;
                     deletionLoop := deletionLoop s;
                     world := w; trace := trace s ++ t |})
      | _ => None
      end
  | Select g CaseTimeAfter =>
      match controlOf g s with
      | AtSelect housekeepingLastProjectID _ true =>
          Some (setControl g (AtSweep housekeepingLastProjectID) s)
      | _ => None
      end
  | Select g CaseDone =>
      match controlOf g s with
      | AtSelect _ _ _ =>
          if ctxDone hctx (cancelled (world s))
          then Some (setControl g Returned s) else None
      | _ => None
      end
  | Fire g =>
      match controlOf g s with
      | AtSelect housekeepingLastProjectID interval false =>
          Some (setControl g (AtSelect housekeepingLastProjectID interval true) s)
      | _ => None
      end
  | CallStop =>
      Some {| deactivateLoop := deactivateLoop s;
              deletionLoop := deletionLoop s;
              world := snd (Stop (world s)); trace := trace s |}
  end.

Fixpoint execs (h : Housekeeping) (ms : list Move) (s : System) : option System :=
  match ms with
  | [] => Some s
  | m :: rest =>
      match exec h m s with
      | Some s1 => execs h rest s1
      | None => None
      end
  end.

(** The moves of a goroutine itself, as opposed to those of the clock and
    of the host. *)
Definition moveOf (g : Goroutine) (m : Move) : Prop :=
  m = Run g \/ exists c, m = Select g c.

End Model.

Arguments World W : clear implicits.
Arguments Event {W CO}.
Arguments System W {CO}.

(** ** Vocabulary for the statements *)

Section Observations.

Context {W : Type} {DB : Database W} {CO : Coordinator W} {CL : Clients W}.

Implicit Types (w : World W) (t : list Event).

(** [emits P m]: every event of every run of [m] satisfies [P]. *)
Definition emits {A} (P : Event -> Prop) (m : M A) : Prop :=
  forall w r w' t, m w = (r, w', t) -> Forall P t.

(** The events of the candidate lookups and of the side-effecting actions
    on the store. *)
Definition isStoreCall (ev : Event) : bool :=
  match ev with
  | EFindNextNCyclingProjectInfos _ _ _
  | EFindDeactivateCandidatesPerProject _ _ _
  | EFindDocumentHardDeletionCandidatesPerProject _ _ _ _
  | EDeactivate _ _
  | EDeleteDocument _ _ => true
  | _ => false
  end.

Definition isDeactivate (ev : Event) : bool :=
  match ev with
  | EDeactivate _ _ => true
  | _ => false
  end.

Definition isUnlock (ev : Event) : bool :=
  match ev with
  | EUnlock _ _ => true
  | _ => false
  end.

(** What runs between the acquisition and the release of the lock calls the
    store and the logger, never the lock service. *)
Definition underLock (ev : Event) : Prop :=
  match ev with
  | ENewLocker _ _ | ELock _ _ | EUnlock _ _ | ESelect _ => False
  | _ => True
  end.

(** The events of the deferred release: the call, and the log line when it
    fails. *)
Definition unlockEvents (locker : Locker) (err : error) : list Event :=
  EUnlock locker err :: match err with Some e => [ELogError e] | None => [] end.

(** A successful deactivation of [clientInfo]. *)
Definition EDeactivated (clientInfo : ClientInfo) : Event :=
  EDeactivate (RefKey clientInfo) None.

(** The store after [clients.Deactivate] has been called, in order, on each
    of [candidates]; and whether each of those calls succeeds. *)
Definition afterDeactivate (d : bool) (e : W) (clientInfo : ClientInfo) : W :=
  snd (Deactivate d (RefKey clientInfo) e).

Definition afterDeactivations (d : bool) (candidates : list ClientInfo) (e : W)
    : W :=
  fold_left (afterDeactivate d) candidates e.

Fixpoint allDeactivate (d : bool) (candidates : list ClientInfo) (e : W) : bool :=
  match candidates with
  | [] => true
  | clientInfo :: rest =>
      match Deactivate d (RefKey clientInfo) e with
      | (Ok _, e') => allDeactivate d rest e'
      | (Fail _, _) => false
      end
  end.

(** The per-project lookups of a page, each with what the store returned. *)
Definition clientLookups (limit : Z) (projects : list ProjectInfo)
    (results : list (list ClientInfo)) : list Event :=
  map (fun pr => EFindDeactivateCandidatesPerProject (fst pr) limit (Ok (snd pr)))
      (combine projects results).

Definition docLookups (limit : Z) (deletedAfterTime : Duration)
    (projects : list ProjectInfo) (results : list (list DocInfo)) : list Event :=
  map (fun pr => EFindDocumentHardDeletionCandidatesPerProject (fst pr) limit
                   deletedAfterTime (Ok (snd pr)))
      (combine projects results).

(** Every per-project lookup among [t] was made with these limits. *)
Definition lookupLimit (clientLimit docLimit : Z) (ev : Event) : Prop :=
  match ev with
  | EFindDeactivateCandidatesPerProject _ limit _ => limit = clientLimit
  | EFindDocumentHardDeletionCandidatesPerProject _ limit _ _ => limit = docLimit
  | _ => True
  end.

Definition setCancelled (w : World W) (b : bool) : World W :=
  {| env := env w; cancelled := b |}.

(** [oblivious m]: [m] neither reads nor writes the shutdown signal. *)
Definition oblivious {A} (m : M A) : Prop :=
  forall w b,
    m (setCancelled w b) =
    let '(r, w', t) := m w in (r, setCancelled w' b, t).

(** The sweep and the interval of each loop, and the cursor a loop holds. *)
Definition sweepOf (h : Housekeeping) (g : Goroutine)
    : Context -> types_ID -> M (types_ID * error) :=
  match g with
  | GDeactivateCandidates => deactivateCandidates h
  | GDocumentHardDeletion => DeleteDocument h
  end.

Definition intervalOf (h : Housekeeping) (g : Goroutine) : Duration :=
  match g with
  | GDeactivateCandidates => intervalDeactivateCandidates h
  | GDocumentHardDeletion => intervalDeleteDocuments h
  end.

Definition lockKeyOf (g : Goroutine) : string :=
  match g with
  | GDeactivateCandidates => deactivateCandidatesKey
  | GDocumentHardDeletion => documentHardDeletionLockKey
  end.

Definition cursorOf (c : Control) : option types_ID :=
  match c with
  | AtSweep housekeepingLastProjectID => Some housekeepingLastProjectID
  | AtSelect housekeepingLastProjectID _ _ => Some housekeepingLastProjectID
  | Returned | Panicked _ => None
  end.

(** The two states of the lifecycle of a loop. *)
Inductive Lifecycle := Running | Stopped.

Definition lifecycle (c : Control) : option Lifecycle :=
  match c with
  | AtSweep _ | AtSelect _ _ _ => Some Running
  | Returned => Some Stopped
  | Panicked _ => None
  end.

(** "Once [Stop] has set the signal, a loop runs no sweep beyond the one in
    flight": after a pass made with the signal set, no further pass of that
    loop is possible. *)
Definition lastPassAfterStop (h : Housekeeping) (g : Goroutine) : Prop :=
  forall s s' : System W,
    cancelled (world s) = true ->
    exec h (Run g) s = Some s' ->
    exec h (Run g) s' = None.

End Observations.

(** ** More vocabulary: actions, listings, and the trace as a record *)

Section MoreObservations.

Context {W : Type} {DB : Database W} {CO : Coordinator W} {CL : Clients W}.

(** The side-effecting calls on the store. *)
Definition isAction (ev : Event) : bool :=
  match ev with
  | EDeactivate _ _ | EDeleteDocument _ _ => true
  | _ => false
  end.

Definition isDeleteDocument (ev : Event) : bool :=
  match ev with
  | EDeleteDocument _ _ => true
  | _ => false
  end.

Definition isListing (ev : Event) : bool :=
  match ev with
  | EFindNextNCyclingProjectInfos _ _ _ => true
  | _ => false
  end.

(** The error of a read of the store (the listing or a per-project lookup)
    that failed. *)
Definition readError (ev : Event) : option Err :=
  match ev with
  | EFindNextNCyclingProjectInfos _ _ (Fail e)
  | EFindDeactivateCandidatesPerProject _ _ (Fail e)
  | EFindDocumentHardDeletionCandidatesPerProject _ _ _ (Fail e) => Some e
  | _ => None
  end.

(** A listing, if [ev] is one, asks for [n] projects after [lastProjectID]. *)
Definition listsFrom (n : Z) (lastProjectID : types_ID) (ev : Event) : Prop :=
  match ev with
  | EFindNextNCyclingProjectInfos n' last' _ => n' = n /\ last' = lastProjectID
  | _ => True
  end.

Definition isPanicked (c : Control) : bool :=
  match c with
  | Panicked _ => true
  | _ => false
  end.

(** [c] is the ID of the last project of a page that a listing among [t]
    returned. *)
Definition listedLast (c : types_ID) (t : list Event) : Prop :=
  exists n lastProjectID init p,
    In (EFindNextNCyclingProjectInfos n lastProjectID (Ok (init ++ [p]))) t /\
    c = ProjectInfo_ID p.

(** *** The trace against the collaborators

    [answers d ev e e']: the event [ev] carries what the collaborator itself
    answers, on the store [e], to the call that [ev] names, made with a
    context that is done or not as [d] says; and [e'] is the store that call
    leaves. For [clients.Deactivate] the event has the error alone, the
    client info being dropped by the caller. A log line and the start of a
    timer are no calls: they leave the store as it is. *)
Definition answers (d : bool) (ev : Event) (e e' : W) : Prop :=
  match ev with
  | ENewLocker key r => NewLocker d key e = (r, e')
  | ELock locker err => Lock d locker e = (err, e')
  | EUnlock locker err => Unlock d locker e = (err, e')
  | EFindNextNCyclingProjectInfos n lastProjectID r =>
      FindNextNCyclingProjectInfos d n lastProjectID e = (r, e')
  | EFindDeactivateCandidatesPerProject project limit r =>
      FindDeactivateCandidatesPerProject d project limit e = (r, e')
  | EFindDocumentHardDeletionCandidatesPerProject project limit
      deletedAfterTime r =>
      FindDocumentHardDeletionCandidatesPerProject d project limit
        deletedAfterTime e = (r, e')
  | EDeactivate refKey err =>
      exists r,
        Deactivate d refKey e = (r, e') /\
        err = match r with Ok _ => None | Fail x => Some x end
  | EDeleteDocument candidates r => db_DeleteDocument d candidates e = (r, e')
  | ELogError _ | ELogInfof _ _ _ | ESelect _ => e' = e
  end.

(** [answered d t e e']: the events of [t], replayed in order against the
    collaborators from the store [e], are each the answer of its call on the
    store the event before it left, and [e'] is the store after the last. *)
Fixpoint answered (d : bool) (t : list Event) (e e' : W) : Prop :=
  match t with
  | [] => e' = e
  | ev :: rest => exists e1, answers d ev e e1 /\ answered d rest e1 e'
  end.

(** [recorded ctx m]: every run of [m], all of whose calls are made with
    [ctx], leaves the shutdown signal alone and a trace that the
    collaborators answered, from the store it started on to the store it
    left. *)
Definition recorded {A} (ctx : Context) (m : M A) : Prop :=
  forall w r w' t,
    m w = (r, w', t) ->
    cancelled w' = cancelled w /\
    answered (ctxDone ctx (cancelled w)) t (env w) (env w').

End MoreObservations.

(** ** Construction of the service: [New] and the package-level [Start] *)

(** The fields of [housekeeping.Config] that [New] reads. *)
Record Config := {
  IntervalDeactivateCandidates : string;
  IntervalDeleteDocuments : string;
  DocumentHardDeletionGracefulPeriod : string;
  ClientDeactivationCandidateLimitPerProject : Z;
  Config_DocumentHardDeletionCandidateLimitPerProject : Z;
  ProjectFetchSize : Z
}.

(** [fmt.Errorf(prefix + "%s: %w", value, err)]: the message of the wrapping
    error. *)
Definition Errorf (prefix value : string) (err : Err) : Err :=
  String.append prefix (String.append value (String.append ": " err)).

Section Construction.

Context {W : Type} {DB : Database W} {CO : Coordinator W} {CL : Clients W}.

(** [time.ParseDuration], of the Go standard library. *)
Variable ParseDuration : string -> result Duration.

(** [New]: the three durations are parsed in this order, the first failure
    is returned wrapped; the limits and the page size are copied. The
    [context.WithCancel] made here is the [cancelled] flag, fresh in [Start]. *)
Definition New (conf : Config) : result Housekeeping :=
  match ParseDuration (IntervalDeactivateCandidates conf) with
  | Fail err =>
      Fail (Errorf "parse intervalDeactivateCandidates "
              (IntervalDeactivateCandidates conf) err)
  | Ok interval1 =>
      match ParseDuration (IntervalDeleteDocuments conf) with
      | Fail err =>
          Fail (Errorf "parse intervalDeleteDocuments "
                  (IntervalDeleteDocuments conf) err)
      | Ok interval2 =>
          match ParseDuration (DocumentHardDeletionGracefulPeriod conf) with
          | Fail err =>
              Fail (Errorf "parse documentHardDeletionGracefulPeriod "
                      (DocumentHardDeletionGracefulPeriod conf) err)
          | Ok gracefulPeriod =>
              Ok {| intervalDeactivateCandidates := interval1;
                    intervalDeleteDocuments := interval2;
                    documentHardDeletionGracefulPeriod := gracefulPeriod;
                    clientDeactivationCandidateLimitPerProject :=
                      ClientDeactivationCandidateLimitPerProject conf;
                    DocumentHardDeletionCandidateLimitPerProject :=
                      Config_DocumentHardDeletionCandidateLimitPerProject conf;
                    projectFetchSize := ProjectFetchSize conf |}
          end
      end
  end.

(** The package-level [Start(conf, database, coordinator)]: [New], then the
    method [Start], which launches the two loops and returns nil. *)
Definition housekeeping_Start (conf : Config) (e : W)
    : result (Housekeeping * System W) :=
  match New conf with
  | Fail err => Fail err
  | Ok h => Ok (h, Start e)
  end.

End Construction.

(** ** The sweeps of package [clients]

    The second part of the file: the same two sweeps as functions of package
    [clients], over a [backend.Backend] ([be.Coordinator], [be.DB]) and with
    the limits as arguments. [Deactivate] is the function of that package;
    the batch deletion of the store is the method [DeleteDocuments] of the
    database interface this part is written against, the same store
    operation as [DeleteDocument] above. *)

Module clients.

Definition DocumentHardDeletionLockKey : string :=
  "housekeeping/documentHardDeletionLock".
Definition DeactivateCandidatesKey : string :=
  "housekeeping/deactivateCandidates".

Section Package.

Context {W : Type} {DB : Database W} {CO : Coordinator W} {CL : Clients W}.

Definition FindDeactivateCandidates (ctx : Context)
    (clientDeactivationCandidateLimitPerProject : Z) (projectFetchSize : Z)
    (lastProjectID : types_ID) : M (types_ID * list ClientInfo * error) :=
  bind (database_FindNextNCyclingProjectInfos ctx projectFetchSize lastProjectID)
    (fun r =>
  match r with
  | Fail err => ret (DefaultProjectID, [], Some err)
  | Ok projects =>
      bind (rangeProjects
              (fun project => database_FindDeactivateCandidatesPerProject ctx
                 project clientDeactivationCandidateLimitPerProject)
              projects []) (fun r =>
      match r with
      | Fail err => ret (DefaultProjectID, [], Some err)
      | Ok candidates =>
          bind (topProjectID projects projectFetchSize) (fun top =>
          ret (top, candidates, None))
      end)
  end).

Definition DeactivateInactives (ctx : Context)
    (clientDeactivationCandidateLimitPerProject : Z) (projectFetchSize : Z)
    (housekeepingLastProjectID : types_ID) : M (types_ID * error) :=
  bind (coordinator_NewLocker ctx DeactivateCandidatesKey) (fun r =>
  match r with
  | Fail err => ret (DefaultProjectID, Some err)
  | Ok locker =>
      bind (locker_Lock ctx locker) (fun err =>
      match err with
      | Some e => ret (DefaultProjectID, Some e)
      | None =>
          defer (unlockOrLog ctx locker)
            (bind (FindDeactivateCandidates ctx
                     clientDeactivationCandidateLimitPerProject
                     projectFetchSize housekeepingLastProjectID)
               (fun '(lastProjectID, candidates, err) =>
             match err with
             | Some e => ret (DefaultProjectID, Some e)
             | None =>
                 bind (rangeDeactivate ctx candidates 0) (fun r =>
                 match r with
                 | Fail e => ret (DefaultProjectID, Some e)
                 | Ok deactivatedCount =>
                     bind (if 0 <? len candidates
                           then logging_Infof
                                  "HSKP: candidates %d, deactivated %d, %s"
                                  (len candidates) deactivatedCount
                           else ret tt) (fun _ =>
                     ret (lastProjectID, None))
                 end)
             end))
      end)
  end).

Definition FindDocumentHardDeletionCandidates (ctx : Context)
    (documentHardDeletionCandidateLimitPerProject : Z) (projectFetchSize : Z)
    (deletedAfterTime : Duration) (lastProjectID : types_ID)
    : M (types_ID * list DocInfo * error) :=
  bind (database_FindNextNCyclingProjectInfos ctx projectFetchSize lastProjectID)
    (fun r =>
  match r with
  | Fail err => ret (DefaultProjectID, [], Some err)
  | Ok projects =>
      bind (rangeProjects
              (fun project => database_FindDocumentHardDeletionCandidatesPerProject
                 ctx project documentHardDeletionCandidateLimitPerProject
                 deletedAfterTime)
              projects []) (fun r =>
      match r with
      | Fail err => ret (DefaultProjectID, [], Some err)
      | Ok candidates =>
          bind (topProjectID projects projectFetchSize) (fun top =>
          ret (top, candidates, None))
      end)
  end).

(** Note the order of the arguments: the grace period comes before the page
    size here, and after it in the finder. *)
Definition DeleteDocuments (ctx : Context)
    (documentHardDeletionCandidateLimitPerProject : Z)
    (documentHardDeletionGracefulPeriod : Duration) (projectFetchSize : Z)
    (housekeepingLastProjectID : types_ID) : M (types_ID * error) :=
  bind (coordinator_NewLocker ctx DocumentHardDeletionLockKey) (fun r =>
  match r with
  | Fail err => ret (DefaultProjectID, Some err)
  | Ok locker =>
      bind (locker_Lock ctx locker) (fun err =>
      match err with
      | Some e => ret (DefaultProjectID, Some e)
      | None =>
          defer (unlockOrLog ctx locker)
            (bind (FindDocumentHardDeletionCandidates ctx
                     documentHardDeletionCandidateLimitPerProject
                     projectFetchSize documentHardDeletionGracefulPeriod
                     housekeepingLastProjectID)
               (fun '(lastProjectID, candidates, err) =>
             match err with
             | Some e => ret (DefaultProjectID, Some e)
             | None =>
                 bind (database_DeleteDocument ctx candidates) (fun r =>
                 match r with
                 | Fail e => ret (DefaultProjectID, Some e)
                 | Ok deletedDocumentsCount =>
                     bind (if 0 <? len candidates
                           then logging_Infof
                                  "HSKP: candidates %d, hard deleted %d, %s"
                                  (len candidates) deletedDocumentsCount
                           else ret tt) (fun _ =>
                     ret (lastProjectID, None))
                 end)
             end))
      end)
  end).

End Package.

End clients.

(** ** Another revision of the package ([src/unnamed/part_000])

    Here the database itself finds the candidates across projects
    ([FindDeactivateCandidates], [FindHardDeletionCandidates]) and hard
    deletion is [HardDeletion], which returns a project ID; one interval and
    one candidate limit serve both loops. The interface methods return their
    Go tuples as they are. *)

Module part_000.

Definition deactivateCandidatesKey : string := "housekeeping/deactivateCandidates".
Definition hardDeletionLockKey : string := "housekeeping/hardDeletionLock".

Record Housekeeping := {
  interval : Duration;
  candidatesLimitPerProject : Z;
  projectFetchSize : Z
}.

Class Database (W : Type) := {
  DefaultProjectID : types_ID;
  FindDeactivateCandidates :
    bool -> Z -> Z -> types_ID -> W -> (types_ID * list ClientInfo * error) * W;
  FindHardDeletionCandidates :
    bool -> Z -> Z -> types_ID -> W -> (types_ID * list DocInfo * error) * W;
  HardDeletion :
    bool -> list DocInfo -> W -> (types_ID * error) * W
}.

(** [clients.Deactivate(ctx, db, projectID, clientID)]. *)
Class Clients (W : Type) := {
  Deactivate : bool -> types_ID -> types_ID -> W -> result ClientInfo * W
}.

Section Revision.

Context {W : Type} {DB : Database W} {CO : Coordinator W} {CL : Clients W}.

Inductive Event :=
| ENewLocker (key : string) (r : result Locker)
| ELock (locker : Locker) (err : error)
| EUnlock (locker : Locker) (err : error)
| EFindDeactivateCandidates (limit pageSize : Z) (lastProjectID : types_ID)
    (r : types_ID * list ClientInfo * error)
| EFindHardDeletionCandidates (limit pageSize : Z) (lastProjectID : types_ID)
    (r : types_ID * list DocInfo * error)
| EHardDeletion (candidates : list DocInfo) (r : types_ID * error)
| EDeactivate (projectID clientID : types_ID) (err : error)
| ELogError (err : Err)
| ELogInfof (format : string) (candidates : Z) (count : Z)
| ESelect (interval : Duration).

Definition M (A : Type) : Type := World W -> Res A * World W * list Event.

Definition ret {A} (a : A) : M A := fun w => (Ret a, w, []).

Definition bind {A B} (m : M A) (k : A -> M B) : M B := fun w =>
  let '(r, w1, t1) := m w in
  match r with
  | Ret a => let '(r2, w2, t2) := k a w1 in (r2, w2, t1 ++ t2)
  | Panic msg => (Panic msg, w1, t1)
  end.

Definition defer {A} (d : M unit) (body : M A) : M A := fun w =>
  let '(r, w1, t1) := body w in
  let '(_, w2, t2) := d w1 in
  (r, w2, t1 ++ t2).

Definition call {A} (op : bool -> W -> A * W) (ev : A -> Event)
    (ctx : Context) : M A := fun w =>
  let '(a, e) := op (ctxDone ctx (cancelled w)) (env w) in
  (Ret a, setEnv w e, [ev a]).

Definition emit (ev : Event) : M unit := fun w => (Ret tt, w, [ev]).

Definition unlockOrLog (ctx : Context) (locker : Locker) : M unit :=
  bind (call (fun d => Unlock d locker) (EUnlock locker) ctx) (fun err =>
  match err with
  | Some e => emit (ELogError e)
  | None => ret tt
  end).

(** [documentHardDeletion]: the ID returned by the finder is overwritten by
    the one [HardDeletion] returns. *)
Definition documentHardDeletion (h : Housekeeping) (ctx : Context)
    (housekeepingLastProjectID : types_ID) : M (types_ID * error) :=
  bind (call (fun d => NewLocker d hardDeletionLockKey)
             (ENewLocker hardDeletionLockKey) ctx) (fun r =>
  match r with
  | Fail err => ret (DefaultProjectID, Some err)
  | Ok locker =>
      bind (call (fun d => Lock d locker) (ELock locker) ctx) (fun err =>
      match err with
      | Some e => ret (DefaultProjectID, Some e)
      | None =>
          defer (unlockOrLog ctx locker)
            (bind (call (fun d => FindHardDeletionCandidates d
                                    (candidatesLimitPerProject h)
                                    (projectFetchSize h)
                                    housekeepingLastProjectID)
                        (EFindHardDeletionCandidates
                           (candidatesLimitPerProject h) (projectFetchSize h)
                           housekeepingLastProjectID) ctx)
               (fun '(lastProjectID, candidates, err) =>
             match err with
             | Some e => ret (DefaultProjectID, Some e)
             | None =>
                 bind (call (fun d => HardDeletion d candidates)
                            (EHardDeletion candidates) ctx)
                   (fun '(lastProjectID, err) =>
                 match err with
                 | Some e => ret (DefaultProjectID, Some e)
                 | None => ret (lastProjectID, err)
                 end)
             end))
      end)
  end).

Fixpoint rangeDeactivate (ctx : Context) (candidates : list ClientInfo)
    (deactivatedCount : Z) : M (result Z) :=
  match candidates with
  | [] => ret (Ok deactivatedCount)
  | clientInfo :: rest =>
      bind (call (fun d e =>
                    let '(r, e') := Deactivate d (ClientInfo_ProjectID clientInfo)
                                      (ClientInfo_ID clientInfo) e in
                    (match r with Ok _ => None | Fail err => Some err end, e'))
                 (EDeactivate (ClientInfo_ProjectID clientInfo)
                    (ClientInfo_ID clientInfo)) ctx) (fun err =>
        match err with
        | Some e => ret (Fail e)
        | None => rangeDeactivate ctx rest (deactivatedCount + 1)
        end)
  end.

Definition deactivateCandidates (h : Housekeeping) (ctx : Context)
    (housekeepingLastProjectID : types_ID) : M (types_ID * error) :=
  bind (call (fun d => NewLocker d deactivateCandidatesKey)
             (ENewLocker deactivateCandidatesKey) ctx) (fun r =>
  match r with
  | Fail err => ret (DefaultProjectID, Some err)
  | Ok locker =>
      bind (call (fun d => Lock d locker) (ELock locker) ctx) (fun err =>
      match err with
      | Some e => ret (DefaultProjectID, Some e)
      | None =>
          defer (unlockOrLog ctx locker)
            (bind (call (fun d => FindDeactivateCandidates d
                                    (candidatesLimitPerProject h)
                                    (projectFetchSize h)
                                    housekeepingLastProjectID)
                        (EFindDeactivateCandidates
                           (candidatesLimitPerProject h) (projectFetchSize h)
                           housekeepingLastProjectID) ctx)
               (fun '(lastProjectID, candidates, err) =>
             match err with
             | Some e => ret (DefaultProjectID, Some e)
             | None =>
                 bind (rangeDeactivate ctx candidates 0) (fun r =>
                 match r with
                 | Fail e => ret (DefaultProjectID, Some e)
                 | Ok deactivatedCount =>
                     bind (if 0 <? len candidates
                           then emit (ELogInfof
                                        "HSKP: candidates %d, deactivated %d, %s"
                                        (len candidates) deactivatedCount)
                           else ret tt) (fun _ =>
                     ret (lastProjectID, None))
                 end)
             end))
      end)
  end).

(** One pass through the body of either loop of this revision. *)
Definition loopBody (sweep : Context -> types_ID -> M (types_ID * error))
    (h : Housekeeping) (housekeepingLastProjectID : types_ID) : M Control :=
  let ctx := Background in
  bind (sweep ctx housekeepingLastProjectID) (fun '(lastProjectID, err) =>
  match err with
  | Some e =>
      bind (emit (ELogError e)) (fun _ =>
      ret (AtSweep housekeepingLastProjectID))
  | None =>
      bind (emit (ESelect (interval h))) (fun _ =>
      ret (AtSelect lastProjectID (interval h) false))
  end).

Definition AttachDeactivateCandidates_body (h : Housekeeping)
    : types_ID -> M Control :=
  loopBody (deactivateCandidates h) h.

Definition AttachDocumentHardDeletion_body (h : Housekeeping)
    : types_ID -> M Control :=
  loopBody (documentHardDeletion h) h.

Definition isUnlock (ev : Event) : bool :=
  match ev with
  | EUnlock _ _ => true
  | _ => false
  end.

Definition isHardDeletion (ev : Event) : bool :=
  match ev with
  | EHardDeletion _ _ => true
  | _ => false
  end.

Definition isDeactivate (ev : Event) : bool :=
  match ev with
  | EDeactivate _ _ _ => true
  | _ => false
  end.

Definition unlockEvents (locker : Locker) (err : error) : list Event :=
  EUnlock locker err :: match err with Some e => [ELogError e] | None => [] end.

Definition EDeactivated (clientInfo : ClientInfo) : Event :=
  EDeactivate (ClientInfo_ProjectID clientInfo) (ClientInfo_ID clientInfo) None.

(** The trace against the collaborators of this revision: [answers] for one
    event, [answered] for a trace replayed from a store, [recorded] for a
    computation all of whose runs leave such a trace. *)
Definition answers (d : bool) (ev : Event) (e e' : W) : Prop :=
  match ev with
  | ENewLocker key r => NewLocker d key e = (r, e')
  | ELock locker err => Lock d locker e = (err, e')
  | EUnlock locker err => Unlock d locker e = (err, e')
  | EFindDeactivateCandidates limit pageSize lastProjectID r =>
      FindDeactivateCandidates d limit pageSize lastProjectID e = (r, e')
  | EFindHardDeletionCandidates limit pageSize lastProjectID r =>
      FindHardDeletionCandidates d limit pageSize lastProjectID e = (r, e')
  | EHardDeletion candidates r => HardDeletion d candidates e = (r, e')
  | EDeactivate projectID clientID err =>
      exists r,
        Deactivate d projectID clientID e = (r, e') /\
        err = match r with Ok _ => None | Fail x => Some x end
  | ELogError _ | ELogInfof _ _ _ | ESelect _ => e' = e
  end.

Fixpoint answered (d : bool) (t : list Event) (e e' : W) : Prop :=
  match t with
  | [] => e' = e
  | ev :: rest => exists e1, answers d ev e e1 /\ answered d rest e1 e'
  end.

Definition recorded {A} (ctx : Context) (m : M A) : Prop :=
  forall w r w' t,
    m w = (r, w', t) ->
    cancelled w' = cancelled w /\
    answered (ctxDone ctx (cancelled w)) t (env w) (env w').

End Revision.

Arguments Event {W CO}.

End part_000.

(** ** Slices of pointers, and the nil locker

    [FindNextNCyclingProjectInfos] returns a [[]*database.ProjectInfo], the
    per-project lookups a [[]*database.ClientInfo] and a
    [[]*database.DocInfo], and [NewLocker] an interface value: an entry of
    such a slice can be nil, and so can the locker. The model above takes
    them not to be. This module embeds the finders and the sweeps once more
    without that assumption: a pointer is an [option], and reading a field
    through a nil pointer, or calling a method of the nil locker, is the
    run-time panic of Go. A lookup is handed the project pointer as the
    listing gave it, and the store's deletion the slice as the finder built
    it. *)

Module pointers.

Definition nilPointerDereference : string :=
  "invalid memory address or nil pointer dereference".

Class Database (W : Type) := {
  DefaultProjectID : types_ID;
  FindNextNCyclingProjectInfos :
    bool -> Z -> types_ID -> W -> result (list (option ProjectInfo)) * W;
  FindDeactivateCandidatesPerProject :
    bool -> option ProjectInfo -> Z -> W
    -> result (list (option ClientInfo)) * W;
  FindDocumentHardDeletionCandidatesPerProject :
    bool -> option ProjectInfo -> Z -> Duration -> W
    -> result (list (option DocInfo)) * W;
  db_DeleteDocument :
    bool -> list (option DocInfo) -> W -> result Z * W
}.

(** [NewLocker] returns [(sync.Locker, error)]: with a nil error the locker
    may still be the nil interface value. *)
Class Coordinator (W : Type) := {
  Locker : Type;
  NewLocker : bool -> string -> W -> result (option Locker) * W;
  Lock : bool -> Locker -> W -> error * W;
  Unlock : bool -> Locker -> W -> error * W
}.

Section Pointers.

Context {W : Type} {DB : Database W} {CO : Coordinator W} {CL : Clients W}.

Inductive Event :=
| ENewLocker (key : string) (r : result (option Locker))
| ELock (locker : Locker) (err : error)
| EUnlock (locker : Locker) (err : error)
| EFindNextNCyclingProjectInfos (n : Z) (lastProjectID : types_ID)
    (r : result (list (option ProjectInfo)))
| EFindDeactivateCandidatesPerProject (project : option ProjectInfo)
    (limit : Z) (r : result (list (option ClientInfo)))
| EFindDocumentHardDeletionCandidatesPerProject (project : option ProjectInfo)
    (limit : Z) (deletedAfterTime : Duration)
    (r : result (list (option DocInfo)))
| EDeactivate (refKey : ClientRefKey) (err : error)
| EDeleteDocument (candidates : list (option DocInfo)) (r : result Z)
| ELogError (err : Err)
| ELogInfof (format : string) (candidates : Z) (count : Z).

Definition M (A : Type) : Type := World W -> Res A * World W * list Event.

Definition ret {A} (a : A) : M A := fun w => (Ret a, w, []).

Definition panic {A} (msg : string) : M A := fun w => (Panic msg, w, []).

Definition bind {A B} (m : M A) (k : A -> M B) : M B := fun w =>
  let '(r, w1, t1) := m w in
  match r with
  | Ret a => let '(r2, w2, t2) := k a w1 in (r2, w2, t1 ++ t2)
  | Panic msg => (Panic msg, w1, t1)
  end.

Definition defer {A} (d : M unit) (body : M A) : M A := fun w =>
  let '(r, w1, t1) := body w in
  let '(_, w2, t2) := d w1 in
  (r, w2, t1 ++ t2).

Definition call {A} (op : bool -> W -> A * W) (ev : A -> Event)
    (ctx : Context) : M A := fun w =>
  let '(a, e) := op (ctxDone ctx (cancelled w)) (env w) in
  (Ret a, setEnv w e, [ev a]).

Definition emit (ev : Event) : M unit := fun w => (Ret tt, w, [ev]).

(** [p.f], or [p.m()] for a method that reads the fields of its receiver,
    or a method call on an interface value: a panic when [p] is nil. *)
Definition deref {A} (p : option A) : M A :=
  match p with
  | Some a => ret a
  | None => panic nilPointerDereference
  end.

(** [xs[i]]: a run-time panic when [i] is out of range. *)
Definition index {A} (xs : list A) (i : Z) : M A :=
  if i <? 0 then panic "index out of range"
  else match nth_error xs (Z.to_nat i) with
       | Some x => ret x
       | None => panic "index out of range"
       end.

(** [for _, project := range projects { infos, err := lookup(project);
    if err != nil { return ..., err }; candidates = append(candidates, infos...) }] *)
Fixpoint rangeProjects {C} (lookup : option ProjectInfo -> M (result (list C)))
    (projects : list (option ProjectInfo)) (candidates : list C)
    : M (result (list C)) :=
  match projects with
  | [] => ret (Ok candidates)
  | project :: rest =>
      bind (lookup project) (fun r =>
        match r with
        | Fail err => ret (Fail err)
        | Ok infos => rangeProjects lookup rest (candidates ++ infos)
        end)
  end.

(** [if len(projects) < projectFetchSize { top = DefaultProjectID }
     else { top = projects[len(projects)-1].ID }]: the index, then the field
    of what it yields. *)
Definition topProjectID (projects : list (option ProjectInfo))
    (projectFetchSize : Z) : M types_ID :=
  if len projects <? projectFetchSize then ret DefaultProjectID
  else bind (index projects (len projects - 1)) (fun project =>
       bind (deref project) (fun info =>
       ret (ProjectInfo_ID info))).

Definition FindDeactivateCandidates (ctx : Context)
    (clientDeactivationCandidateLimitPerProject : Z) (projectFetchSize : Z)
    (lastProjectID : types_ID)
    : M (types_ID * list (option ClientInfo) * error) :=
  bind (call (fun d => FindNextNCyclingProjectInfos d projectFetchSize
                         lastProjectID)
             (EFindNextNCyclingProjectInfos projectFetchSize lastProjectID) ctx)
    (fun r =>
  match r with
  | Fail err => ret (DefaultProjectID, [], Some err)
  | Ok projects =>
      bind (rangeProjects
              (fun project =>
                 call (fun d => FindDeactivateCandidatesPerProject d project
                                  clientDeactivationCandidateLimitPerProject)
                      (EFindDeactivateCandidatesPerProject project
                         clientDeactivationCandidateLimitPerProject) ctx)
              projects []) (fun r =>
      match r with
      | Fail err => ret (DefaultProjectID, [], Some err)
      | Ok candidates =>
          bind (topProjectID projects projectFetchSize) (fun top =>
          ret (top, candidates, None))
      end)
  end).

Definition FindDocumentHardDeletionCandidates (ctx : Context)
    (documentHardDeletionCandidateLimitPerProject : Z) (projectFetchSize : Z)
    (deletedAfterTime : Duration) (lastProjectID : types_ID)
    : M (types_ID * list (option DocInfo) * error) :=
  bind (call (fun d => FindNextNCyclingProjectInfos d projectFetchSize
                         lastProjectID)
             (EFindNextNCyclingProjectInfos projectFetchSize lastProjectID) ctx)
    (fun r =>
  match r with
  | Fail err => ret (DefaultProjectID, [], Some err)
  | Ok projects =>
      bind (rangeProjects
              (fun project =>
                 call (fun d => FindDocumentHardDeletionCandidatesPerProject d
                                  project
                                  documentHardDeletionCandidateLimitPerProject
                                  deletedAfterTime)
                      (EFindDocumentHardDeletionCandidatesPerProject project
                         documentHardDeletionCandidateLimitPerProject
                         deletedAfterTime) ctx)
              projects []) (fun r =>
      match r with
      | Fail err => ret (DefaultProjectID, [], Some err)
      | Ok candidates =>
          bind (topProjectID projects projectFetchSize) (fun top =>
          ret (top, candidates, None))
      end)
  end).

Definition unlockOrLog (ctx : Context) (locker : Locker) : M unit :=
  bind (call (fun d => Unlock d locker) (EUnlock locker) ctx) (fun err =>
  match err with
  | Some e => emit (ELogError e)
  | None => ret tt
  end).

(** [clientInfo.RefKey()] reads [clientInfo.ProjectID] and [clientInfo.ID]
    before [clients.Deactivate] is called. *)
Fixpoint rangeDeactivate (ctx : Context) (candidates : list (option ClientInfo))
    (deactivatedCount : Z) : M (result Z) :=
  match candidates with
  | [] => ret (Ok deactivatedCount)
  | clientInfo :: rest =>
      bind (deref clientInfo) (fun info =>
      bind (call (fun d e =>
                    let '(r, e') := Deactivate d (RefKey info) e in
                    (match r with Ok _ => None | Fail err => Some err end, e'))
                 (EDeactivate (RefKey info)) ctx) (fun err =>
        match err with
        | Some e => ret (Fail e)
        | None => rangeDeactivate ctx rest (deactivatedCount + 1)
        end))
  end.

(** [locker.Lock(ctx)] is a method call on the interface value that
    [NewLocker] returned; the release is deferred once the lock is held. *)
Definition deactivateCandidates (h : Housekeeping) (ctx : Context)
    (housekeepingLastProjectID : types_ID) : M (types_ID * error) :=
  bind (call (fun d => NewLocker d deactivateCandidatesKey)
             (ENewLocker deactivateCandidatesKey) ctx) (fun r =>
  match r with
  | Fail err => ret (DefaultProjectID, Some err)
  | Ok locker =>
      bind (deref locker) (fun locker =>
      bind (call (fun d => Lock d locker) (ELock locker) ctx) (fun err =>
      match err with
      | Some e => ret (DefaultProjectID, Some e)
      | None =>
          defer (unlockOrLog ctx locker)
            (bind (FindDeactivateCandidates ctx
                     (clientDeactivationCandidateLimitPerProject h)
                     (projectFetchSize h) housekeepingLastProjectID)
               (fun '(lastProjectID, candidates, err) =>
             match err with
             | Some e => ret (DefaultProjectID, Some e)
             | None =>
                 bind (rangeDeactivate ctx candidates 0) (fun r =>
                 match r with
                 | Fail e => ret (DefaultProjectID, Some e)
                 | Ok deactivatedCount =>
                     bind (if 0 <? len candidates
                           then emit (ELogInfof
                                        "HSKP: candidates %d, deactivated %d, %s"
                                        (len candidates) deactivatedCount)
                           else ret tt) (fun _ =>
                     ret (lastProjectID, None))
                 end)
             end))
      end))
  end).

Definition DeleteDocument (h : Housekeeping) (ctx : Context)
    (housekeepingLastProjectID : types_ID) : M (types_ID * error) :=
  bind (call (fun d => NewLocker d documentHardDeletionLockKey)
             (ENewLocker documentHardDeletionLockKey) ctx) (fun r =>
  match r with
  | Fail err => ret (DefaultProjectID, Some err)
  | Ok locker =>
      bind (deref locker) (fun locker =>
      bind (call (fun d => Lock d locker) (ELock locker) ctx) (fun err =>
      match err with
      | Some e => ret (DefaultProjectID, Some e)
      | None =>
          defer (unlockOrLog ctx locker)
            (bind (FindDocumentHardDeletionCandidates ctx
                     (DocumentHardDeletionCandidateLimitPerProject h)
                     (projectFetchSize h)
                     (documentHardDeletionGracefulPeriod h)
                     housekeepingLastProjectID)
               (fun '(lastProjectID, candidates, err) =>
             match err with
             | Some e => ret (DefaultProjectID, Some e)
             | None =>
                 bind (call (fun d => db_DeleteDocument d candidates)
                            (EDeleteDocument candidates) ctx) (fun r =>
                 match r with
                 | Fail e => ret (DefaultProjectID, Some e)
                 | Ok deletedDocumentsCount =>
                     bind (if 0 <? len candidates
                           then emit (ELogInfof
                                        "HSKP: candidates %d, hard deleted %d, %s"
                                        (len candidates) deletedDocumentsCount)
                           else ret tt) (fun _ =>
                     ret (lastProjectID, None))
                 end)
             end))
      end))
  end).

(** *** Vocabulary *)

(** The store's answers to the per-project lookups of a page, asked in page
    order, each on the store the lookup before it left: the lists returned
    when every lookup succeeds, else the first error; and the store after
    the last lookup made. *)
Fixpoint lookupsOf {C} (lookup : option ProjectInfo -> W -> result (list C) * W)
    (projects : list (option ProjectInfo)) (e : W)
    : result (list (list C)) * W :=
  match projects with
  | [] => (Ok [], e)
  | project :: rest =>
      match lookup project e with
      | (Ok infos, e1) =>
          match lookupsOf lookup rest e1 with
          | (Ok results, e2) => (Ok (infos :: results), e2)
          | (Fail err, e2) => (Fail err, e2)
          end
      | (Fail err, e1) => (Fail err, e1)
      end
  end.

(** The collaborators hand back no nil: no nil locker with a nil error, no
    nil entry in a page of projects or in a list of client candidates. *)
Definition noNil : Prop :=
  (forall d key e, fst (NewLocker d key e) <> Ok None)
  /\ (forall d n lastProjectID e projects,
        fst (FindNextNCyclingProjectInfos d n lastProjectID e) = Ok projects ->
        ~ In None projects)
  /\ (forall d project limit e candidates,
        fst (FindDeactivateCandidatesPerProject d project limit e)
          = Ok candidates ->
        ~ In None candidates).

(** [returns P m]: every run of [m] returns, with a value that satisfies
    [P]; no run panics. *)
Definition returns {A} (P : A -> Prop) (m : M A) : Prop :=
  forall w, exists a w' t, m w = (Ret a, w', t) /\ P a.

End Pointers.

Arguments Event {W CO}.

End pointers.

(** ** An in-memory store and lock service

    A small instance of the three interfaces, to run the model on: projects
    in identity order, idle clients, documents past their grace period, the
    lock keys held, and switches that make a collaborator fail. *)

Module Demo.

Record Store := {
  projects : list ProjectInfo;
  idle : list ClientInfo;
  trash : list DocInfo;
  deactivated : list ClientRefKey;
  broken : list types_ID;
  held : list string;
  storeDown : bool;
  lockServiceDown : bool;
  unlockFails : bool
}.

Definition sentinel : types_ID := "000000000000000000000000".

Fixpoint after (lastProjectID : types_ID) (ps : list ProjectInfo)
    : list ProjectInfo :=
  match ps with
  | [] => []
  | p :: rest =>
      if String.eqb (ProjectInfo_ID p) lastProjectID then rest
      else after lastProjectID rest
  end.

Definition listing (n : Z) (lastProjectID : types_ID) (st : Store)
    : result (list ProjectInfo) * Store :=
  if storeDown st then (Fail "store unreachable", st)
  else (Ok (firstn (Z.to_nat n)
              (if String.eqb lastProjectID sentinel then projects st
               else after lastProjectID (projects st))), st).

Definition sameRef (a b : ClientRefKey) : bool :=
  String.eqb (RefKey_ProjectID a) (RefKey_ProjectID b)
  && String.eqb (RefKey_ClientID a) (RefKey_ClientID b).

Definition idleOf (p : ProjectInfo) (limit : Z) (st : Store)
    : result (list ClientInfo) * Store :=
  (Ok (firstn (Z.to_nat limit)
         (filter (fun c =>
                    String.eqb (ClientInfo_ProjectID c) (ProjectInfo_ID p)
                    && negb (existsb (sameRef (RefKey c)) (deactivated st)))
                 (idle st))), st).

Definition trashOf (p : ProjectInfo) (limit : Z) (grace : Duration) (st : Store)
    : result (list DocInfo) * Store :=
  (Ok (firstn (Z.to_nat limit)
         (filter (fun d => String.eqb (DocInfo_ProjectID d) (ProjectInfo_ID p))
                 (trash st))), st).

Definition sameDoc (a b : DocInfo) : bool :=
  String.eqb (DocInfo_ProjectID a) (DocInfo_ProjectID b)
  && String.eqb (DocInfo_ID a) (DocInfo_ID b).

Definition setTrash (st : Store) (ds : list DocInfo) : Store :=
  {| projects := projects st; idle := idle st; trash := ds;
     deactivated := deactivated st; broken := broken st; held := held st;
     storeDown := storeDown st; lockServiceDown := lockServiceDown st;
     unlockFails := unlockFails st |}.

Definition setDeactivated (st : Store) (ks : list ClientRefKey) : Store :=
  {| projects := projects st; idle := idle st; trash := trash st;
     deactivated := ks; broken := broken st; held := held st;
     storeDown := storeDown st; lockServiceDown := lockServiceDown st;
     unlockFails := unlockFails st |}.

Definition setHeld (st : Store) (ks : list string) : Store :=
  {| projects := projects st; idle := idle st; trash := trash st;
     deactivated := deactivated st; broken := broken st; held := ks;
     storeDown := storeDown st; lockServiceDown := lockServiceDown st;
     unlockFails := unlockFails st |}.

Definition purge (ds : list DocInfo) (st : Store) : result Z * Store :=
  let kept := filter (fun d => negb (existsb (sameDoc d) ds)) (trash st) in
  (Ok (Z.of_nat (length (trash st)) - Z.of_nat (length kept)), setTrash st kept).

Definition deactivateClient (k : ClientRefKey) (st : Store)
    : result ClientInfo * Store :=
  if existsb (String.eqb (RefKey_ClientID k)) (broken st)
  then (Fail "deactivate failed", st)
  else (Ok {| ClientInfo_ProjectID := RefKey_ProjectID k;
              ClientInfo_ID := RefKey_ClientID k |},
        setDeactivated st (k :: deactivated st)).

Definition newLocker (key : string) (st : Store) : result string * Store :=
  if lockServiceDown st then (Fail "coordinator unreachable", st)
  else (Ok key, st).

Definition acquire (key : string) (st : Store) : error * Store :=
  if existsb (String.eqb key) (held st) then (Some "lock is held", st)
  else (None, setHeld st (key :: held st)).

Definition release (key : string) (st : Store) : error * Store :=
  if unlockFails st then (Some "unlock failed", st)
  else (None, setHeld st (filter (fun k => negb (String.eqb key k)) (held st))).

#[export] Instance database : Database Store := {|
  DefaultProjectID := sentinel;
  FindNextNCyclingProjectInfos := fun _ => listing;
  FindDeactivateCandidatesPerProject := fun _ => idleOf;
  FindDocumentHardDeletionCandidatesPerProject := fun _ => trashOf;
  db_DeleteDocument := fun _ => purge
|}.

#[export] Instance coordinator : Coordinator Store := {|
  Locker := string;
  NewLocker := fun _ => newLocker;
  Lock := fun _ => acquire;
  Unlock := fun _ => release
|}.

#[export] Instance clients : Clients Store := {|
  Deactivate := fun _ => deactivateClient
|}.

Definition P (id : string) : ProjectInfo := {| ProjectInfo_ID := id |}.
Definition C (p id : string) : ClientInfo :=
  {| ClientInfo_ProjectID := p; ClientInfo_ID := id |}.
Definition D (p id : string) : DocInfo :=
  {| DocInfo_ProjectID := p; DocInfo_ID := id |}.

(** Three projects; [p1] has two idle clients, [p2] none, [p3] one; one
    document to purge in [p1] and one in [p3]. *)
Definition store0 : Store :=
  {| projects := [P "p1"; P "p2"; P "p3"];
     idle := [C "p1" "a"; C "p1" "b"; C "p3" "c"];
     trash := [D "p1" "x"; D "p3" "y"];
     deactivated := []; broken := []; held := [];
     storeDown := false; lockServiceDown := false; unlockFails := false |}.

Definition setBroken (st : Store) (ks : list types_ID) : Store :=
  {| projects := projects st; idle := idle st; trash := trash st;
     deactivated := deactivated st; broken := ks; held := held st;
     storeDown := storeDown st; lockServiceDown := lockServiceDown st;
     unlockFails := unlockFails st |}.

Definition setFlags (st : Store) (sd ld uf : bool) : Store :=
  {| projects := projects st; idle := idle st; trash := trash st;
     deactivated := deactivated st; broken := broken st; held := held st;
     storeDown := sd; lockServiceDown := ld; unlockFails := uf |}.

Definition conf (pageSize : Z) : Housekeeping :=
  {| intervalDeactivateCandidates := 1000000000;
     intervalDeleteDocuments := 2000000000;
     documentHardDeletionGracefulPeriod := 86400000000000;
     clientDeactivationCandidateLimitPerProject := 10;
     DocumentHardDeletionCandidateLimitPerProject := 10;
     projectFetchSize := pageSize |}.

Definition live (st : Store) : World Store := {| env := st; cancelled := false |}.

(** Stores where something goes wrong: the deactivation of client [b]
    (or of client [c]) fails; both locks are held by another replica; the coordinator, or the
    store, is unreachable; the release of a lock fails. *)
Definition brokenB : Store := setBroken store0 ["b"].
Definition brokenC : Store := setBroken store0 ["c"].
Definition lockedElsewhere : Store :=
  setHeld store0 [deactivateCandidatesKey; documentHardDeletionLockKey].
Definition coordinatorDown : Store := setFlags store0 false true false.
Definition storeGone : Store := setFlags store0 true false false.
Definition stuckUnlock : Store := setFlags store0 false false true.

(** The system reached from [Start st] by the moves [ms]. *)
Definition reached (pageSize : Z) (ms : list Move) (st : Store) : System Store :=
  match execs (conf pageSize) ms (Start st) with
  | Some s => s
  | None => Start st
  end.

(** A stand-in for [time.ParseDuration] that knows three durations. *)
Definition parseDuration (s : string) : result Duration :=
  if String.eqb s "1s" then Ok 1000000000
  else if String.eqb s "2s" then Ok 2000000000
  else if String.eqb s "24h" then Ok 86400000000000
  else Fail "time: invalid duration".

Definition settings (pageSize : Z) : Config :=
  {| IntervalDeactivateCandidates := "1s";
     IntervalDeleteDocuments := "2s";
     DocumentHardDeletionGracefulPeriod := "24h";
     ClientDeactivationCandidateLimitPerProject := 10;
     Config_DocumentHardDeletionCandidateLimitPerProject := 10;
     ProjectFetchSize := pageSize |}.

(** Two durations that do not parse: the second and the third. *)
Definition badSettings : Config :=
  {| IntervalDeactivateCandidates := "1s";
     IntervalDeleteDocuments := "soon";
     DocumentHardDeletionGracefulPeriod := "later";
     ClientDeactivationCandidateLimitPerProject := 10;
     Config_DocumentHardDeletionCandidateLimitPerProject := 10;
     ProjectFetchSize := 2 |}.

(** The store as the database of the revision [part_000]: the finders
    page through the projects themselves, and [HardDeletion] returns the
    project of the last document it was given. *)
Definition pageOf (n : Z) (lastProjectID : types_ID) (st : Store)
    : list ProjectInfo :=
  match listing n lastProjectID st with
  | (Ok ps, _) => ps
  | (Fail _, _) => []
  end.

Definition topOf (n : Z) (ps : list ProjectInfo) : types_ID :=
  if Z.of_nat (length ps) <? n then sentinel
  else match rev ps with
       | p :: _ => ProjectInfo_ID p
       | [] => sentinel
       end.

Definition findClients (limit n : Z) (lastProjectID : types_ID) (st : Store)
    : (types_ID * list ClientInfo * error) * Store :=
  if storeDown st then ((sentinel, [], Some "store unreachable"), st)
  else
    let ps := pageOf n lastProjectID st in
    ((topOf n ps,
      flat_map (fun p => match idleOf p limit st with
                         | (Ok cs, _) => cs
                         | (Fail _, _) => []
                         end) ps,
      None), st).

Definition findDocs (limit n : Z) (lastProjectID : types_ID) (st : Store)
    : (types_ID * list DocInfo * error) * Store :=
  if storeDown st then ((sentinel, [], Some "store unreachable"), st)
  else
    let ps := pageOf n lastProjectID st in
    ((topOf n ps,
      flat_map (fun p => match trashOf p limit 0 st with
                         | (Ok ds, _) => ds
                         | (Fail _, _) => []
                         end) ps,
      None), st).

Definition hardDelete (ds : list DocInfo) (st : Store)
    : (types_ID * error) * Store :=
  ((match rev ds with
    | d :: _ => DocInfo_ProjectID d
    | [] => sentinel
    end, None), snd (purge ds st)).

#[export] Instance database0 : part_000.Database Store := {|
  part_000.DefaultProjectID := sentinel;
  part_000.FindDeactivateCandidates := fun _ => findClients;
  part_000.FindHardDeletionCandidates := fun _ => findDocs;
  part_000.HardDeletion := fun _ => hardDelete
|}.

#[export] Instance clients0 : part_000.Clients Store := {|
  part_000.Deactivate := fun _ pid cid =>
    deactivateClient {| RefKey_ProjectID := pid; RefKey_ClientID := cid |}
|}.

Definition conf0 (pageSize : Z) : part_000.Housekeeping :=
  {| part_000.interval := 1000000000;
     part_000.candidatesLimitPerProject := 10;
     part_000.projectFetchSize := pageSize |}.

(** The store behind the interfaces of [pointers]: the same answers, as
    slices of pointers. The projects whose ID is in [missing] come back from
    the listing as nil entries; the lookups answer a nil project with no
    candidate; [NewLocker] hands back the nil locker for the keys in
    [unlockable]. *)
Definition holed (missing : list types_ID) (ps : list ProjectInfo)
    : list (option ProjectInfo) :=
  map (fun p => if existsb (String.eqb (ProjectInfo_ID p)) missing
                then None else Some p) ps.

Definition present {A} (xs : list (option A)) : list A :=
  flat_map (fun x => match x with Some a => [a] | None => [] end) xs.

Definition database1 (missing : list types_ID) : pointers.Database Store := {|
  pointers.DefaultProjectID := sentinel;
  pointers.FindNextNCyclingProjectInfos := fun _ n lastProjectID st =>
    match listing n lastProjectID st with
    | (Ok ps, st') => (Ok (holed missing ps), st')
    | (Fail err, st') => (Fail err, st')
    end;
  pointers.FindDeactivateCandidatesPerProject := fun _ project limit st =>
    match project with
    | None => (Ok [], st)
    | Some p =>
        match idleOf p limit st with
        | (Ok cs, st') => (Ok (map Some cs), st')
        | (Fail err, st') => (Fail err, st')
        end
    end;
  pointers.FindDocumentHardDeletionCandidatesPerProject :=
    fun _ project limit grace st =>
    match project with
    | None => (Ok [], st)
    | Some p =>
        match trashOf p limit grace st with
        | (Ok ds, st') => (Ok (map Some ds), st')
        | (Fail err, st') => (Fail err, st')
        end
    end;
  pointers.db_DeleteDocument := fun _ ds st => purge (present ds) st
|}.

Definition coordinator1 (unlockable : list string)
    : pointers.Coordinator Store := {|
  pointers.Locker := string;
  pointers.NewLocker := fun _ key st =>
    match newLocker key st with
    | (Ok l, st') =>
        (Ok (if existsb (String.eqb key) unlockable then None else Some l), st')
    | (Fail err, st') => (Fail err, st')
    end;
  pointers.Lock := fun _ => acquire;
  pointers.Unlock := fun _ => release
|}.

End Demo.

(** * Properties *)

Section Properties.

Context {W : Type} {DB : Database W} {CO : Coordinator W} {CL : Clients W}.

Implicit Types (w : World W) (t : list Event) (h : Housekeeping)
  (ctx : Context).

(** ** The Go function results *)

Lemma topProjectID_inv (projects : list ProjectInfo) (pfs : Z) w r w' t :
  topProjectID projects pfs w = (r, w', t) ->
  w' = w /\ t = [] /\
  ((len projects < pfs /\ r = Ret DefaultProjectID)
   \/ (pfs <= len projects /\
       ((exists init p, projects = init ++ [p] /\ r = Ret (ProjectInfo_ID p))
        \/ (projects = [] /\ exists msg, r = Panic msg)))).
Proof.
  unfold topProjectID, len. intros H.
  destruct (Z.of_nat (length projects) <? pfs) eqn:E.
  - apply Z.ltb_lt in E. inversion H; subst. auto.
  - apply Z.ltb_ge in E.
    destruct projects as [|p0 ps] using rev_ind.
    + cbn in H. inversion H; subst. repeat split; auto.
      right. split; auto. right. split; eauto.
    + clear IHps. unfold bind, index in H.
      rewrite length_app in *. cbn [length] in *.
      replace (Z.of_nat (length ps + 1) - 1) with (Z.of_nat (length ps)) in H by lia.
      destruct (Z.of_nat (length ps) <? 0) eqn:E0; [apply Z.ltb_lt in E0; lia|].
      rewrite Nat2Z.id in H.
      rewrite nth_error_app2 in H by lia. rewrite Nat.sub_diag in H.
      cbn in H. inversion H; subst. repeat split; auto.
      right. split; auto. left. eauto.
Qed.

(** ** What a computation emits *)

Lemma emits_ret {A} P (a : A) : emits P (ret a).
Proof. intros w r w' t H. inversion H. constructor. Qed.

Lemma emits_panic {A} P msg : emits P (@panic W CO A msg).
Proof. intros w r w' t H. inversion H. constructor. Qed.

Lemma emits_emit P ev : P ev -> emits P (emit ev).
Proof. intros HP w r w' t H. inversion H. auto. Qed.

Lemma emits_call {A} P (op : bool -> W -> A * W) ev ctx :
  (forall a, P (ev a)) -> emits P (call op ev ctx).
Proof.
  intros HP w r w' t H. unfold call in H.
  destruct (op _ _). inversion H. auto.
Qed.

Lemma emits_bind {A B} P (m : M A) (k : A -> M B) :
  emits P m -> (forall a, emits P (k a)) -> emits P (bind m k).
Proof.
  intros Hm Hk w r w' t H. unfold bind in H.
  destruct (m w) as [[r1 w1] t1] eqn:E1. apply Hm in E1.
  destruct r1.
  - destruct (k a w1) as [[r2 w2] t2] eqn:E2. apply Hk in E2.
    inversion H; subst. apply Forall_app; auto.
  - inversion H; subst. auto.
Qed.

Lemma emits_defer {A} P (d : M unit) (m : M A) :
  emits P m -> emits P d -> emits P (defer d m).
Proof.
  intros Hm Hd w r w' t H. unfold defer in H.
  destruct (m w) as [[r1 w1] t1] eqn:E1. apply Hm in E1.
  destruct (d w1) as [[r2 w2] t2] eqn:E2. apply Hd in E2.
  inversion H; subst. apply Forall_app; auto.
Qed.

Lemma emits_rangeProjects {C} P (lookup : ProjectInfo -> M (result (list C)))
    projects candidates :
  (forall project, emits P (lookup project)) ->
  emits P (rangeProjects lookup projects candidates).
Proof.
  intros Hl. revert candidates.
  induction projects as [|p ps IH]; intros candidates; cbn [rangeProjects].
  - apply emits_ret.
  - apply emits_bind; [apply Hl|]. intros [infos|err]; [apply IH|apply emits_ret].
Qed.

Lemma emits_topProjectID P projects pfs : emits P (topProjectID projects pfs).
Proof.
  intros w r w' t H. apply topProjectID_inv in H.
  destruct H as (_ & -> & _). constructor.
Qed.

Lemma emits_rangeDeactivate P ctx candidates n :
  (forall k err, P (EDeactivate k err)) ->
  emits P (rangeDeactivate ctx candidates n).
Proof.
  intros HP. revert n.
  induction candidates as [|c cs IH]; intros n; cbn [rangeDeactivate].
  - apply emits_ret.
  - apply emits_bind; [apply emits_call; auto|].
    intros [e|]; [apply emits_ret|apply IH].
Qed.

(** Proves [emits P m] for the functions of the package, leaving [P] of
    the events of the calls that occur. *)
Ltac emits_tac :=
  repeat first
    [ apply emits_ret | apply emits_panic | apply emits_topProjectID
    | apply emits_emit | apply emits_call; intros
    | apply emits_rangeDeactivate; intros
    | apply emits_rangeProjects; intros
    | apply emits_defer
    | apply emits_bind; [|intros]
    | match goal with
      | |- emits _ (match ?x with _ => _ end) => destruct x
      | |- emits _ (let '_ := ?x in _) => destruct x
      | |- emits _ (if ?x then _ else _) => destruct x
      end ].

Lemma underLock_deactivateCandidates_locked h ctx cur :
  emits underLock (deactivateCandidates_locked h ctx cur).
Proof.
  unfold deactivateCandidates_locked, FindDeactivateCandidates,
    database_FindNextNCyclingProjectInfos,
    database_FindDeactivateCandidatesPerProject, logging_Infof.
  emits_tac; exact I.
Qed.

Lemma underLock_DeleteDocument_locked h ctx cur :
  emits underLock (DeleteDocument_locked h ctx cur).
Proof.
  unfold DeleteDocument_locked, FindDocumentHardDeletionCandidates,
    database_FindNextNCyclingProjectInfos, database_DeleteDocument,
    database_FindDocumentHardDeletionCandidatesPerProject, logging_Infof.
  emits_tac; exact I.
Qed.

Lemma underLock_no_unlock t :
  Forall underLock t -> filter isUnlock t = [].
Proof.
  induction 1 as [|ev t Hev _ IH]; [reflexivity|].
  cbn. rewrite IH. destruct ev; cbn in *; auto; contradiction.
Qed.

(** ** The trace records the calls *)

Lemma answered_app d t1 t2 (e e1 e2 : W) :
  answered d t1 e e1 -> answered d t2 e1 e2 -> answered d (t1 ++ t2) e e2.
Proof.
  revert e. induction t1 as [|ev t1 IH]; intros e H1 H2; cbn in *.
  - subst e1. exact H2.
  - destruct H1 as (e' & Hev & H1). exists e'. split; [exact Hev|].
    apply IH; assumption.
Qed.

Lemma recorded_ret {A} ctx (a : A) : recorded ctx (ret a).
Proof. intros w r w' t H. inversion H; subst. split; reflexivity. Qed.

Lemma recorded_panic {A} ctx msg : recorded ctx (@panic W CO A msg).
Proof. intros w r w' t H. inversion H; subst. split; reflexivity. Qed.

Lemma recorded_emit ctx ev :
  (forall d e, answers d ev e e) -> recorded ctx (emit ev).
Proof.
  intros Hev w r w' t H. inversion H; subst. split; [reflexivity|].
  exists (env w'). split; [apply Hev|reflexivity].
Qed.

Lemma recorded_call {A} (op : bool -> W -> A * W) ev ctx :
  (forall d e, answers d (ev (fst (op d e))) e (snd (op d e))) ->
  recorded ctx (call op ev ctx).
Proof.
  intros Hop w r w' t H. unfold call in H.
  specialize (Hop (ctxDone ctx (cancelled w)) (env w)).
  destruct (op _ _) as [a e1]. inversion H; subst. cbn in *.
  split; [reflexivity|]. exists e1. split; [exact Hop|reflexivity].
Qed.

Lemma recorded_bind {A B} ctx (m : M A) (k : A -> M B) :
  recorded ctx m -> (forall a, recorded ctx (k a)) -> recorded ctx (bind m k).
Proof.
  intros Hm Hk w r w' t H. unfold bind in H.
  destruct (m w) as [[r1 w1] t1] eqn:E1. apply Hm in E1.
  destruct E1 as (Hc1 & Ha1). destruct r1.
  - destruct (k a w1) as [[r2 w2] t2] eqn:E2. apply Hk in E2.
    destruct E2 as (Hc2 & Ha2). inversion H; subst. rewrite Hc1 in Ha2.
    split; [congruence|]. eapply answered_app; eassumption.
  - inversion H; subst. split; assumption.
Qed.

Lemma recorded_defer {A} ctx (d : M unit) (m : M A) :
  recorded ctx m -> recorded ctx d -> recorded ctx (defer d m).
Proof.
  intros Hm Hd w r w' t H. unfold defer in H.
  destruct (m w) as [[r1 w1] t1] eqn:E1. apply Hm in E1.
  destruct E1 as (Hc1 & Ha1).
  destruct (d w1) as [[r2 w2] t2] eqn:E2. apply Hd in E2.
  destruct E2 as (Hc2 & Ha2). inversion H; subst. rewrite Hc1 in Ha2.
  split; [congruence|]. eapply answered_app; eassumption.
Qed.

Lemma recorded_rangeProjects {C} ctx
    (lookup : ProjectInfo -> M (result (list C))) projects candidates :
  (forall project, recorded ctx (lookup project)) ->
  recorded ctx (rangeProjects lookup projects candidates).
Proof.
  intros Hl. revert candidates.
  induction projects as [|p ps IH]; intros candidates; cbn [rangeProjects].
  - apply recorded_ret.
  - apply recorded_bind; [apply Hl|].
    intros [infos|err]; [apply IH|apply recorded_ret].
Qed.

Lemma recorded_topProjectID ctx projects pfs :
  recorded ctx (topProjectID projects pfs).
Proof.
  intros w r w' t H. apply topProjectID_inv in H.
  destruct H as (-> & -> & _). split; reflexivity.
Qed.

Lemma recorded_clients_Deactivate ctx refKey :
  recorded ctx (clients_Deactivate ctx refKey).
Proof.
  apply recorded_call. intros d e. cbn.
  destruct (Deactivate d refKey e) as [r e1]. cbn. exists r. split; reflexivity.
Qed.

Lemma recorded_rangeDeactivate ctx candidates n :
  recorded ctx (rangeDeactivate ctx candidates n).
Proof.
  revert n.
  induction candidates as [|c cs IH]; intros n; cbn [rangeDeactivate].
  - apply recorded_ret.
  - apply recorded_bind; [apply recorded_clients_Deactivate|].
    intros [e|]; [apply recorded_ret|apply IH].
Qed.

(** Proves [recorded ctx m] for the functions of the package. *)
Ltac recorded_tac :=
  repeat first
    [ apply recorded_ret | apply recorded_panic | apply recorded_topProjectID
    | apply recorded_rangeDeactivate
    | apply recorded_emit; intros; reflexivity
    | apply recorded_call; intros; cbn; apply surjective_pairing
    | apply recorded_rangeProjects; intros
    | apply recorded_defer
    | apply recorded_bind; [|intros]
    | match goal with
      | |- recorded _ (match ?x with _ => _ end) => destruct x
      | |- recorded _ (let '_ := ?x in _) => destruct x
      | |- recorded _ (if ?x then _ else _) => destruct x
      end ].

Lemma recorded_FindDeactivateCandidates ctx limit pfs last :
  recorded ctx (FindDeactivateCandidates ctx limit pfs last).
Proof.
  unfold FindDeactivateCandidates, database_FindNextNCyclingProjectInfos,
    database_FindDeactivateCandidatesPerProject.
  recorded_tac.
Qed.

Lemma recorded_FindDocumentHardDeletionCandidates ctx limit pfs grace last :
  recorded ctx (FindDocumentHardDeletionCandidates ctx limit pfs grace last).
Proof.
  unfold FindDocumentHardDeletionCandidates,
    database_FindNextNCyclingProjectInfos,
    database_FindDocumentHardDeletionCandidatesPerProject.
  recorded_tac.
Qed.

Lemma recorded_deactivateCandidates h ctx cur :
  recorded ctx (deactivateCandidates h ctx cur).
Proof.
  unfold deactivateCandidates, deactivateCandidates_locked,
    FindDeactivateCandidates, coordinator_NewLocker, locker_Lock, unlockOrLog,
    locker_Unlock, logging_Error, database_FindNextNCyclingProjectInfos,
    database_FindDeactivateCandidatesPerProject, logging_Infof.
  recorded_tac.
Qed.

Lemma recorded_DeleteDocument h ctx cur :
  recorded ctx (DeleteDocument h ctx cur).
Proof.
  unfold DeleteDocument, DeleteDocument_locked,
    FindDocumentHardDeletionCandidates, coordinator_NewLocker, locker_Lock,
    unlockOrLog, locker_Unlock, logging_Error, database_DeleteDocument,
    database_FindNextNCyclingProjectInfos,
    database_FindDocumentHardDeletionCandidatesPerProject, logging_Infof.
  recorded_tac.
Qed.

(** ** The two range loops *)

Lemma setEnv_setEnv w (e1 e2 : W) : setEnv (setEnv w e1) e2 = setEnv w e2.
Proof. reflexivity. Qed.

Lemma setEnv_env w : setEnv w (env w) = w.
Proof. destruct w; reflexivity. Qed.

Lemma rangeProjects_ok {C} (op : ProjectInfo -> bool -> W -> result (list C) * W)
    (ev : ProjectInfo -> result (list C) -> Event) ctx projects :
  forall acc w candidates w' t,
    rangeProjects (fun p => call (op p) (ev p) ctx) projects acc w
      = (Ret (Ok candidates), w', t) ->
    exists results,
      length results = length projects /\
      candidates = acc ++ concat results /\
      t = map (fun pr => ev (fst pr) (Ok (snd pr))) (combine projects results).
Proof.
  induction projects as [|p ps IH]; intros acc w candidates w' t H.
  - cbn in H. inversion H; subst. exists []. cbn. rewrite app_nil_r. auto.
  - cbn [rangeProjects] in H. unfold bind, call in H.
    destruct (op p _ _) as [[infos|err] e1].
    + destruct (rangeProjects _ ps (acc ++ infos) (setEnv w e1))
        as [[r2 w2] t2] eqn:E2.
      inversion H; subst.
      apply IH in E2. destruct E2 as (results & Hlen & -> & ->).
      exists (infos :: results). cbn. rewrite Hlen, app_assoc. auto.
    + cbn in H. inversion H.
Qed.

Lemma rangeDeactivate_ok ctx candidates :
  forall n w m w' t,
    rangeDeactivate ctx candidates n w = (Ret (Ok m), w', t) ->
    m = n + len candidates /\
    t = map EDeactivated candidates /\
    allDeactivate (ctxDone ctx (cancelled w)) candidates (env w) = true /\
    w' = setEnv w (afterDeactivations (ctxDone ctx (cancelled w)) candidates (env w)).
Proof.
  unfold len.
  induction candidates as [|c cs IH]; intros n w m w' t H.
  - cbn in H. inversion H; subst. cbn. rewrite setEnv_env.
    repeat split; auto. lia.
  - cbn [rangeDeactivate] in H. unfold bind, clients_Deactivate, call in H.
    cbn [allDeactivate afterDeactivations fold_left]. unfold afterDeactivate at 2.
    destruct (Deactivate _ (RefKey c) (env w)) as [[info|err] e1]; cbn in H.
    + destruct (rangeDeactivate ctx cs (n + 1) (setEnv w e1))
        as [[r2 w2] t2] eqn:E2.
      inversion H; subst. apply IH in E2. cbn in E2.
      destruct E2 as (-> & -> & Hall & ->).
      cbn [length map snd]. repeat split; auto. lia.
    + inversion H.
Qed.

Lemma rangeDeactivate_fails ctx pre c post :
  forall n w e e',
    allDeactivate (ctxDone ctx (cancelled w)) pre (env w) = true ->
    Deactivate (ctxDone ctx (cancelled w)) (RefKey c)
      (afterDeactivations (ctxDone ctx (cancelled w)) pre (env w)) = (Fail e, e') ->
    rangeDeactivate ctx (pre ++ c :: post) n w =
      (Ret (Fail e), setEnv w e',
       map EDeactivated pre ++ [EDeactivate (RefKey c) (Some e)]).
Proof.
  induction pre as [|p ps IH]; intros n w e e' Hall Hfail.
  - cbn in *. unfold bind, clients_Deactivate, call. rewrite Hfail. reflexivity.
  - cbn [app rangeDeactivate allDeactivate afterDeactivations fold_left] in *.
    unfold afterDeactivate at 2 in Hfail.
    unfold bind, clients_Deactivate, call.
    destruct (Deactivate _ (RefKey p) (env w)) as [[info|err] e1];
      [|discriminate]. cbn.
    rewrite (IH (n + 1) (setEnv w e1) e e'); auto.
Qed.

(** ** The locking skeleton of a sweep *)

(** A sweep either fails to create its locker, or fails to acquire the
    lock, or runs its body under the lock and then the deferred release. *)
Lemma deactivateCandidates_inv h ctx cur w r w' t :
  deactivateCandidates h ctx cur w = (r, w', t) ->
  let d := ctxDone ctx (cancelled w) in
  (exists e e1,
      NewLocker d deactivateCandidatesKey (env w) = (Fail e, e1) /\
      r = Ret (DefaultProjectID, Some e) /\ w' = setEnv w e1 /\
      t = [ENewLocker deactivateCandidatesKey (Fail e)])
  \/ (exists l e1 e e2,
      NewLocker d deactivateCandidatesKey (env w) = (Ok l, e1) /\
      Lock d l e1 = (Some e, e2) /\
      r = Ret (DefaultProjectID, Some e) /\ w' = setEnv w e2 /\
      t = [ENewLocker deactivateCandidatesKey (Ok l); ELock l (Some e)])
  \/ (exists l e1 e2 wb tb ue e3,
      NewLocker d deactivateCandidatesKey (env w) = (Ok l, e1) /\
      Lock d l e1 = (None, e2) /\
      deactivateCandidates_locked h ctx cur (setEnv w e2) = (r, wb, tb) /\
      Unlock (ctxDone ctx (cancelled wb)) l (env wb) = (ue, e3) /\
      w' = setEnv wb e3 /\
      t = [ENewLocker deactivateCandidatesKey (Ok l); ELock l None]
            ++ tb ++ unlockEvents l ue).
Proof.
  intros H d. subst d.
  unfold deactivateCandidates, bind, coordinator_NewLocker, locker_Lock,
    call in H.
  destruct (NewLocker _ _ (env w)) as [[l|e] e1] eqn:EN.
  - cbn in H. destruct (Lock _ l e1) as [[e|] e2] eqn:EL.
    + cbn in H. inversion H; subst. right; left. exists l, e1, e, e2. repeat split; auto.
    + change (setEnv (setEnv w e1) e2) with (setEnv w e2) in H.
      unfold defer, unlockOrLog, bind, locker_Unlock, logging_Error, emit,
        call, ret in H.
      destruct (deactivateCandidates_locked h ctx cur (setEnv w e2))
        as [[rb wb] tb] eqn:Eb.
      destruct (Unlock (ctxDone ctx (cancelled wb)) l (env wb)) as [ue e3] eqn:Eu.
      right; right. exists l, e1, e2, wb, tb, ue, e3.
      destruct ue; cbn in H; inversion H; subst; repeat split; auto.
  - cbn in H. inversion H; subst. left. exists e, e1. repeat split; auto.
Qed.

Lemma DeleteDocument_inv h ctx cur w r w' t :
  DeleteDocument h ctx cur w = (r, w', t) ->
  let d := ctxDone ctx (cancelled w) in
  (exists e e1,
      NewLocker d documentHardDeletionLockKey (env w) = (Fail e, e1) /\
      r = Ret (DefaultProjectID, Some e) /\ w' = setEnv w e1 /\
      t = [ENewLocker documentHardDeletionLockKey (Fail e)])
  \/ (exists l e1 e e2,
      NewLocker d documentHardDeletionLockKey (env w) = (Ok l, e1) /\
      Lock d l e1 = (Some e, e2) /\
      r = Ret (DefaultProjectID, Some e) /\ w' = setEnv w e2 /\
      t = [ENewLocker documentHardDeletionLockKey (Ok l); ELock l (Some e)])
  \/ (exists l e1 e2 wb tb ue e3,
      NewLocker d documentHardDeletionLockKey (env w) = (Ok l, e1) /\
      Lock d l e1 = (None, e2) /\
      DeleteDocument_locked h ctx cur (setEnv w e2) = (r, wb, tb) /\
      Unlock (ctxDone ctx (cancelled wb)) l (env wb) = (ue, e3) /\
      w' = setEnv wb e3 /\
      t = [ENewLocker documentHardDeletionLockKey (Ok l); ELock l None]
            ++ tb ++ unlockEvents l ue).
Proof.
  intros H d. subst d.
  unfold DeleteDocument, bind, coordinator_NewLocker, locker_Lock, call in H.
  destruct (NewLocker _ _ (env w)) as [[l|e] e1] eqn:EN.
  - cbn in H. destruct (Lock _ l e1) as [[e|] e2] eqn:EL.
    + cbn in H. inversion H; subst. right; left. exists l, e1, e, e2. repeat split; auto.
    + change (setEnv (setEnv w e1) e2) with (setEnv w e2) in H.
      unfold defer, unlockOrLog, bind, locker_Unlock, logging_Error, emit,
        call, ret in H.
      destruct (DeleteDocument_locked h ctx cur (setEnv w e2))
        as [[rb wb] tb] eqn:Eb.
      destruct (Unlock (ctxDone ctx (cancelled wb)) l (env wb)) as [ue e3] eqn:Eu.
      right; right. exists l, e1, e2, wb, tb, ue, e3.
      destruct ue; cbn in H; inversion H; subst; repeat split; auto.
  - cbn in H. inversion H; subst. left. exists e, e1. repeat split; auto.
Qed.

(** ** The bodies under the lock *)

Lemma rangeDeactivate_returns ctx candidates :
  forall n w, exists rd w' t,
    rangeDeactivate ctx candidates n w = (Ret rd, w', t).
Proof.
  induction candidates as [|c cs IH]; intros n w; cbn [rangeDeactivate].
  - unfold ret. eauto.
  - unfold bind, clients_Deactivate, call.
    destruct (Deactivate _ (RefKey c) (env w)) as [[info|err] e1]; cbn.
    + destruct (IH (n + 1) (setEnv w e1)) as (rd & w' & t & ->). eauto.
    + eauto.
Qed.

Lemma FindDeactivateCandidates_ok ctx limit pfs last w top candidates w' t :
  FindDeactivateCandidates ctx limit pfs last w
    = (Ret (top, candidates, None), w', t) ->
  exists projects e1 results,
    FindNextNCyclingProjectInfos (ctxDone ctx (cancelled w)) pfs last (env w)
      = (Ok projects, e1) /\
    length results = length projects /\
    candidates = concat results /\
    t = EFindNextNCyclingProjectInfos pfs last (Ok projects)
          :: clientLookups limit projects results /\
    ((len projects < pfs /\ top = DefaultProjectID)
     \/ (pfs <= len projects /\
         exists init p, projects = init ++ [p] /\ top = ProjectInfo_ID p)).
Proof.
  intros H.
  unfold FindDeactivateCandidates, database_FindNextNCyclingProjectInfos in H.
  unfold bind at 1 in H. unfold call at 1 in H.
  destruct (FindNextNCyclingProjectInfos _ pfs last (env w))
    as [[projects|err] e1] eqn:EL; [|inversion H].
  unfold bind at 1 in H.
  destruct (rangeProjects _ projects [] (setEnv w e1)) as [[r2 w2] t2] eqn:E2.
  destruct r2 as [[candidates2|err]|msg]; [|inversion H|inversion H].
  apply (rangeProjects_ok
           (fun p d => FindDeactivateCandidatesPerProject d p limit)
           (fun p => EFindDeactivateCandidatesPerProject p limit)) in E2.
  destruct E2 as (results & Hlen & -> & ->).
  unfold bind in H.
  destruct (topProjectID projects pfs w2) as [[r3 w3] t3] eqn:E3.
  apply topProjectID_inv in E3. destruct E3 as (-> & -> & Htop).
  exists projects, e1, results.
  destruct Htop as [[Hlt ->]|[Hge [(init & p & -> & ->)|[-> [msg ->]]]]];
    inversion H; subst; cbn; rewrite ?app_nil_r; repeat split; auto.
  right. split; eauto.
Qed.

Lemma FindDocumentHardDeletionCandidates_ok ctx limit pfs grace last w top
    candidates w' t :
  FindDocumentHardDeletionCandidates ctx limit pfs grace last w
    = (Ret (top, candidates, None), w', t) ->
  exists projects e1 results,
    FindNextNCyclingProjectInfos (ctxDone ctx (cancelled w)) pfs last (env w)
      = (Ok projects, e1) /\
    length results = length projects /\
    candidates = concat results /\
    t = EFindNextNCyclingProjectInfos pfs last (Ok projects)
          :: docLookups limit grace projects results /\
    ((len projects < pfs /\ top = DefaultProjectID)
     \/ (pfs <= len projects /\
         exists init p, projects = init ++ [p] /\ top = ProjectInfo_ID p)).
Proof.
  intros H.
  unfold FindDocumentHardDeletionCandidates,
    database_FindNextNCyclingProjectInfos in H.
  unfold bind at 1 in H. unfold call at 1 in H.
  destruct (FindNextNCyclingProjectInfos _ pfs last (env w))
    as [[projects|err] e1] eqn:EL; [|inversion H].
  unfold bind at 1 in H.
  destruct (rangeProjects _ projects [] (setEnv w e1)) as [[r2 w2] t2] eqn:E2.
  destruct r2 as [[candidates2|err]|msg]; [|inversion H|inversion H].
  apply (rangeProjects_ok
           (fun p d => FindDocumentHardDeletionCandidatesPerProject d p limit grace)
           (fun p => EFindDocumentHardDeletionCandidatesPerProject p limit grace))
    in E2.
  destruct E2 as (results & Hlen & -> & ->).
  unfold bind in H.
  destruct (topProjectID projects pfs w2) as [[r3 w3] t3] eqn:E3.
  apply topProjectID_inv in E3. destruct E3 as (-> & -> & Htop).
  exists projects, e1, results.
  destruct Htop as [[Hlt ->]|[Hge [(init & p & -> & ->)|[-> [msg ->]]]]];
    inversion H; subst; cbn; rewrite ?app_nil_r; repeat split; auto.
  right. split; eauto.
Qed.

(** How the body of [deactivateCandidates] leaves, by what
    [FindDeactivateCandidates] and the deactivation loop gave. *)
Lemma deactivateCandidates_locked_inv h ctx cur w r w' t :
  deactivateCandidates_locked h ctx cur w = (r, w', t) ->
  exists rf wf tf,
    FindDeactivateCandidates ctx (clientDeactivationCandidateLimitPerProject h)
      (projectFetchSize h) cur w = (rf, wf, tf) /\
    match rf with
    | Panic msg => r = Panic msg /\ w' = wf /\ t = tf
    | Ret (top, candidates, Some e) =>
        r = Ret (DefaultProjectID, Some e) /\ w' = wf /\ t = tf
    | Ret (top, candidates, None) =>
        exists rd td,
          rangeDeactivate ctx candidates 0 wf = (Ret rd, w', td) /\
          match rd with
          | Fail e => r = Ret (DefaultProjectID, Some e) /\ t = tf ++ td
          | Ok n =>
              r = Ret (top, None) /\
              t = tf ++ td ++
                  (if 0 <? len candidates
                   then [ELogInfof "HSKP: candidates %d, deactivated %d, %s"
                           (len candidates) n]
                   else [])
          end
    end.
Proof.
  intros H. unfold deactivateCandidates_locked in H. unfold bind at 1 in H.
  destruct (FindDeactivateCandidates _ _ _ _ w) as [[rf wf] tf] eqn:EF.
  exists rf, wf, tf. split; [reflexivity|].
  destruct rf as [[[top candidates] [e|]]|msg].
  - cbn in H. inversion H; subst. rewrite app_nil_r. auto.
  - unfold bind at 1 in H.
    destruct (rangeDeactivate_returns ctx candidates 0 wf) as (rd & wd & td & ED).
    rewrite ED in H. exists rd, td.
    destruct rd as [n|e].
    + unfold bind, logging_Infof, emit, ret in H.
      destruct (0 <? len candidates); inversion H; subst; auto.
    + cbn in H. inversion H; subst. rewrite app_nil_r. auto.
  - inversion H; subst. auto.
Qed.

Lemma DeleteDocument_locked_inv h ctx cur w r w' t :
  DeleteDocument_locked h ctx cur w = (r, w', t) ->
  exists rf wf tf,
    FindDocumentHardDeletionCandidates ctx
      (DocumentHardDeletionCandidateLimitPerProject h) (projectFetchSize h)
      (documentHardDeletionGracefulPeriod h) cur w = (rf, wf, tf) /\
    match rf with
    | Panic msg => r = Panic msg /\ w' = wf /\ t = tf
    | Ret (top, candidates, Some e) =>
        r = Ret (DefaultProjectID, Some e) /\ w' = wf /\ t = tf
    | Ret (top, candidates, None) =>
        exists rd e1,
          db_DeleteDocument (ctxDone ctx (cancelled wf)) candidates (env wf)
            = (rd, e1) /\
          w' = setEnv wf e1 /\
          match rd with
          | Fail e =>
              r = Ret (DefaultProjectID, Some e) /\
              t = tf ++ [EDeleteDocument candidates (Fail e)]
          | Ok n =>
              r = Ret (top, None) /\
              t = tf ++ EDeleteDocument candidates (Ok n) ::
                  (if 0 <? len candidates
                   then [ELogInfof "HSKP: candidates %d, hard deleted %d, %s"
                           (len candidates) n]
                   else [])
          end
    end.
Proof.
  intros H. unfold DeleteDocument_locked in H. unfold bind at 1 in H.
  destruct (FindDocumentHardDeletionCandidates _ _ _ _ _ w)
    as [[rf wf] tf] eqn:EF.
  exists rf, wf, tf. split; [reflexivity|].
  destruct rf as [[[top candidates] [e|]]|msg].
  - cbn in H. inversion H; subst. rewrite app_nil_r. auto.
  - unfold bind at 1 in H. unfold database_DeleteDocument, call in H.
    destruct (db_DeleteDocument _ candidates (env wf)) as [rd e1] eqn:ED.
    exists rd, e1. split; [reflexivity|].
    destruct rd as [n|e].
    + unfold bind, logging_Infof, emit, ret in H.
      destruct (0 <? len candidates); inversion H; subst; auto.
    + cbn in H. inversion H; subst. auto.
  - inversion H; subst. auto.
Qed.

(** ** Candidate finding *)

(** C1. A candidate-finding call that succeeds returns, as next cursor, the
    sentinel [DefaultProjectID] when the project listing returned fewer than
    [projectFetchSize] projects, whichever projects these are, and otherwise
    the ID of the last project of the returned page. *)
Theorem C1_next_cursor ctx limit grace pfs last w :
  (forall top candidates w' t,
      FindDeactivateCandidates ctx limit pfs last w
        = (Ret (top, candidates, None), w', t) ->
      exists projects e1,
        FindNextNCyclingProjectInfos (ctxDone ctx (cancelled w)) pfs last (env w)
          = (Ok projects, e1) /\
        (len projects < pfs -> top = DefaultProjectID) /\
        (~ len projects < pfs ->
         exists init p, projects = init ++ [p] /\ top = ProjectInfo_ID p))
  /\
  (forall top candidates w' t,
      FindDocumentHardDeletionCandidates ctx limit pfs grace last w
        = (Ret (top, candidates, None), w', t) ->
      exists projects e1,
        FindNextNCyclingProjectInfos (ctxDone ctx (cancelled w)) pfs last (env w)
          = (Ok projects, e1) /\
        (len projects < pfs -> top = DefaultProjectID) /\
        (~ len projects < pfs ->
         exists init p, projects = init ++ [p] /\ top = ProjectInfo_ID p)).
Proof.
  split; intros top candidates w' t H;
    [apply FindDeactivateCandidates_ok in H
    |apply FindDocumentHardDeletionCandidates_ok in H];
    destruct H as (projects & e1 & results & HL & _ & _ & _ & Htop);
    exists projects, e1; (split; [exact HL|]);
    (destruct Htop as [[Hlt ->]|[Hge (init & p & -> & ->)]];
     split; intros Hc; try reflexivity; try lia; eauto).
Qed.

Lemma emits_lookupLimit_deactivateCandidates h ctx cur docLimit :
  emits (lookupLimit (clientDeactivationCandidateLimitPerProject h) docLimit)
        (deactivateCandidates h ctx cur).
Proof.
  unfold deactivateCandidates, deactivateCandidates_locked,
    FindDeactivateCandidates, coordinator_NewLocker, locker_Lock, unlockOrLog,
    locker_Unlock, logging_Error, database_FindNextNCyclingProjectInfos,
    database_FindDeactivateCandidatesPerProject, logging_Infof.
  emits_tac; cbn; auto.
Qed.

Lemma emits_lookupLimit_DeleteDocument h ctx cur clientLimit :
  emits (lookupLimit clientLimit (DocumentHardDeletionCandidateLimitPerProject h))
        (DeleteDocument h ctx cur).
Proof.
  unfold DeleteDocument, DeleteDocument_locked,
    FindDocumentHardDeletionCandidates, coordinator_NewLocker, locker_Lock,
    unlockOrLog, locker_Unlock, logging_Error, database_DeleteDocument,
    database_FindNextNCyclingProjectInfos,
    database_FindDocumentHardDeletionCandidatesPerProject, logging_Infof.
  emits_tac; cbn; auto.
Qed.

(** C7. A successful candidate-finding call asks the store for the page,
    then looks up each project of the page once, in page order, and returns
    the concatenation of the lists the store returned for each, in that order
    (a project without candidates has its lookup and adds nothing). The
    events are the store's own answers: the page is what
    [FindNextNCyclingProjectInfos] returned, the list of each project what
    [FindDeactivateCandidatesPerProject] (or
    [FindDocumentHardDeletionCandidatesPerProject]) returned on the store the
    lookup before it left, and the store is left as the last lookup left it.
    In any run of a sweep, every per-project lookup is such a call, made
    with the configured limit of its kind. *)
Theorem C7_batch_is_concatenation h ctx limit grace pfs last w :
  (forall top candidates w' t,
      FindDeactivateCandidates ctx limit pfs last w
        = (Ret (top, candidates, None), w', t) ->
      exists projects results,
        t = EFindNextNCyclingProjectInfos pfs last (Ok projects)
              :: clientLookups limit projects results /\
        length results = length projects /\
        candidates = concat results /\
        answered (ctxDone ctx (cancelled w)) t (env w) (env w'))
  /\
  (forall top candidates w' t,
      FindDocumentHardDeletionCandidates ctx limit pfs grace last w
        = (Ret (top, candidates, None), w', t) ->
      exists projects results,
        t = EFindNextNCyclingProjectInfos pfs last (Ok projects)
              :: docLookups limit grace projects results /\
        length results = length projects /\
        candidates = concat results /\
        answered (ctxDone ctx (cancelled w)) t (env w) (env w'))
  /\
  (forall r w' t,
      deactivateCandidates h ctx last w = (r, w', t) ->
      Forall (lookupLimit (clientDeactivationCandidateLimitPerProject h)
                (DocumentHardDeletionCandidateLimitPerProject h)) t /\
      answered (ctxDone ctx (cancelled w)) t (env w) (env w'))
  /\
  (forall r w' t,
      DeleteDocument h ctx last w = (r, w', t) ->
      Forall (lookupLimit (clientDeactivationCandidateLimitPerProject h)
                (DocumentHardDeletionCandidateLimitPerProject h)) t /\
      answered (ctxDone ctx (cancelled w)) t (env w) (env w')).
Proof.
  split; [|split; [|split]].
  - intros top candidates w' t H.
    pose proof (recorded_FindDeactivateCandidates _ _ _ _ _ _ _ _ H) as (_ & Ha).
    apply FindDeactivateCandidates_ok in H.
    destruct H as (projects & e1 & results & _ & Hlen & Hc & Ht & _).
    exists projects, results. auto.
  - intros top candidates w' t H.
    pose proof (recorded_FindDocumentHardDeletionCandidates _ _ _ _ _ _ _ _ _ H)
      as (_ & Ha).
    apply FindDocumentHardDeletionCandidates_ok in H.
    destruct H as (projects & e1 & results & _ & Hlen & Hc & Ht & _).
    exists projects, results. auto.
  - intros r w' t H. split.
    + eapply emits_lookupLimit_deactivateCandidates; eauto.
    + apply (recorded_deactivateCandidates _ _ _ _ _ _ _ H).
  - intros r w' t H. split.
    + eapply emits_lookupLimit_DeleteDocument; eauto.
    + apply (recorded_DeleteDocument _ _ _ _ _ _ _ H).
Qed.

(** ** The sweeps *)

(** C9. The cursor a sweep returns together with a non-nil error is always
    the sentinel [DefaultProjectID]. *)
Theorem C9_error_returns_sentinel h ctx cur w c e w' t :
  (deactivateCandidates h ctx cur w = (Ret (c, Some e), w', t) ->
   c = DefaultProjectID)
  /\
  (DeleteDocument h ctx cur w = (Ret (c, Some e), w', t) ->
   c = DefaultProjectID).
Proof.
  split; intros H.
  - apply deactivateCandidates_inv in H.
    destruct H as [(e0 & e1 & _ & Hr & _)|[(l & e1 & e0 & e2 & _ & _ & Hr & _)
      |(l & e1 & e2 & wb & tb & ue & e3 & _ & _ & Hb & _)]];
      try (inversion Hr; reflexivity).
    apply deactivateCandidates_locked_inv in Hb.
    destruct Hb as (rf & wf & tf & _ & Hb).
    destruct rf as [[[top candidates] [e0|]]|msg].
    + destruct Hb as (Hr & _). inversion Hr; reflexivity.
    + destruct Hb as (rd & td & _ & Hb).
      destruct rd; destruct Hb as (Hr & _); inversion Hr; reflexivity.
    + destruct Hb as (Hr & _). inversion Hr.
  - apply DeleteDocument_inv in H.
    destruct H as [(e0 & e1 & _ & Hr & _)|[(l & e1 & e0 & e2 & _ & _ & Hr & _)
      |(l & e1 & e2 & wb & tb & ue & e3 & _ & _ & Hb & _)]];
      try (inversion Hr; reflexivity).
    apply DeleteDocument_locked_inv in Hb.
    destruct Hb as (rf & wf & tf & _ & Hb).
    destruct rf as [[[top candidates] [e0|]]|msg].
    + destruct Hb as (Hr & _). inversion Hr; reflexivity.
    + destruct Hb as (rd & e4 & _ & _ & Hb).
      destruct rd; destruct Hb as (Hr & _); inversion Hr; reflexivity.
    + destruct Hb as (Hr & _). inversion Hr.
Qed.

Lemma filter_none {A} (f : A -> bool) (l : list A) :
  Forall (fun x => f x = false) l -> filter f l = [].
Proof.
  induction 1 as [|x l Hx _ IH]; [reflexivity|]. cbn. rewrite Hx. exact IH.
Qed.

Lemma filter_all {A} (f : A -> bool) (l : list A) :
  Forall (fun x => f x = true) l -> filter f l = l.
Proof.
  induction 1 as [|x l Hx _ IH]; [reflexivity|]. cbn. rewrite Hx, IH.
  reflexivity.
Qed.

Lemma FindDeactivateCandidates_no_action ctx limit pfs last :
  emits (fun ev => isDeactivate ev = false)
        (FindDeactivateCandidates ctx limit pfs last).
Proof.
  unfold FindDeactivateCandidates, database_FindNextNCyclingProjectInfos,
    database_FindDeactivateCandidatesPerProject.
  emits_tac; reflexivity.
Qed.

Lemma filter_isDeactivate_unlockEvents l ue :
  filter isDeactivate (unlockEvents l ue) = [].
Proof. destruct ue; reflexivity. Qed.

Lemma filter_isDeactivate_EDeactivated candidates :
  filter isDeactivate (map EDeactivated candidates) = map EDeactivated candidates.
Proof.
  apply filter_all. apply Forall_map, Forall_forall. reflexivity.
Qed.

(** C10. When [deactivateCandidates] returns a nil error, it created its
    locker, acquired the lock and found a batch; [clients.Deactivate] was
    then called on each candidate of the batch, once and in order, each call
    on the store the call before it left, and each of these calls succeeded;
    no other deactivation was made in the sweep. The store is left as these
    calls and then the release of the lock made it. The count kept by the
    loop ends equal to the size of the batch, and these are the two numbers
    of the log line (written when the batch is not empty). Every event of the
    sweep is the answer of the collaborator it names. *)
Theorem C10_success_deactivates_all h ctx cur w c w' t :
  deactivateCandidates h ctx cur w = (Ret (c, None), w', t) ->
  exists l e1 e2 candidates wf tf wd ue e3,
    NewLocker (ctxDone ctx (cancelled w)) deactivateCandidatesKey (env w)
      = (Ok l, e1) /\
    Lock (ctxDone ctx (cancelled w)) l e1 = (None, e2) /\
    FindDeactivateCandidates ctx (clientDeactivationCandidateLimitPerProject h)
      (projectFetchSize h) cur (setEnv w e2)
      = (Ret (c, candidates, None), wf, tf) /\
    allDeactivate (ctxDone ctx (cancelled wf)) candidates (env wf) = true /\
    wd = setEnv wf (afterDeactivations (ctxDone ctx (cancelled wf)) candidates
                      (env wf)) /\
    rangeDeactivate ctx candidates 0 wf
      = (Ret (Ok (len candidates)), wd, map EDeactivated candidates) /\
    Unlock (ctxDone ctx (cancelled wd)) l (env wd) = (ue, e3) /\
    w' = setEnv wd e3 /\
    t = [ENewLocker deactivateCandidatesKey (Ok l); ELock l None]
          ++ tf ++ map EDeactivated candidates
          ++ (if 0 <? len candidates
              then [ELogInfof "HSKP: candidates %d, deactivated %d, %s"
                      (len candidates) (len candidates)]
              else [])
          ++ unlockEvents l ue /\
    filter isDeactivate t = map EDeactivated candidates /\
    answered (ctxDone ctx (cancelled w)) t (env w) (env w').
Proof.
  intros H.
  pose proof (recorded_deactivateCandidates _ _ _ _ _ _ _ H) as (_ & Ha).
  apply deactivateCandidates_inv in H.
  destruct H as [(e0 & e1 & _ & Hr & _)|[(l & e1 & e0 & e2 & _ & _ & Hr & _)
    |(l & e1 & e2 & wb & tb & ue & e3 & HN & HL & Hb & HU & Hw & Ht)]];
    try discriminate Hr.
  apply deactivateCandidates_locked_inv in Hb.
  destruct Hb as (rf & wf & tf & HF & Hb).
  destruct rf as [[[top candidates] [e0|]]|msg];
    [destruct Hb as (Hr & _); discriminate Hr| |destruct Hb as (Hr & _);
     discriminate Hr].
  destruct Hb as (rd & td & HD & Hb).
  destruct rd as [n|e0]; [|destruct Hb as (Hr & _); discriminate Hr].
  destruct Hb as (Hr & Htb). inversion Hr; subst top. clear Hr.
  pose proof (rangeDeactivate_ok _ _ _ _ _ _ _ HD) as (Hn & Htd & Hall & Hwd).
  cbn in Hn. subst n td.
  exists l, e1, e2, candidates, wf, tf, wb, ue, e3.
  split; [exact HN|]. split; [exact HL|]. split; [exact HF|].
  split; [exact Hall|]. split; [exact Hwd|]. split; [exact HD|].
  split; [exact HU|]. split; [exact Hw|].
  assert (Ht' : t = [ENewLocker deactivateCandidatesKey (Ok l); ELock l None]
          ++ tf ++ map EDeactivated candidates
          ++ (if 0 <? len candidates
              then [ELogInfof "HSKP: candidates %d, deactivated %d, %s"
                      (len candidates) (len candidates)]
              else [])
          ++ unlockEvents l ue).
  { rewrite Ht, Htb. rewrite <- !app_assoc. reflexivity. }
  split; [exact Ht'|]. split; [|exact Ha].
  rewrite Ht'. rewrite !filter_app.
  rewrite (filter_none _ tf (FindDeactivateCandidates_no_action _ _ _ _ _ _ _ _ HF)).
  rewrite filter_isDeactivate_EDeactivated, filter_isDeactivate_unlockEvents.
  cbn. destruct (0 <? len candidates); cbn; rewrite app_nil_r; reflexivity.
Qed.

Lemma underLock_not_unlock t :
  Forall underLock t -> Forall (fun ev => isUnlock ev = false) t.
Proof.
  apply Forall_impl. intros [] Hev; cbn in *; auto; contradiction.
Qed.

(** In the events of a sweep that held the lock, a call to the store comes
    after the acquisition and before the release. *)
Lemma store_call_under_lock key l tb ue t1 ev t2 :
  Forall underLock tb ->
  [ENewLocker key (Ok l); ELock l None] ++ tb ++ unlockEvents l ue
    = t1 ++ ev :: t2 ->
  isStoreCall ev = true ->
  exists t1',
    t1 = ENewLocker key (Ok l) :: ELock l None :: t1' /\
    filter isUnlock t1 = [].
Proof.
  intros Htb Heq Hev.
  destruct t1 as [|a [|b t1']]; cbn in Heq.
  - inversion Heq; subst. discriminate Hev.
  - inversion Heq; subst. discriminate Hev.
  - inversion Heq as [[Ha Hb Hrest]]. exists t1'. split; [reflexivity|].
    cbn. apply filter_none.
    symmetry in Hrest. apply app_eq_app in Hrest.
    destruct Hrest as (m & [[-> Hu]|[-> Hu]]).
    + exfalso. assert (Hin : In ev (unlockEvents l ue)).
      { rewrite Hu. apply in_or_app. right. left. reflexivity. }
      destruct ue; cbn in Hin; intuition (subst; discriminate).
    + apply underLock_not_unlock. apply Forall_app in Htb. tauto.
Qed.

(** C5. A sweep whose locker cannot be created, or whose lock cannot be
    acquired, returns that error after the calls to the coordinator alone: no
    call to the store, and the store as the coordinator left it. In any run
    of a sweep, a candidate lookup or a store action comes only after the
    lock of the kind has been acquired, and before it is released. *)
Theorem C5_no_store_access_without_lock h ctx cur w :
  (forall e e1,
      NewLocker (ctxDone ctx (cancelled w)) deactivateCandidatesKey (env w)
        = (Fail e, e1) ->
      deactivateCandidates h ctx cur w
        = (Ret (DefaultProjectID, Some e), setEnv w e1,
           [ENewLocker deactivateCandidatesKey (Fail e)]))
  /\
  (forall l e1 e e2,
      NewLocker (ctxDone ctx (cancelled w)) deactivateCandidatesKey (env w)
        = (Ok l, e1) ->
      Lock (ctxDone ctx (cancelled w)) l e1 = (Some e, e2) ->
      deactivateCandidates h ctx cur w
        = (Ret (DefaultProjectID, Some e), setEnv w e2,
           [ENewLocker deactivateCandidatesKey (Ok l); ELock l (Some e)]))
  /\
  (forall e e1,
      NewLocker (ctxDone ctx (cancelled w)) documentHardDeletionLockKey (env w)
        = (Fail e, e1) ->
      DeleteDocument h ctx cur w
        = (Ret (DefaultProjectID, Some e), setEnv w e1,
           [ENewLocker documentHardDeletionLockKey (Fail e)]))
  /\
  (forall l e1 e e2,
      NewLocker (ctxDone ctx (cancelled w)) documentHardDeletionLockKey (env w)
        = (Ok l, e1) ->
      Lock (ctxDone ctx (cancelled w)) l e1 = (Some e, e2) ->
      DeleteDocument h ctx cur w
        = (Ret (DefaultProjectID, Some e), setEnv w e2,
           [ENewLocker documentHardDeletionLockKey (Ok l); ELock l (Some e)]))
  /\
  (forall r w' t t1 ev t2,
      deactivateCandidates h ctx cur w = (r, w', t) ->
      t = t1 ++ ev :: t2 ->
      isStoreCall ev = true ->
      exists l t1',
        t1 = ENewLocker deactivateCandidatesKey (Ok l) :: ELock l None :: t1' /\
        filter isUnlock t1 = [])
  /\
  (forall r w' t t1 ev t2,
      DeleteDocument h ctx cur w = (r, w', t) ->
      t = t1 ++ ev :: t2 ->
      isStoreCall ev = true ->
      exists l t1',
        t1 = ENewLocker documentHardDeletionLockKey (Ok l) :: ELock l None :: t1' /\
        filter isUnlock t1 = []).
Proof.
  repeat split.
  - intros e e1 HN.
    unfold deactivateCandidates, bind, coordinator_NewLocker, call.
    rewrite HN. reflexivity.
  - intros l e1 e e2 HN HL.
    unfold deactivateCandidates, bind, coordinator_NewLocker, locker_Lock, call.
    rewrite HN. cbn. rewrite HL. reflexivity.
  - intros e e1 HN.
    unfold DeleteDocument, bind, coordinator_NewLocker, call.
    rewrite HN. reflexivity.
  - intros l e1 e e2 HN HL.
    unfold DeleteDocument, bind, coordinator_NewLocker, locker_Lock, call.
    rewrite HN. cbn. rewrite HL. reflexivity.
  - intros r w' t t1 ev t2 H Ht Hev. apply deactivateCandidates_inv in H.
    destruct H as [(e0 & e1 & _ & _ & _ & Hr)|[(l & e1 & e0 & e2 & _ & _ & _ & _ & Hr)
      |(l & e1 & e2 & wb & tb & ue & e3 & _ & _ & Hb & _ & _ & Hr)]].
    + rewrite Hr in Ht. destruct t1 as [|a [|b t1]]; inversion Ht; subst;
        discriminate Hev.
    + rewrite Hr in Ht. destruct t1 as [|a [|b [|c0 t1]]]; inversion Ht; subst;
        discriminate Hev.
    + rewrite Hr in Ht.
      apply underLock_deactivateCandidates_locked in Hb.
      destruct (store_call_under_lock _ _ _ _ _ _ _ Hb Ht Hev) as (t1' & ? & ?).
      eauto.
  - intros r w' t t1 ev t2 H Ht Hev. apply DeleteDocument_inv in H.
    destruct H as [(e0 & e1 & _ & _ & _ & Hr)|[(l & e1 & e0 & e2 & _ & _ & _ & _ & Hr)
      |(l & e1 & e2 & wb & tb & ue & e3 & _ & _ & Hb & _ & _ & Hr)]].
    + rewrite Hr in Ht. destruct t1 as [|a [|b t1]]; inversion Ht; subst;
        discriminate Hev.
    + rewrite Hr in Ht. destruct t1 as [|a [|b [|c0 t1]]]; inversion Ht; subst;
        discriminate Hev.
    + rewrite Hr in Ht.
      apply underLock_DeleteDocument_locked in Hb.
      destruct (store_call_under_lock _ _ _ _ _ _ _ Hb Ht Hev) as (t1' & ? & ?).
      eauto.
Qed.

(** C6. A sweep that acquired its lock returns exactly what its body
    returned, on every way out of the body (a return with or without error, a
    panic), and releases the lock exactly once, after the body; a release
    that fails adds a log line and nothing else. *)
Theorem C6_lock_released_exactly_once h ctx cur w :
  (forall l e1 e2 r w' t,
      NewLocker (ctxDone ctx (cancelled w)) deactivateCandidatesKey (env w)
        = (Ok l, e1) ->
      Lock (ctxDone ctx (cancelled w)) l e1 = (None, e2) ->
      deactivateCandidates h ctx cur w = (r, w', t) ->
      exists wb tb ue e3,
        deactivateCandidates_locked h ctx cur (setEnv w e2) = (r, wb, tb) /\
        Unlock (ctxDone ctx (cancelled wb)) l (env wb) = (ue, e3) /\
        w' = setEnv wb e3 /\
        t = [ENewLocker deactivateCandidatesKey (Ok l); ELock l None]
              ++ tb
              ++ EUnlock l ue
                 :: match ue with Some e => [ELogError e] | None => [] end /\
        filter isUnlock t = [EUnlock l ue])
  /\
  (forall l e1 e2 r w' t,
      NewLocker (ctxDone ctx (cancelled w)) documentHardDeletionLockKey (env w)
        = (Ok l, e1) ->
      Lock (ctxDone ctx (cancelled w)) l e1 = (None, e2) ->
      DeleteDocument h ctx cur w = (r, w', t) ->
      exists wb tb ue e3,
        DeleteDocument_locked h ctx cur (setEnv w e2) = (r, wb, tb) /\
        Unlock (ctxDone ctx (cancelled wb)) l (env wb) = (ue, e3) /\
        w' = setEnv wb e3 /\
        t = [ENewLocker documentHardDeletionLockKey (Ok l); ELock l None]
              ++ tb
              ++ EUnlock l ue
                 :: match ue with Some e => [ELogError e] | None => [] end /\
        filter isUnlock t = [EUnlock l ue]).
Proof.
  split; intros l e1 e2 r w' t HN HL H;
    [apply deactivateCandidates_inv in H|apply DeleteDocument_inv in H];
    (destruct H as [(e0 & e1' & HN' & _)|[(l' & e1' & e0 & e2' & HN' & HL' & _)
      |(l' & e1' & e2' & wb & tb & ue & e3 & HN' & HL' & Hb & HU & Hw & Ht)]];
     rewrite HN in HN'; try discriminate HN';
     inversion HN'; subst l' e1'; rewrite HL in HL'; try discriminate HL';
     inversion HL'; subst e2');
    exists wb, tb, ue, e3; repeat split; auto;
    rewrite Ht; cbn [app filter isUnlock]; rewrite filter_app;
    [apply underLock_deactivateCandidates_locked in Hb
    |apply underLock_DeleteDocument_locked in Hb];
    rewrite (underLock_no_unlock _ Hb); destruct ue; reflexivity.
Qed.

(** ** The scheduler loops *)

Lemma bodyOf_loopBody h g :
  bodyOf h g = loopBody (sweepOf h g) (intervalOf h g).
Proof. destruct g; reflexivity. Qed.

Lemma controlOf_setControl g c (s : System W) : controlOf g (setControl g c s) = c.
Proof. destruct g; reflexivity. Qed.

Lemma world_setControl g c (s : System W) : world (setControl g c s) = world s.
Proof. destruct g; reflexivity. Qed.

Lemma trace_setControl g c (s : System W) : trace (setControl g c s) = trace s.
Proof. destruct g; reflexivity. Qed.

Lemma controlOf_setControl_other g g' c (s : System W) :
  g <> g' -> controlOf g' (setControl g c s) = controlOf g' s.
Proof. destruct g, g'; intros Hne; try reflexivity; contradiction. Qed.

(** One pass through the loop body, by what the sweep returned. *)
Lemma loopBody_run sweep interval cur w rs ws ts :
  sweep Background cur w = (rs, ws, ts) ->
  loopBody sweep interval cur w =
    match rs with
    | Ret (c, Some e) => (Ret (AtSweep cur), ws, ts ++ [ELogError e])
    | Ret (c, None) => (Ret (AtSelect c interval false), ws, ts ++ [ESelect interval])
    | Panic msg => (Panic msg, ws, ts)
    end.
Proof.
  intros H. unfold loopBody, bind. rewrite H.
  destruct rs as [[c [e|]]|msg]; reflexivity.
Qed.

Lemma exec_Run h g cur (s : System W) rs ws ts :
  controlOf g s = AtSweep cur ->
  sweepOf h g Background cur (world s) = (rs, ws, ts) ->
  exists s',
    exec h (Run g) s = Some s' /\
    world s' = ws /\
    (forall g', g' <> g -> controlOf g' s' = controlOf g' s) /\
    match rs with
    | Ret (c, Some e) =>
        controlOf g s' = AtSweep cur /\ trace s' = trace s ++ ts ++ [ELogError e]
    | Ret (c, None) =>
        controlOf g s' = AtSelect c (intervalOf h g) false /\
        trace s' = trace s ++ ts ++ [ESelect (intervalOf h g)]
    | Panic msg => controlOf g s' = Panicked msg /\ trace s' = trace s ++ ts
    end.
Proof.
  intros Hc Hs. unfold exec. rewrite Hc, bodyOf_loopBody.
  rewrite (loopBody_run _ (intervalOf h g) _ _ _ _ _ Hs).
  destruct rs as [[c [e|]]|msg]; eexists; (split; [reflexivity|]);
    rewrite world_setControl, controlOf_setControl, trace_setControl; cbn;
    repeat split; auto;
    intros g' Hne; rewrite controlOf_setControl_other by auto;
    destruct g'; reflexivity.
Qed.

(** C2. In each scheduler loop, a pass whose sweep returns a non-nil error
    leaves [housekeepingLastProjectID] as it was for the next pass, and a pass
    whose sweep returns a nil error replaces it by the returned value; no
    other move of the system changes the cursor a loop holds. *)
Theorem C2_cursor_kept_on_error h g (s : System W) :
  (forall cur c err ws ts,
      controlOf g s = AtSweep cur ->
      sweepOf h g Background cur (world s) = (Ret (c, err), ws, ts) ->
      exists s',
        exec h (Run g) s = Some s' /\
        cursorOf (controlOf g s')
          = Some (match err with Some _ => cur | None => c end))
  /\
  (forall m s',
      m <> Run g ->
      exec h m s = Some s' ->
      controlOf g s' = Returned
      \/ cursorOf (controlOf g s') = cursorOf (controlOf g s)).
Proof.
  split.
  - intros cur c err ws ts Hc Hs.
    destruct (exec_Run h g cur s _ _ _ Hc Hs) as (s' & He & _ & _ & Hr).
    exists s'. split; [exact He|].
    destruct err; destruct Hr as (-> & _); reflexivity.
  - intros m s' Hm He. destruct m as [g0|g0 k|g0|]; cbn in He.
    + assert (Hne : g0 <> g) by congruence.
      destruct (controlOf g0 s); try discriminate He.
      destruct (bodyOf h g0 _ _) as [[r w1] t1]. inversion He; subst. right.
      rewrite controlOf_setControl_other by auto. destruct g; reflexivity.
    + destruct g, g0, k; cbn in He;
        repeat match type of He with
          | context [match ?x with _ => _ end] => destruct x eqn:?
          end; inversion He; subst; cbn; auto;
        right;
        repeat match goal with
          | E : deactivateLoop _ = _ |- _ => rewrite E; clear E
          | E : deletionLoop _ = _ |- _ => rewrite E; clear E
          end; reflexivity.
    + destruct g, g0; cbn in He;
        repeat match type of He with
          | context [match ?x with _ => _ end] => destruct x eqn:?
          end; inversion He; subst; cbn; auto;
        right;
        repeat match goal with
          | E : deactivateLoop _ = _ |- _ => rewrite E; clear E
          | E : deletionLoop _ = _ |- _ => rewrite E; clear E
          end; reflexivity.
    + inversion He; subst. right. destruct g; reflexivity.
Qed.

(** C3. After a pass whose sweep returned a non-nil error, the loop has
    logged the error and stands again at the call of the sweep: no [select]
    was entered, neither the timer case nor the cancellation case can be
    taken, whatever the shutdown signal, and the next move of the loop is the
    next sweep. A loop stands at its [select] only after a pass whose sweep
    returned a nil error. *)
Theorem C3_no_wait_after_error h g (s : System W) :
  (forall cur c e ws ts,
      controlOf g s = AtSweep cur ->
      sweepOf h g Background cur (world s) = (Ret (c, Some e), ws, ts) ->
      exists s',
        exec h (Run g) s = Some s' /\
        controlOf g s' = AtSweep cur /\
        trace s' = trace s ++ ts ++ [ELogError e] /\
        (forall k, exec h (Select g k) s' = None) /\
        exec h (Fire g) s' = None /\
        exists s'', exec h (Run g) s' = Some s'')
  /\
  (forall s' c d f,
      exec h (Run g) s = Some s' ->
      controlOf g s' = AtSelect c d f ->
      exists cur ws ts,
        controlOf g s = AtSweep cur /\
        sweepOf h g Background cur (world s) = (Ret (c, None), ws, ts) /\
        trace s' = trace s ++ ts ++ [ESelect d]).
Proof.
  split.
  - intros cur c e ws ts Hc Hs.
    destruct (exec_Run h g cur s _ _ _ Hc Hs) as (s' & He & _ & _ & Hc' & Ht).
    exists s'. repeat split; auto.
    + intros k. unfold exec. rewrite Hc'. destruct k; reflexivity.
    + unfold exec. rewrite Hc'. reflexivity.
    + unfold exec. rewrite Hc'.
      destruct (bodyOf h g cur (world s')) as [[r w1] t1]. eauto.
  - intros s' c d f He Hc'.
    destruct (controlOf g s) as [cur| | |] eqn:Hc;
      try (unfold exec in He; rewrite Hc in He; discriminate He).
    destruct (sweepOf h g Background cur (world s)) as [[rs ws] ts] eqn:Hs.
    destruct (exec_Run h g cur s _ _ _ Hc Hs) as (s1 & He1 & _ & _ & Hr).
    rewrite He in He1. inversion He1; subst s1.
    exists cur, ws, ts.
    destruct rs as [[c0 [e|]]|msg]; destruct Hr as (Hc1 & Ht);
      rewrite Hc' in Hc1; inversion Hc1; subst. auto.
Qed.

(** ** The shutdown signal and the sweeps *)

Lemma oblivious_ret {A} (a : A) : oblivious (ret a).
Proof. intros w b. reflexivity. Qed.

Lemma oblivious_panic {A} msg : oblivious (@panic W CO A msg).
Proof. intros w b. reflexivity. Qed.

Lemma oblivious_emit ev : oblivious (emit ev).
Proof. intros w b. reflexivity. Qed.

(** A call made with [context.Background()] does not see the signal. *)
Lemma oblivious_call {A} (op : bool -> W -> A * W) ev :
  oblivious (call op ev Background).
Proof. intros w b. unfold call. cbn. destruct (op false (env w)). reflexivity. Qed.

Lemma oblivious_bind {A B} (m : M A) (k : A -> M B) :
  oblivious m -> (forall a, oblivious (k a)) -> oblivious (bind m k).
Proof.
  intros Hm Hk w b. unfold bind. rewrite Hm.
  destruct (m w) as [[r w1] t1]. destruct r as [a|msg]; [|reflexivity].
  rewrite Hk. destruct (k a w1) as [[r2 w2] t2]. reflexivity.
Qed.

Lemma oblivious_defer {A} (d : M unit) (m : M A) :
  oblivious m -> oblivious d -> oblivious (defer d m).
Proof.
  intros Hm Hd w b. unfold defer. rewrite Hm.
  destruct (m w) as [[r w1] t1]. rewrite Hd.
  destruct (d w1) as [[r2 w2] t2]. reflexivity.
Qed.

Lemma oblivious_rangeProjects {C} (lookup : ProjectInfo -> M (result (list C)))
    projects candidates :
  (forall project, oblivious (lookup project)) ->
  oblivious (rangeProjects lookup projects candidates).
Proof.
  intros Hl. revert candidates.
  induction projects as [|p ps IH]; intros candidates; cbn [rangeProjects].
  - apply oblivious_ret.
  - apply oblivious_bind; [apply Hl|].
    intros [infos|err]; [apply IH|apply oblivious_ret].
Qed.

Lemma oblivious_rangeDeactivate candidates n :
  oblivious (rangeDeactivate Background candidates n).
Proof.
  revert n.
  induction candidates as [|c cs IH]; intros n; cbn [rangeDeactivate].
  - apply oblivious_ret.
  - apply oblivious_bind; [apply oblivious_call|].
    intros [e|]; [apply oblivious_ret|apply IH].
Qed.

Lemma oblivious_topProjectID projects pfs : oblivious (topProjectID projects pfs).
Proof.
  unfold topProjectID, index.
  destruct (len projects <? pfs); [apply oblivious_ret|].
  apply oblivious_bind; [|intros; apply oblivious_ret].
  destruct (len projects - 1 <? 0); [apply oblivious_panic|].
  destruct (nth_error projects _); [apply oblivious_ret|apply oblivious_panic].
Qed.

Ltac oblivious_tac :=
  repeat first
    [ apply oblivious_ret | apply oblivious_panic | apply oblivious_topProjectID
    | apply oblivious_emit | apply oblivious_call
    | apply oblivious_rangeDeactivate
    | apply oblivious_rangeProjects; intros
    | apply oblivious_defer
    | apply oblivious_bind; [|intros]
    | match goal with
      | |- oblivious (match ?x with _ => _ end) => destruct x
      | |- oblivious (let '_ := ?x in _) => destruct x
      | |- oblivious (if ?x then _ else _) => destruct x
      end ].

Lemma oblivious_FindDeactivateCandidates limit pfs last :
  oblivious (FindDeactivateCandidates Background limit pfs last).
Proof.
  unfold FindDeactivateCandidates, database_FindNextNCyclingProjectInfos,
    database_FindDeactivateCandidatesPerProject.
  oblivious_tac.
Qed.

Lemma oblivious_deactivateCandidates h cur :
  oblivious (deactivateCandidates h Background cur).
Proof.
  unfold deactivateCandidates, deactivateCandidates_locked,
    coordinator_NewLocker, locker_Lock, unlockOrLog, locker_Unlock,
    logging_Error, logging_Infof, clients_Deactivate.
  oblivious_tac.
Qed.

Lemma oblivious_DeleteDocument h cur :
  oblivious (DeleteDocument h Background cur).
Proof.
  unfold DeleteDocument, DeleteDocument_locked,
    FindDocumentHardDeletionCandidates, coordinator_NewLocker, locker_Lock,
    unlockOrLog, locker_Unlock, logging_Error, logging_Infof,
    database_DeleteDocument, database_FindNextNCyclingProjectInfos,
    database_FindDocumentHardDeletionCandidatesPerProject.
  oblivious_tac.
Qed.

Lemma oblivious_sweepOf h g cur : oblivious (sweepOf h g Background cur).
Proof.
  destruct g; [apply oblivious_deactivateCandidates|apply oblivious_DeleteDocument].
Qed.

Lemma oblivious_loopBody sweep interval cur :
  oblivious (sweep Background cur) -> oblivious (loopBody sweep interval cur).
Proof.
  intros Hs. unfold loopBody, logging_Error. apply oblivious_bind; [exact Hs|].
  intros [c [e|]]; oblivious_tac.
Qed.

Lemma setCancelled_same w : setCancelled w (cancelled w) = w.
Proof. destruct w; reflexivity. Qed.

(** What does not read the signal does not write it either. *)
Lemma oblivious_keeps {A} (m : M A) w r w' t :
  oblivious m -> m w = (r, w', t) -> cancelled w' = cancelled w.
Proof.
  intros Hm H. specialize (Hm w (cancelled w)).
  rewrite setCancelled_same, H in Hm. inversion Hm as [Hw].
  rewrite Hw at 1. reflexivity.
Qed.

(** C4. In a pass of the client-deactivation loop over the batch
    [pre ++ c :: post], where the deactivations of [pre] succeed and that of
    [c] fails with [e]: the candidates of [pre] are deactivated one by one in
    order, then [c] is tried, and nothing is called for [post]; the sweep
    returns [e] at once; the store is left as these calls and the release of
    the lock made it, with nothing undone; and the loop keeps its cursor. *)
Theorem C4_partial_failure_no_rollback h cur (s : System W)
    l e1 e2 top pre c post wf tf e e4 :
  deactivateLoop s = AtSweep cur ->
  NewLocker false deactivateCandidatesKey (env (world s)) = (Ok l, e1) ->
  Lock false l e1 = (None, e2) ->
  FindDeactivateCandidates Background
    (clientDeactivationCandidateLimitPerProject h) (projectFetchSize h) cur
    (setEnv (world s) e2) = (Ret (top, pre ++ c :: post, None), wf, tf) ->
  allDeactivate false pre (env wf) = true ->
  Deactivate false (RefKey c) (afterDeactivations false pre (env wf))
    = (Fail e, e4) ->
  exists ue e5 s',
    Unlock false l e4 = (ue, e5) /\
    deactivateCandidates h Background cur (world s)
      = (Ret (DefaultProjectID, Some e), setEnv (world s) e5,
         [ENewLocker deactivateCandidatesKey (Ok l); ELock l None]
           ++ tf
           ++ (map EDeactivated pre ++ [EDeactivate (RefKey c) (Some e)])
           ++ unlockEvents l ue) /\
    exec h (Run GDeactivateCandidates) s = Some s' /\
    deactivateLoop s' = AtSweep cur /\
    env (world s') = e5.
Proof.
  intros Hc HN HL HF Hall Hfail.
  destruct (Unlock false l e4) as [ue e5] eqn:HU.
  pose proof (rangeDeactivate_fails Background pre c post 0 wf e e4 Hall Hfail)
    as HD.
  pose proof (oblivious_keeps _ _ _ _ _
                (oblivious_FindDeactivateCandidates _ _ _) HF) as Hcw.
  cbn in Hcw.
  assert (Hs : deactivateCandidates h Background cur (world s)
      = (Ret (DefaultProjectID, Some e), setEnv (world s) e5,
         [ENewLocker deactivateCandidatesKey (Ok l); ELock l None]
           ++ tf
           ++ (map EDeactivated pre ++ [EDeactivate (RefKey c) (Some e)])
           ++ unlockEvents l ue)).
  { unfold deactivateCandidates, coordinator_NewLocker, locker_Lock.
    unfold bind at 1. unfold call at 1. cbn [ctxDone]. rewrite HN.
    unfold bind at 1. unfold call at 1. cbn [ctxDone env setEnv]. rewrite HL.
    unfold defer, deactivateCandidates_locked. unfold bind at 1.
    change (setEnv (setEnv (world s) e1) e2) with (setEnv (world s) e2).
    rewrite HF. unfold bind at 1. rewrite HD.
    unfold unlockOrLog, locker_Unlock, bind, call, logging_Error, emit, ret.
    cbn [ctxDone env setEnv cancelled]. rewrite HU.
    unfold setEnv. rewrite Hcw.
    destruct ue; cbn; rewrite <- ?app_assoc; cbn; rewrite ?app_nil_r;
      reflexivity. }
  exists ue, e5.
  destruct (exec_Run h GDeactivateCandidates cur s _ _ _ Hc Hs)
    as (s' & He & Hw & _ & Hc' & _).
  exists s'. repeat split; auto. rewrite Hw. reflexivity.
Qed.

Lemma exec_keeps_cancelled h m (s s' : System W) :
  cancelled (world s) = true -> exec h m s = Some s' ->
  cancelled (world s') = true.
Proof.
  intros Hc He. destruct m as [g|g k|g|]; cbn in He.
  - destruct (controlOf g s) as [cur| | |]; try discriminate He.
    destruct (bodyOf h g cur (world s)) as [[r w1] t1] eqn:Hb.
    inversion He; subst. rewrite world_setControl. cbn.
    rewrite bodyOf_loopBody in Hb.
    rewrite (oblivious_keeps _ _ _ _ _
               (oblivious_loopBody _ _ _ (oblivious_sweepOf h g cur)) Hb).
    exact Hc.
  - destruct k, (controlOf g s) as [cur|cur d [|]| |]; try discriminate He;
      rewrite ?Hc in He; inversion He; subst; rewrite world_setControl;
      exact Hc.
  - destruct (controlOf g s) as [cur|cur d [|]| |]; try discriminate He.
    inversion He; subst; rewrite world_setControl; exact Hc.
  - inversion He; subst. reflexivity.
Qed.

Lemma exec_from_Returned h g m (s s' : System W) :
  controlOf g s = Returned -> exec h m s = Some s' ->
  controlOf g s' = Returned /\ m <> Run g /\ forall k, m <> Select g k.
Proof.
  intros Hc He. destruct m as [g0|g0 k0|g0|]; cbn in He.
  - destruct (controlOf g0 s) as [cur| | |] eqn:Hc0; try discriminate He.
    destruct (bodyOf h g0 cur (world s)) as [[r w1] t1].
    inversion He; subst.
    assert (Hne : g0 <> g) by (intros ->; congruence).
    rewrite (controlOf_setControl_other g0 g) by auto.
    repeat split; [destruct g; exact Hc|congruence|discriminate].
  - destruct g, g0, k0; cbn in *; rewrite ?Hc in He; try discriminate He;
      repeat match type of He with
        | context [match ?x with _ => _ end] => destruct x eqn:?
        end; try discriminate He; inversion He; subst; cbn;
      repeat split; auto; discriminate.
  - destruct g, g0; cbn in *; rewrite ?Hc in He; try discriminate He;
      repeat match type of He with
        | context [match ?x with _ => _ end] => destruct x eqn:?
        end; try discriminate He; inversion He; subst; cbn;
      repeat split; auto; discriminate.
  - inversion He; subst.
    repeat split; [destruct g; exact Hc|discriminate|discriminate].
Qed.

Lemma execs_from_Returned h g ms :
  forall (s s' : System W),
    controlOf g s = Returned -> execs h ms s = Some s' ->
    controlOf g s' = Returned /\
    ~ In (Run g) ms /\ forall k, ~ In (Select g k) ms.
Proof.
  induction ms as [|m ms IH]; intros s s' Hc He; cbn in He.
  - inversion He; subst. repeat split; auto.
  - destruct (exec h m s) as [s1|] eqn:E1; [|discriminate He].
    destruct (exec_from_Returned h g m s s1 Hc E1) as (Hc1 & Hr & Hk).
    destruct (IH s1 s' Hc1 He) as (Hc' & Hr' & Hk').
    repeat split; [exact Hc'| |].
    + intros [Heq|Hin]; [congruence|contradiction].
    + intros k [Heq|Hin]; [exact (Hk k Heq)|exact (Hk' k Hin)].
Qed.

Lemma Stop_then_Run h g (s : System W) :
  execs h [CallStop; Run g] s = execs h [Run g; CallStop] s.
Proof.
  cbn [execs]. cbn [exec].
  assert (Hsame : forall w0 : World W,
            snd (Stop w0) = setCancelled w0 true) by reflexivity.
  destruct g; cbn [controlOf deactivateLoop deletionLoop world trace].
  - destruct (deactivateLoop s) as [cur| | |]; try reflexivity.
    rewrite Hsame, bodyOf_loopBody.
    rewrite (oblivious_loopBody _ _ _
               (oblivious_sweepOf h GDeactivateCandidates cur)).
    destruct (loopBody _ _ cur (world s)) as [[r w1] t1]. reflexivity.
  - destruct (deletionLoop s) as [cur| | |]; try reflexivity.
    rewrite Hsame, bodyOf_loopBody.
    rewrite (oblivious_loopBody _ _ _
               (oblivious_sweepOf h GDocumentHardDeletion cur)).
    destruct (loopBody _ _ cur (world s)) as [[r w1] t1]. reflexivity.
Qed.

Lemma lifecycle_Stopped c : lifecycle c = Some Stopped <-> c = Returned.
Proof. destruct c; cbn; split; intros H; congruence. Qed.

(** C8 (amended). Each loop is [Running] or [Stopped]. [Stop] only sets the
    shared signal, which stays set. A loop that stands at its [select] with
    the signal set and its timer pending can only return; once [Stopped] it
    stays so and runs no sweep, whatever happens next. A loop leaves [Running]
    for [Stopped] only by the [Done] case of its [select]; a sweep never reads
    the signal, so calling [Stop] before a pass or after it gives the same
    pass. The [select] is reached only after a sweep without error: a pass
    whose sweep fails with the signal set is followed by another pass. *)
Theorem C8_stop_at_the_select h g (s : System W) :
  (exists s',
      exec h CallStop s = Some s' /\
      cancelled (world s') = true /\ env (world s') = env (world s) /\
      trace s' = trace s /\ forall g', controlOf g' s' = controlOf g' s)
  /\
  (forall m s',
      cancelled (world s) = true -> exec h m s = Some s' ->
      cancelled (world s') = true)
  /\
  (forall cur d,
      controlOf g s = AtSelect cur d false -> cancelled (world s) = true ->
      exec h (Select g CaseDone) s = Some (setControl g Returned s) /\
      exec h (Select g CaseTimeAfter) s = None /\
      exec h (Run g) s = None)
  /\
  (forall ms s',
      lifecycle (controlOf g s) = Some Stopped ->
      execs h ms s = Some s' ->
      lifecycle (controlOf g s') = Some Stopped /\
      ~ In (Run g) ms /\ forall k, ~ In (Select g k) ms)
  /\
  (forall m s',
      exec h m s = Some s' ->
      lifecycle (controlOf g s') = Some Stopped ->
      lifecycle (controlOf g s) <> Some Stopped ->
      m = Select g CaseDone /\ cancelled (world s) = true /\
      exists cur d f, controlOf g s = AtSelect cur d f)
  /\
  execs h [CallStop; Run g] s = execs h [Run g; CallStop] s
  /\
  (forall cur w b,
      sweepOf h g Background cur (setCancelled w b) =
      let '(r, w', t) := sweepOf h g Background cur w in
      (r, setCancelled w' b, t))
  /\
  (forall cur c e ws ts,
      cancelled (world s) = true ->
      controlOf g s = AtSweep cur ->
      sweepOf h g Background cur (world s) = (Ret (c, Some e), ws, ts) ->
      exists s',
        exec h (Run g) s = Some s' /\
        controlOf g s' = AtSweep cur /\
        exec h (Select g CaseDone) s' = None /\
        exists s'', exec h (Run g) s' = Some s'').
Proof.
  split; [|split; [|split; [|split; [|split; [|split; [|split]]]]]].
  - eexists. split; [reflexivity|]. cbn. repeat split; auto.
  - intros m s' Hc He. exact (exec_keeps_cancelled h m s s' Hc He).
  - intros cur d Hc Hcan. unfold exec. rewrite Hc. cbn. rewrite Hcan. auto.
  - intros ms s' Hl He. apply lifecycle_Stopped in Hl.
    destruct (execs_from_Returned h g ms s s' Hl He) as (Hc & Hr & Hk).
    rewrite Hc. auto.
  - intros m s' He Hl' Hl. apply lifecycle_Stopped in Hl'.
    assert (Hn : controlOf g s <> Returned).
    { intros Hr. apply Hl. rewrite Hr. reflexivity. }
    clear Hl. destruct m as [g0|g0 k0|g0|].
    + exfalso.
      destruct (controlOf g0 s) as [cur| | |] eqn:Hc0;
        try (unfold exec in He; rewrite Hc0 in He; discriminate He).
      destruct (sweepOf h g0 Background cur (world s)) as [[rs ws] ts] eqn:Hs.
      destruct (exec_Run h g0 cur s _ _ _ Hc0 Hs) as (s1 & He1 & _ & Ho & Hr).
      rewrite He in He1. inversion He1; subst s1. clear He1.
      assert (Hd : g = g0 \/ g <> g0) by (destruct g, g0; auto; right; discriminate).
      destruct Hd as [->|Hne].
      * destruct rs as [[c [e|]]|msg]; destruct Hr as (Hc1 & _); congruence.
      * rewrite (Ho g Hne) in Hl'. contradiction.
    + cbn in He. destruct g, g0, k0; cbn in *;
        repeat match type of He with
          | context [match ?x with _ => _ end] => destruct x eqn:?
          end; try discriminate He; inversion He; subst; cbn in *;
        try contradiction; try discriminate Hl';
        repeat split; eauto.
    + exfalso. cbn in He. destruct g, g0; cbn in *;
        repeat match type of He with
          | context [match ?x with _ => _ end] => destruct x eqn:?
          end; try discriminate He; inversion He; subst; cbn in *;
        try contradiction; discriminate Hl'.
    + exfalso. cbn in He. inversion He; subst.
      destruct g; cbn in *; contradiction.
  - apply Stop_then_Run.
  - intros cur w b. apply oblivious_sweepOf.
  - intros cur c e ws ts _ Hc Hs.
    destruct (exec_Run h g cur s _ _ _ Hc Hs) as (s' & He & _ & _ & Hc' & _).
    exists s'. repeat split; auto.
    + unfold exec. rewrite Hc'. reflexivity.
    + unfold exec. rewrite Hc'.
      destruct (bodyOf h g cur (world s')) as [[r w1] t1]. eauto.
Qed.

(** * Further properties of the package *)

(** ** Reads of the store that fail, and the panic of the finders *)

Lemma rangeProjects_inv {C} (op : ProjectInfo -> bool -> W -> result (list C) * W)
    (ev : ProjectInfo -> result (list C) -> Event) ctx projects :
  forall acc w r w' t,
    rangeProjects (fun p => call (op p) (ev p) ctx) projects acc w = (r, w', t) ->
    (exists results,
        r = Ret (Ok (acc ++ concat results)) /\
        length results = length projects /\
        t = map (fun pr => ev (fst pr) (Ok (snd pr))) (combine projects results))
    \/ (exists pre p post results e,
        projects = pre ++ p :: post /\
        length results = length pre /\
        r = Ret (Fail e) /\
        t = map (fun pr => ev (fst pr) (Ok (snd pr))) (combine pre results)
              ++ [ev p (Fail e)]).
Proof.
  induction projects as [|p ps IH]; intros acc w r w' t H.
  - cbn in H. inversion H; subst. left. exists []. cbn.
    rewrite app_nil_r. auto.
  - cbn [rangeProjects] in H. unfold bind, call in H.
    destruct (op p _ _) as [[infos|err] e1].
    + destruct (rangeProjects _ ps (acc ++ infos) (setEnv w e1))
        as [[r2 w2] t2] eqn:E2.
      apply IH in E2.
      destruct E2 as [(results & -> & Hlen & ->)
                     |(pre & q & post & results & e & -> & Hlen & -> & ->)];
        inversion H; subst.
      * left. exists (infos :: results). cbn. rewrite Hlen, app_assoc. auto.
      * right. exists (p :: pre), q, post, (infos :: results), e. cbn.
        rewrite Hlen. auto.
    + cbn in H. inversion H; subst. right.
      exists [], p, ps, [], err. cbn. auto.
Qed.

Lemma noReadError_lookups {C} (ev : ProjectInfo -> result (list C) -> Event)
    projects results :
  (forall p r, readError (ev p (Ok r)) = None) ->
  Forall (fun x => readError x = None)
    (map (fun pr => ev (fst pr) (Ok (snd pr))) (combine projects results)).
Proof. intros Hev. apply Forall_map, Forall_forall. intros [p r] _. apply Hev. Qed.

(** How a finder leaves: with a batch and no failed read; with the error of
    the one failed read, which is its last call; or by the panic on an empty
    page that is not shorter than the page size. *)
Lemma FindDeactivateCandidates_cases ctx limit pfs last w r w' t :
  FindDeactivateCandidates ctx limit pfs last w = (r, w', t) ->
  (exists top candidates,
      r = Ret (top, candidates, None) /\
      Forall (fun x => readError x = None) t)
  \/ (exists e t1 x,
      r = Ret (DefaultProjectID, [], Some e) /\
      t = t1 ++ [x] /\ readError x = Some e /\
      Forall (fun x => readError x = None) t1)
  \/ (exists msg e1,
      r = Panic msg /\ pfs <= 0 /\
      FindNextNCyclingProjectInfos (ctxDone ctx (cancelled w)) pfs last (env w)
        = (Ok [], e1) /\
      w' = setEnv w e1 /\
      t = [EFindNextNCyclingProjectInfos pfs last (Ok [])]).
Proof.
  intros H.
  unfold FindDeactivateCandidates, database_FindNextNCyclingProjectInfos in H.
  unfold bind at 1 in H. unfold call at 1 in H.
  destruct (FindNextNCyclingProjectInfos _ pfs last (env w))
    as [[projects|err] e1] eqn:EL.
  - unfold bind at 1 in H.
    destruct (rangeProjects _ projects [] (setEnv w e1)) as [[r2 w2] t2] eqn:E2.
    pose proof E2 as E2'.
    apply (rangeProjects_inv
             (fun p d => FindDeactivateCandidatesPerProject d p limit)
             (fun p => EFindDeactivateCandidatesPerProject p limit)) in E2.
    destruct E2 as [(results & -> & Hlen & ->)
                   |(pre & q & post & results & e & -> & Hlen & -> & ->)].
    + unfold bind in H.
      destruct (topProjectID projects pfs w2) as [[r3 w3] t3] eqn:E3.
      apply topProjectID_inv in E3. destruct E3 as (-> & -> & Htop).
      destruct Htop as [[Hlt ->]|[Hge [(init & p & -> & ->)|[-> [msg ->]]]]];
        inversion H; subst.
      * left. do 2 eexists. split; [reflexivity|].
        constructor; [reflexivity|]. rewrite app_nil_r.
        apply (noReadError_lookups
                 (fun p => EFindDeactivateCandidatesPerProject p limit)).
        reflexivity.
      * left. do 2 eexists. split; [reflexivity|].
        constructor; [reflexivity|]. rewrite app_nil_r.
        apply (noReadError_lookups
                 (fun p => EFindDeactivateCandidatesPerProject p limit)).
        reflexivity.
      * right; right. exists msg, e1. cbn in Hge. destruct results; [|discriminate].
        cbn in E2'. inversion E2'; subst. cbn. repeat split; auto.
    + cbn in H. inversion H; subst. right; left.
      exists e,
        (EFindNextNCyclingProjectInfos pfs last (Ok (pre ++ q :: post))
           :: map (fun pr => EFindDeactivateCandidatesPerProject (fst pr) limit
                               (Ok (snd pr))) (combine pre results)),
        (EFindDeactivateCandidatesPerProject q limit (Fail e)).
      repeat split.
      * cbn. rewrite app_nil_r. reflexivity.
      * constructor; [reflexivity|]. apply (noReadError_lookups
                 (fun p => EFindDeactivateCandidatesPerProject p limit)).
        reflexivity.
  - cbn in H. inversion H; subst. right; left.
    exists err, [], (EFindNextNCyclingProjectInfos pfs last (Fail err)).
    repeat split; auto.
Qed.

Lemma FindDocumentHardDeletionCandidates_cases ctx limit pfs grace last w r w' t :
  FindDocumentHardDeletionCandidates ctx limit pfs grace last w = (r, w', t) ->
  (exists top candidates,
      r = Ret (top, candidates, None) /\
      Forall (fun x => readError x = None) t)
  \/ (exists e t1 x,
      r = Ret (DefaultProjectID, [], Some e) /\
      t = t1 ++ [x] /\ readError x = Some e /\
      Forall (fun x => readError x = None) t1)
  \/ (exists msg e1,
      r = Panic msg /\ pfs <= 0 /\
      FindNextNCyclingProjectInfos (ctxDone ctx (cancelled w)) pfs last (env w)
        = (Ok [], e1) /\
      w' = setEnv w e1 /\
      t = [EFindNextNCyclingProjectInfos pfs last (Ok [])]).
Proof.
  intros H.
  unfold FindDocumentHardDeletionCandidates,
    database_FindNextNCyclingProjectInfos in H.
  unfold bind at 1 in H. unfold call at 1 in H.
  destruct (FindNextNCyclingProjectInfos _ pfs last (env w))
    as [[projects|err] e1] eqn:EL.
  - unfold bind at 1 in H.
    destruct (rangeProjects _ projects [] (setEnv w e1)) as [[r2 w2] t2] eqn:E2.
    pose proof E2 as E2'.
    apply (rangeProjects_inv
             (fun p d => FindDocumentHardDeletionCandidatesPerProject d p limit
                           grace)
             (fun p => EFindDocumentHardDeletionCandidatesPerProject p limit
                         grace)) in E2.
    destruct E2 as [(results & -> & Hlen & ->)
                   |(pre & q & post & results & e & -> & Hlen & -> & ->)].
    + unfold bind in H.
      destruct (topProjectID projects pfs w2) as [[r3 w3] t3] eqn:E3.
      apply topProjectID_inv in E3. destruct E3 as (-> & -> & Htop).
      destruct Htop as [[Hlt ->]|[Hge [(init & p & -> & ->)|[-> [msg ->]]]]];
        inversion H; subst.
      * left. do 2 eexists. split; [reflexivity|].
        constructor; [reflexivity|]. rewrite app_nil_r.
        apply (noReadError_lookups
                 (fun p => EFindDocumentHardDeletionCandidatesPerProject p limit
                             grace)).
        reflexivity.
      * left. do 2 eexists. split; [reflexivity|].
        constructor; [reflexivity|]. rewrite app_nil_r.
        apply (noReadError_lookups
                 (fun p => EFindDocumentHardDeletionCandidatesPerProject p limit
                             grace)).
        reflexivity.
      * right; right. exists msg, e1. cbn in Hge. destruct results; [|discriminate].
        cbn in E2'. inversion E2'; subst. cbn. repeat split; auto.
    + cbn in H. inversion H; subst. right; left.
      exists e,
        (EFindNextNCyclingProjectInfos pfs last (Ok (pre ++ q :: post))
           :: map (fun pr => EFindDocumentHardDeletionCandidatesPerProject
                               (fst pr) limit grace (Ok (snd pr)))
                (combine pre results)),
        (EFindDocumentHardDeletionCandidatesPerProject q limit grace (Fail e)).
      repeat split.
      * cbn. rewrite app_nil_r. reflexivity.
      * constructor; [reflexivity|]. apply (noReadError_lookups
                 (fun p => EFindDocumentHardDeletionCandidatesPerProject p limit
                             grace)).
        reflexivity.
  - cbn in H. inversion H; subst. right; left.
    exists err, [], (EFindNextNCyclingProjectInfos pfs last (Fail err)).
    repeat split; auto.
Qed.

Lemma FindDocumentHardDeletionCandidates_no_action ctx limit pfs grace last :
  emits (fun ev => isAction ev = false)
        (FindDocumentHardDeletionCandidates ctx limit pfs grace last).
Proof.
  unfold FindDocumentHardDeletionCandidates,
    database_FindNextNCyclingProjectInfos,
    database_FindDocumentHardDeletionCandidatesPerProject.
  emits_tac; reflexivity.
Qed.

Lemma FindDeactivateCandidates_no_isAction ctx limit pfs last :
  emits (fun ev => isAction ev = false)
        (FindDeactivateCandidates ctx limit pfs last).
Proof.
  unfold FindDeactivateCandidates, database_FindNextNCyclingProjectInfos,
    database_FindDeactivateCandidatesPerProject.
  emits_tac; reflexivity.
Qed.

Lemma isAction_isDeleteDocument t :
  Forall (fun ev => isAction ev = false) t ->
  Forall (fun ev => isDeleteDocument ev = false) t.
Proof. apply Forall_impl. intros [] H; cbn in *; congruence. Qed.

Lemma filter_unlockEvents (f : Event -> bool) l ue :
  (forall a b, f (EUnlock a b) = false) -> (forall e, f (ELogError e) = false) ->
  filter f (unlockEvents l ue) = [].
Proof. intros H1 H2. destruct ue; cbn; rewrite ?H1, ?H2; reflexivity. Qed.

(** X1. When [DeleteDocument] returns a nil error, it created its locker,
    acquired the lock and found a batch; the store's [DeleteDocument] was then
    called exactly once, on the store the finder left and with the whole
    batch (also when the batch is empty), and answered with a count; the
    store is left as that call and then the release of the lock made it. The
    cursor returned is the finder's; the log line, written when the batch is
    not empty, carries the size of the batch and the count the store
    returned. Every event of the sweep is the answer of the collaborator it
    names. *)
Theorem X1_DeleteDocument_success h ctx cur w c w' t :
  DeleteDocument h ctx cur w = (Ret (c, None), w', t) ->
  exists l e1 e2 candidates wf tf n e4 ue e5,
    NewLocker (ctxDone ctx (cancelled w)) documentHardDeletionLockKey (env w)
      = (Ok l, e1) /\
    Lock (ctxDone ctx (cancelled w)) l e1 = (None, e2) /\
    FindDocumentHardDeletionCandidates ctx
      (DocumentHardDeletionCandidateLimitPerProject h) (projectFetchSize h)
      (documentHardDeletionGracefulPeriod h) cur (setEnv w e2)
      = (Ret (c, candidates, None), wf, tf) /\
    db_DeleteDocument (ctxDone ctx (cancelled wf)) candidates (env wf)
      = (Ok n, e4) /\
    Unlock (ctxDone ctx (cancelled wf)) l e4 = (ue, e5) /\
    w' = setEnv wf e5 /\
    t = [ENewLocker documentHardDeletionLockKey (Ok l); ELock l None]
          ++ tf
          ++ EDeleteDocument candidates (Ok n)
             :: (if 0 <? len candidates
                 then [ELogInfof "HSKP: candidates %d, hard deleted %d, %s"
                         (len candidates) n]
                 else [])
          ++ unlockEvents l ue /\
    filter isDeleteDocument t = [EDeleteDocument candidates (Ok n)] /\
    answered (ctxDone ctx (cancelled w)) t (env w) (env w').
Proof.
  intros H.
  pose proof (recorded_DeleteDocument _ _ _ _ _ _ _ H) as (_ & Ha).
  apply DeleteDocument_inv in H.
  destruct H as [(e0 & e1 & _ & Hr & _)|[(l & e1 & e0 & e2 & _ & _ & Hr & _)
    |(l & e1 & e2 & wb & tb & ue & e3 & HN & HL & Hb & HU & Hw' & Ht)]];
    try discriminate Hr.
  apply DeleteDocument_locked_inv in Hb.
  destruct Hb as (rf & wf & tf & HF & Hb).
  destruct rf as [[[top candidates] [e0|]]|msg];
    [destruct Hb as (Hr & _); discriminate Hr| |destruct Hb as (Hr & _);
     discriminate Hr].
  destruct Hb as (rd & e4 & HD & Hw & Hb).
  destruct rd as [n|e0]; [|destruct Hb as (Hr & _); discriminate Hr].
  destruct Hb as (Hr & Htb). inversion Hr; subst top. clear Hr.
  subst wb. cbn [env cancelled setEnv] in HU.
  exists l, e1, e2, candidates, wf, tf, n, e4, ue, e3.
  split; [exact HN|]. split; [exact HL|]. split; [exact HF|].
  split; [exact HD|]. split; [exact HU|]. split; [exact Hw'|].
  assert (Ht' : t = [ENewLocker documentHardDeletionLockKey (Ok l); ELock l None]
          ++ tf
          ++ EDeleteDocument candidates (Ok n)
             :: (if 0 <? len candidates
                 then [ELogInfof "HSKP: candidates %d, hard deleted %d, %s"
                         (len candidates) n]
                 else [])
          ++ unlockEvents l ue).
  { rewrite Ht, Htb. rewrite <- !app_assoc. reflexivity. }
  split; [exact Ht'|]. split; [|exact Ha].
  rewrite Ht'. cbn [app filter isDeleteDocument]. rewrite !filter_app.
  rewrite (filter_none _ tf
             (isAction_isDeleteDocument _
                (FindDocumentHardDeletionCandidates_no_action _ _ _ _ _ _ _ _ _ HF))).
  cbn [app filter isDeleteDocument].
  rewrite filter_app, filter_unlockEvents by reflexivity.
  destruct (0 <? len candidates); reflexivity.
Qed.

Lemma noReadError_unlockEvents l ue x :
  In x (unlockEvents l ue) -> readError x = None.
Proof. destruct ue; cbn; intuition (subst; reflexivity). Qed.

Lemma rangeDeactivate_noReadError ctx candidates n :
  emits (fun ev => readError ev = None) (rangeDeactivate ctx candidates n).
Proof. apply emits_rangeDeactivate. reflexivity. Qed.

(** X2. In a run of either sweep, when a read of the store fails (the
    project listing or a per-project lookup), the sweep returns that error
    with the sentinel, and has called no action on the store: no
    [clients.Deactivate], no [DeleteDocument]. *)
Theorem X2_read_error_no_action h ctx cur w :
  (forall r w' t x e,
      deactivateCandidates h ctx cur w = (r, w', t) ->
      In x t -> readError x = Some e ->
      r = Ret (DefaultProjectID, Some e) /\ filter isAction t = [])
  /\
  (forall r w' t x e,
      DeleteDocument h ctx cur w = (r, w', t) ->
      In x t -> readError x = Some e ->
      r = Ret (DefaultProjectID, Some e) /\ filter isAction t = []).
Proof.
  split; intros r w' t x e H Hin Hx.
  - apply deactivateCandidates_inv in H.
    destruct H as [(e0 & e1 & _ & _ & _ & Ht)|[(l & e1 & e0 & e2 & _ & _ & _ & _ & Ht)
      |(l & e1 & e2 & wb & tb & ue & e3 & _ & _ & Hb & _ & _ & Ht)]];
      subst t.
    + cbn in Hin. destruct Hin as [<-|[]]. discriminate Hx.
    + cbn in Hin. destruct Hin as [<-|[<-|[]]]; discriminate Hx.
    + assert (Hin' : In x tb).
      { cbn in Hin. destruct Hin as [<-|[<-|Hin]]; try discriminate Hx.
        apply in_app_or in Hin. destruct Hin as [Hin|Hin]; [exact Hin|].
        apply noReadError_unlockEvents in Hin. congruence. }
      clear Hin. apply deactivateCandidates_locked_inv in Hb.
      destruct Hb as (rf & wf & tf & HF & Hb).
      pose proof (FindDeactivateCandidates_no_isAction _ _ _ _ _ _ _ _ HF) as Hna.
      apply FindDeactivateCandidates_cases in HF.
      destruct HF as [(top & cs & -> & Hno)|[(e0 & t1 & x0 & -> & -> & Hx0 & Hno)
        |(msg & e4 & -> & _ & _ & _ & ->)]].
      * exfalso. destruct Hb as (rd & td & HD & Hb).
        assert (Hall : Forall (fun ev => readError ev = None) tb).
        { pose proof (rangeDeactivate_noReadError _ _ _ _ _ _ _ HD) as Hd.
          destruct rd; destruct Hb as (_ & ->).
          - apply Forall_app. split; [exact Hno|]. apply Forall_app.
            split; [exact Hd|]. destruct (0 <? len cs); repeat constructor.
          - apply Forall_app. split; assumption. }
        rewrite Forall_forall in Hall. specialize (Hall x Hin'). congruence.
      * destruct Hb as (-> & _ & ->).
        apply in_app_or in Hin'. destruct Hin' as [Hin'|[<-|[]]].
        -- rewrite Forall_forall in Hno. specialize (Hno x Hin'). congruence.
        -- rewrite Hx in Hx0. inversion Hx0; subst e0. split; [reflexivity|].
           cbn [app filter isAction]. rewrite filter_app.
           rewrite (filter_none _ _ Hna), filter_unlockEvents by reflexivity.
           reflexivity.
      * exfalso. destruct Hb as (_ & _ & ->).
        destruct Hin' as [<-|[]]. discriminate Hx.
  - apply DeleteDocument_inv in H.
    destruct H as [(e0 & e1 & _ & _ & _ & Ht)|[(l & e1 & e0 & e2 & _ & _ & _ & _ & Ht)
      |(l & e1 & e2 & wb & tb & ue & e3 & _ & _ & Hb & _ & _ & Ht)]];
      subst t.
    + cbn in Hin. destruct Hin as [<-|[]]. discriminate Hx.
    + cbn in Hin. destruct Hin as [<-|[<-|[]]]; discriminate Hx.
    + assert (Hin' : In x tb).
      { cbn in Hin. destruct Hin as [<-|[<-|Hin]]; try discriminate Hx.
        apply in_app_or in Hin. destruct Hin as [Hin|Hin]; [exact Hin|].
        apply noReadError_unlockEvents in Hin. congruence. }
      clear Hin. apply DeleteDocument_locked_inv in Hb.
      destruct Hb as (rf & wf & tf & HF & Hb).
      pose proof (FindDocumentHardDeletionCandidates_no_action
                    _ _ _ _ _ _ _ _ _ HF) as Hna.
      apply FindDocumentHardDeletionCandidates_cases in HF.
      destruct HF as [(top & cs & -> & Hno)|[(e0 & t1 & x0 & -> & -> & Hx0 & Hno)
        |(msg & e4 & -> & _ & _ & _ & ->)]].
      * exfalso. destruct Hb as (rd & e5 & HD & _ & Hb).
        assert (Hall : Forall (fun ev => readError ev = None) tb).
        { destruct rd; destruct Hb as (_ & ->).
          - apply Forall_app. split; [exact Hno|].
            constructor; [reflexivity|].
            destruct (0 <? len cs); repeat constructor.
          - apply Forall_app. split; [exact Hno|]. repeat constructor. }
        rewrite Forall_forall in Hall. specialize (Hall x Hin'). congruence.
      * destruct Hb as (-> & _ & ->).
        apply in_app_or in Hin'. destruct Hin' as [Hin'|[<-|[]]].
        -- rewrite Forall_forall in Hno. specialize (Hno x Hin'). congruence.
        -- rewrite Hx in Hx0. inversion Hx0; subst e0. split; [reflexivity|].
           cbn [app filter isAction]. rewrite filter_app.
           rewrite (filter_none _ _ Hna), filter_unlockEvents by reflexivity.
           reflexivity.
      * exfalso. destruct Hb as (_ & _ & ->).
        destruct Hin' as [<-|[]]. discriminate Hx.
Qed.

(** ** Invariants of the running service *)

(** A move either is a pass of a loop, which runs its sweep and appends its
    events, or leaves the trace and the store alone. *)
Lemma exec_cases h m (s s' : System W) :
  exec h m s = Some s' ->
  (exists g cur rs ws ts,
      m = Run g /\ controlOf g s = AtSweep cur /\
      sweepOf h g Background cur (world s) = (rs, ws, ts) /\
      world s' = ws /\
      (forall g', g' <> g -> controlOf g' s' = controlOf g' s) /\
      match rs with
      | Ret (c, Some e) =>
          controlOf g s' = AtSweep cur /\ trace s' = trace s ++ ts ++ [ELogError e]
      | Ret (c, None) =>
          controlOf g s' = AtSelect c (intervalOf h g) false /\
          trace s' = trace s ++ ts ++ [ESelect (intervalOf h g)]
      | Panic msg => controlOf g s' = Panicked msg /\ trace s' = trace s ++ ts
      end)
  \/ (trace s' = trace s /\ env (world s') = env (world s) /\
      (forall g, controlOf g s' = Returned
                 \/ cursorOf (controlOf g s') = cursorOf (controlOf g s)) /\
      (forall g, isPanicked (controlOf g s') = isPanicked (controlOf g s)) /\
      (forall g, controlOf g s = Returned -> controlOf g s' = Returned)).
Proof.
  intros He. destruct m as [g|g k|g|].
  - left. destruct (controlOf g s) as [cur| | |] eqn:Hc;
      try (unfold exec in He; rewrite Hc in He; discriminate He).
    destruct (sweepOf h g Background cur (world s)) as [[rs ws] ts] eqn:Hs.
    destruct (exec_Run h g cur s _ _ _ Hc Hs) as (s1 & He1 & Hw & Ho & Hr).
    rewrite He in He1. inversion He1; subst s1.
    exists g, cur, rs, ws, ts. repeat split; auto.
  - right. cbn in He.
    destruct g, k; cbn in He;
      repeat match type of He with
        | context [match ?x with _ => _ end] => destruct x eqn:?
        end; try discriminate He; inversion He; subst; cbn;
      repeat split; auto; intros []; cbn;
      repeat match goal with
        | E : deactivateLoop _ = _ |- _ => rewrite E; clear E
        | E : deletionLoop _ = _ |- _ => rewrite E; clear E
        end; cbn; auto; try discriminate.
  - right. cbn in He.
    destruct g; cbn in He;
      repeat match type of He with
        | context [match ?x with _ => _ end] => destruct x eqn:?
        end; try discriminate He; inversion He; subst; cbn;
      repeat split; auto; intros []; cbn;
      repeat match goal with
        | E : deactivateLoop _ = _ |- _ => rewrite E; clear E
        | E : deletionLoop _ = _ |- _ => rewrite E; clear E
        end; cbn; auto; try discriminate.
  - right. cbn in He. inversion He; subst; cbn.
    repeat split; auto; intros []; cbn; auto.
Qed.

Lemma execs_invariant h (I : System W -> Prop) :
  (forall m s s', I s -> exec h m s = Some s' -> I s') ->
  forall ms s s', I s -> execs h ms s = Some s' -> I s'.
Proof.
  intros Hstep. induction ms as [|m ms IH]; intros s s' HI He; cbn in He.
  - inversion He; subst. exact HI.
  - destruct (exec h m s) as [s1|] eqn:E1; [|discriminate He].
    eapply IH; [|exact He]. eapply Hstep; eauto.
Qed.

Lemma goroutine_eq_dec (g g' : Goroutine) : g = g' \/ g <> g'.
Proof. destruct g, g'; auto; right; discriminate. Qed.

Lemma listedLast_app_l c t1 t2 : listedLast c t1 -> listedLast c (t1 ++ t2).
Proof.
  intros (n & last & init & p & Hin & ->). exists n, last, init, p.
  split; [apply in_or_app; auto|reflexivity].
Qed.

Lemma listedLast_app_r c t1 t2 : listedLast c t2 -> listedLast c (t1 ++ t2).
Proof.
  intros (n & last & init & p & Hin & ->). exists n, last, init, p.
  split; [apply in_or_app; auto|reflexivity].
Qed.

Lemma sweepOf_success_cursor h g ctx cur w c w' t :
  sweepOf h g ctx cur w = (Ret (c, None), w', t) ->
  c = DefaultProjectID \/ listedLast c t.
Proof.
  intros H. destruct g; cbn in H.
  - apply deactivateCandidates_inv in H.
    destruct H as [(e0 & e1 & _ & Hr & _)|[(l & e1 & e0 & e2 & _ & _ & Hr & _)
      |(l & e1 & e2 & wb & tb & ue & e3 & _ & _ & Hb & _ & _ & Ht)]];
      try discriminate Hr.
    apply deactivateCandidates_locked_inv in Hb.
    destruct Hb as (rf & wf & tf & HF & Hb).
    destruct rf as [[[top cs] [e0|]]|msg];
      [destruct Hb as (Hr & _); discriminate Hr| |destruct Hb as (Hr & _);
       discriminate Hr].
    destruct Hb as (rd & td & _ & Hb).
    destruct rd as [n|e0]; [|destruct Hb as (Hr & _); discriminate Hr].
    destruct Hb as (Hr & ->). inversion Hr; subst top.
    apply FindDeactivateCandidates_ok in HF.
    destruct HF as (projects & e4 & results & _ & _ & _ & -> & Htop).
    destruct Htop as [[_ ->]|[_ (init & p & -> & ->)]]; [auto|right].
    subst t. apply listedLast_app_r, listedLast_app_l.
    exists (projectFetchSize h), cur, init, p. split; [left|]; reflexivity.
  - apply DeleteDocument_inv in H.
    destruct H as [(e0 & e1 & _ & Hr & _)|[(l & e1 & e0 & e2 & _ & _ & Hr & _)
      |(l & e1 & e2 & wb & tb & ue & e3 & _ & _ & Hb & _ & _ & Ht)]];
      try discriminate Hr.
    apply DeleteDocument_locked_inv in Hb.
    destruct Hb as (rf & wf & tf & HF & Hb).
    destruct rf as [[[top cs] [e0|]]|msg];
      [destruct Hb as (Hr & _); discriminate Hr| |destruct Hb as (Hr & _);
       discriminate Hr].
    destruct Hb as (rd & e5 & _ & _ & Hb).
    destruct rd as [n|e0]; [|destruct Hb as (Hr & _); discriminate Hr].
    destruct Hb as (Hr & ->). inversion Hr; subst top.
    apply FindDocumentHardDeletionCandidates_ok in HF.
    destruct HF as (projects & e4 & results & _ & _ & _ & -> & Htop).
    destruct Htop as [[_ ->]|[_ (init & p & -> & ->)]]; [auto|right].
    subst t. apply listedLast_app_r, listedLast_app_l.
    exists (projectFetchSize h), cur, init, p. split; [left|]; reflexivity.
Qed.

(** X6. In every state the service reaches from [Start], the cursor a loop
    holds is the sentinel or the ID of the last project of a page that the
    store returned to a listing of this service. *)
Theorem X6_cursor_is_sentinel_or_listed h (e : W) ms s g c :
  execs h ms (Start e) = Some s ->
  cursorOf (controlOf g s) = Some c ->
  c = DefaultProjectID \/ listedLast c (trace s).
Proof.
  intros He. revert g c.
  apply (execs_invariant h
           (fun s => forall g c, cursorOf (controlOf g s) = Some c ->
                                 c = DefaultProjectID \/ listedLast c (trace s)))
    with (ms := ms) (s := Start e); [| |exact He].
  - clear. intros m s s' HI Hex g c Hc. apply exec_cases in Hex.
    destruct Hex as [(g1 & cur & rs & ws & ts & _ & Hc1 & Hs & _ & Ho & Hr)
                    |(Ht & _ & Hcur & _)].
    + assert (Hold : forall g0 c0, cursorOf (controlOf g0 s) = Some c0 ->
                  forall t', trace s' = trace s ++ t' ->
                  c0 = DefaultProjectID \/ listedLast c0 (trace s')).
      { intros g0 c0 H0 t' Ht'. destruct (HI g0 c0 H0) as [->|Hl]; [auto|].
        right. rewrite Ht'. apply listedLast_app_l. exact Hl. }
      destruct (goroutine_eq_dec g g1) as [->|Hne].
      * destruct rs as [[c0 [e0|]]|msg]; destruct Hr as (Hc' & Ht');
          rewrite Hc' in Hc; cbn in Hc; try discriminate Hc.
        -- inversion Hc; subst c.
           eapply (Hold g1 cur); [rewrite Hc1; reflexivity|exact Ht'].
        -- inversion Hc; subst c0.
           destruct (sweepOf_success_cursor _ _ _ _ _ _ _ _ Hs) as [->|Hl];
             [auto|]. right. rewrite Ht'.
           apply listedLast_app_r, listedLast_app_l. exact Hl.
      * rewrite (Ho g Hne) in Hc.
        destruct rs as [[c0 [e0|]]|msg]; destruct Hr as (_ & Ht');
          apply (Hold g c Hc) in Ht'; exact Ht'.
    + rewrite Ht. destruct (Hcur g) as [Hr|Hsame].
      * rewrite Hr in Hc. discriminate Hc.
      * rewrite Hsame in Hc. apply HI in Hc. exact Hc.
  - intros [] c Hc; cbn in Hc; inversion Hc; auto.
Qed.

Lemma FindDeactivateCandidates_one_listing ctx limit pfs last w r w' t :
  FindDeactivateCandidates ctx limit pfs last w = (r, w', t) ->
  exists rl t2,
    t = EFindNextNCyclingProjectInfos pfs last rl :: t2 /\
    Forall (fun ev => isListing ev = false) t2.
Proof.
  intros H.
  unfold FindDeactivateCandidates, database_FindNextNCyclingProjectInfos in H.
  unfold bind at 1 in H. unfold call at 1 in H.
  destruct (FindNextNCyclingProjectInfos _ pfs last (env w))
    as [[projects|err] e1] eqn:EL.
  - match type of H with
    | (match ?X with _ => _ end) = _ => destruct X as [[r2 w2] t2] eqn:E2
    end.
    inversion H; subst. exists (Ok projects), t2. split; [reflexivity|].
    eapply (emits_bind (fun ev => isListing ev = false)) in E2; [exact E2| |].
    + unfold database_FindDeactivateCandidatesPerProject. emits_tac. reflexivity.
    + intros a. emits_tac.
  - cbn in H. inversion H; subst. exists (Fail err), []. auto.
Qed.

Lemma FindDocumentHardDeletionCandidates_one_listing ctx limit pfs grace last
    w r w' t :
  FindDocumentHardDeletionCandidates ctx limit pfs grace last w = (r, w', t) ->
  exists rl t2,
    t = EFindNextNCyclingProjectInfos pfs last rl :: t2 /\
    Forall (fun ev => isListing ev = false) t2.
Proof.
  intros H.
  unfold FindDocumentHardDeletionCandidates,
    database_FindNextNCyclingProjectInfos in H.
  unfold bind at 1 in H. unfold call at 1 in H.
  destruct (FindNextNCyclingProjectInfos _ pfs last (env w))
    as [[projects|err] e1] eqn:EL.
  - match type of H with
    | (match ?X with _ => _ end) = _ => destruct X as [[r2 w2] t2] eqn:E2
    end.
    inversion H; subst. exists (Ok projects), t2. split; [reflexivity|].
    eapply (emits_bind (fun ev => isListing ev = false)) in E2; [exact E2| |].
    + unfold database_FindDocumentHardDeletionCandidatesPerProject.
      emits_tac. reflexivity.
    + intros a. emits_tac.
  - cbn in H. inversion H; subst. exists (Fail err), []. auto.
Qed.

Lemma sweepOf_listsFrom h g ctx cur :
  emits (listsFrom (projectFetchSize h) cur) (sweepOf h g ctx cur).
Proof.
  destruct g; cbn [sweepOf].
  - unfold deactivateCandidates, deactivateCandidates_locked,
      FindDeactivateCandidates, coordinator_NewLocker, locker_Lock,
      unlockOrLog, locker_Unlock, logging_Error,
      database_FindNextNCyclingProjectInfos,
      database_FindDeactivateCandidatesPerProject, logging_Infof.
    emits_tac; cbn; auto.
  - unfold DeleteDocument, DeleteDocument_locked,
      FindDocumentHardDeletionCandidates, coordinator_NewLocker, locker_Lock,
      unlockOrLog, locker_Unlock, logging_Error, database_DeleteDocument,
      database_FindNextNCyclingProjectInfos,
      database_FindDocumentHardDeletionCandidatesPerProject, logging_Infof.
    emits_tac; cbn; auto.
Qed.

Lemma sweepOf_listings h g ctx cur w r w' t :
  sweepOf h g ctx cur w = (r, w', t) ->
  (exists rk rest, t = ENewLocker (lockKeyOf g) rk :: rest) /\
  (length (filter isListing t) <= 1)%nat.
Proof.
  intros H.
  assert (Hbody : forall tb rl t2 l ue,
            tb = EFindNextNCyclingProjectInfos (projectFetchSize h) cur rl :: t2 ->
            Forall (fun ev => isListing ev = false) t2 ->
            forall tail, Forall (fun ev => isListing ev = false) tail ->
            (length (filter isListing
                       ([ENewLocker (lockKeyOf g) (Ok l); ELock l None]
                          ++ (tb ++ tail) ++ unlockEvents l ue)) <= 1)%nat).
  { intros tb rl t2 l ue -> H2 tail Htail. cbn [app filter isListing].
    rewrite !filter_app, (filter_none _ _ H2), (filter_none _ _ Htail).
    rewrite filter_unlockEvents by reflexivity. cbn. lia. }
  destruct g; cbn in H.
  - apply deactivateCandidates_inv in H.
    destruct H as [(e0 & e1 & _ & _ & _ & ->)
      |[(l & e1 & e0 & e2 & _ & _ & _ & _ & ->)
      |(l & e1 & e2 & wb & tb & ue & e3 & _ & _ & Hb & _ & _ & ->)]];
      (split; [cbn; eauto|]); try (cbn; lia).
    apply deactivateCandidates_locked_inv in Hb.
    destruct Hb as (rf & wf & tf & HF & Hb).
    pose proof (FindDeactivateCandidates_one_listing _ _ _ _ _ _ _ _ HF)
      as (rl & t2 & Htf & H2).
    destruct rf as [[[top cs] [e0|]]|msg].
    + destruct Hb as (_ & _ & ->). rewrite <- (app_nil_r tf).
      eapply Hbody; eauto.
    + destruct Hb as (rd & td & HD & Hb).
      pose proof (emits_rangeDeactivate (fun ev => isListing ev = false)
                    ctx cs 0 (fun _ _ => eq_refl) _ _ _ _ HD) as Hd.
      destruct rd; destruct Hb as (_ & ->); eapply Hbody; eauto.
      apply Forall_app. split; [exact Hd|].
      destruct (0 <? len cs); repeat constructor.
    + destruct Hb as (_ & _ & ->). rewrite <- (app_nil_r tf).
      eapply Hbody; eauto.
  - apply DeleteDocument_inv in H.
    destruct H as [(e0 & e1 & _ & _ & _ & ->)
      |[(l & e1 & e0 & e2 & _ & _ & _ & _ & ->)
      |(l & e1 & e2 & wb & tb & ue & e3 & _ & _ & Hb & _ & _ & ->)]];
      (split; [cbn; eauto|]); try (cbn; lia).
    apply DeleteDocument_locked_inv in Hb.
    destruct Hb as (rf & wf & tf & HF & Hb).
    pose proof (FindDocumentHardDeletionCandidates_one_listing
                  _ _ _ _ _ _ _ _ _ HF) as (rl & t2 & Htf & H2).
    destruct rf as [[[top cs] [e0|]]|msg].
    + destruct Hb as (_ & _ & ->). rewrite <- (app_nil_r tf).
      eapply Hbody; eauto.
    + destruct Hb as (rd & e5 & _ & _ & Hb).
      destruct rd; destruct Hb as (_ & ->); eapply Hbody; eauto;
        try (constructor; [reflexivity|]); try destruct (0 <? len cs);
        repeat constructor.
    + destruct Hb as (_ & _ & ->). rewrite <- (app_nil_r tf).
      eapply Hbody; eauto.
Qed.

(** X7. A pass of a loop first asks the coordinator for the locker of its
    own key, lists the projects at most once, and every listing it makes asks
    for [projectFetchSize] projects after the cursor the loop holds. *)
Theorem X7_pass_lists_from_cursor h g (s s' : System W) cur :
  controlOf g s = AtSweep cur ->
  exec h (Run g) s = Some s' ->
  exists t,
    trace s' = trace s ++ t /\
    (exists rk rest, t = ENewLocker (lockKeyOf g) rk :: rest) /\
    Forall (listsFrom (projectFetchSize h) cur) t /\
    (length (filter isListing t) <= 1)%nat.
Proof.
  intros Hc He.
  destruct (sweepOf h g Background cur (world s)) as [[rs ws] ts] eqn:Hs.
  destruct (exec_Run h g cur s _ _ _ Hc Hs) as (s1 & He1 & _ & _ & Hr).
  rewrite He in He1. inversion He1; subst s1. clear He1.
  pose proof (sweepOf_listsFrom h g Background cur _ _ _ _ Hs) as Hl.
  destruct (sweepOf_listings h g Background cur _ _ _ _ Hs)
    as ((rk & rest & Hfirst) & Hone).
  destruct rs as [[c [e0|]]|msg]; destruct Hr as (_ & Ht).
  - exists (ts ++ [ELogError e0]). split; [exact Ht|]. split; [|split].
    + rewrite Hfirst. cbn. eauto.
    + apply Forall_app. split; [exact Hl|]. repeat constructor.
    + rewrite filter_app. cbn. rewrite app_nil_r. exact Hone.
  - exists (ts ++ [ESelect (intervalOf h g)]). split; [exact Ht|].
    split; [|split].
    + rewrite Hfirst. cbn. eauto.
    + apply Forall_app. split; [exact Hl|]. repeat constructor.
    + rewrite filter_app. cbn. rewrite app_nil_r. exact Hone.
  - exists ts. split; [exact Ht|]. split; [|split]; eauto.
Qed.

(** X8. Once both loops have returned, the service makes no further call:
    whatever moves follow, the trace and the store stay as they are and
    both loops stay returned. *)
Theorem X8_stopped_service_is_silent h (s s' : System W) ms :
  (forall g, controlOf g s = Returned) ->
  execs h ms s = Some s' ->
  trace s' = trace s /\ env (world s') = env (world s) /\
  forall g, controlOf g s' = Returned.
Proof.
  intros Hall He.
  apply (execs_invariant h
           (fun x => trace x = trace s /\ env (world x) = env (world s) /\
                     forall g, controlOf g x = Returned))
    with (ms := ms) (s := s); [|auto|exact He].
  clear He. intros m s1 s2 (Ht & Hw & Hc) Hex. apply exec_cases in Hex.
  destruct Hex as [(g1 & cur & rs & ws & ts & _ & Hc1 & _)
                  |(Ht' & Hw' & _ & _ & Hret)].
  - rewrite (Hc g1) in Hc1. discriminate Hc1.
  - rewrite Ht', Hw'. repeat split; auto.
Qed.

(** ** Construction, and the page size that is not positive *)

(** X9. [New] fails only on a duration that does not parse, and reports
    the first such in the order [IntervalDeactivateCandidates],
    [IntervalDeleteDocuments], [DocumentHardDeletionGracefulPeriod], wrapped
    with the name and the text of the setting; when the three durations parse
    it succeeds whatever the limits and the page size are, and copies them
    unchanged. *)
Theorem X9_New_reports_first_bad_duration
    (ParseDuration : string -> result Duration) conf :
  (forall err,
      New ParseDuration conf = Fail err ->
      (exists e,
          ParseDuration (IntervalDeactivateCandidates conf) = Fail e /\
          err = Errorf "parse intervalDeactivateCandidates "
                  (IntervalDeactivateCandidates conf) e)
      \/ (exists v e,
          ParseDuration (IntervalDeactivateCandidates conf) = Ok v /\
          ParseDuration (IntervalDeleteDocuments conf) = Fail e /\
          err = Errorf "parse intervalDeleteDocuments "
                  (IntervalDeleteDocuments conf) e)
      \/ (exists v1 v2 e,
          ParseDuration (IntervalDeactivateCandidates conf) = Ok v1 /\
          ParseDuration (IntervalDeleteDocuments conf) = Ok v2 /\
          ParseDuration (DocumentHardDeletionGracefulPeriod conf) = Fail e /\
          err = Errorf "parse documentHardDeletionGracefulPeriod "
                  (DocumentHardDeletionGracefulPeriod conf) e))
  /\
  (forall v1 v2 v3,
      ParseDuration (IntervalDeactivateCandidates conf) = Ok v1 ->
      ParseDuration (IntervalDeleteDocuments conf) = Ok v2 ->
      ParseDuration (DocumentHardDeletionGracefulPeriod conf) = Ok v3 ->
      New ParseDuration conf =
        Ok {| intervalDeactivateCandidates := v1;
              intervalDeleteDocuments := v2;
              documentHardDeletionGracefulPeriod := v3;
              clientDeactivationCandidateLimitPerProject :=
                ClientDeactivationCandidateLimitPerProject conf;
              DocumentHardDeletionCandidateLimitPerProject :=
                Config_DocumentHardDeletionCandidateLimitPerProject conf;
              projectFetchSize := ProjectFetchSize conf |}).
Proof.
  split.
  - intros err H. unfold New in H.
    destruct (ParseDuration (IntervalDeactivateCandidates conf)) as [v1|e1];
      [|inversion H; eauto].
    destruct (ParseDuration (IntervalDeleteDocuments conf)) as [v2|e2];
      [|inversion H; right; left; eauto].
    destruct (ParseDuration (DocumentHardDeletionGracefulPeriod conf))
      as [v3|e3]; [discriminate H|].
    inversion H. right; right. exists v1, v2, e3. auto.
  - intros v1 v2 v3 H1 H2 H3. unfold New. rewrite H1, H2, H3. reflexivity.
Qed.

Lemma FindDeactivateCandidates_panics ctx limit pfs last w e1 :
  pfs <= 0 ->
  FindNextNCyclingProjectInfos (ctxDone ctx (cancelled w)) pfs last (env w)
    = (Ok [], e1) ->
  FindDeactivateCandidates ctx limit pfs last w
    = (Panic "index out of range", setEnv w e1,
       [EFindNextNCyclingProjectInfos pfs last (Ok [])]).
Proof.
  intros Hle HL.
  unfold FindDeactivateCandidates, database_FindNextNCyclingProjectInfos,
    bind, call. rewrite HL. cbn. unfold topProjectID, len, bind, index. cbn.
  destruct (0 <? pfs) eqn:E; [apply Z.ltb_lt in E; lia|]. reflexivity.
Qed.

Lemma FindDocumentHardDeletionCandidates_panics ctx limit pfs grace last w e1 :
  pfs <= 0 ->
  FindNextNCyclingProjectInfos (ctxDone ctx (cancelled w)) pfs last (env w)
    = (Ok [], e1) ->
  FindDocumentHardDeletionCandidates ctx limit pfs grace last w
    = (Panic "index out of range", setEnv w e1,
       [EFindNextNCyclingProjectInfos pfs last (Ok [])]).
Proof.
  intros Hle HL.
  unfold FindDocumentHardDeletionCandidates,
    database_FindNextNCyclingProjectInfos, bind, call. rewrite HL. cbn.
  unfold topProjectID, len, bind, index. cbn.
  destruct (0 <? pfs) eqn:E; [apply Z.ltb_lt in E; lia|]. reflexivity.
Qed.

(** X10. With a page size that is zero or negative, a pass that acquires
    its lock and gets an empty page from the listing ends in a panic: the
    deferred release of the lock still runs, no lookup and no action is made,
    nothing is logged by the loop, and the loop is dead. *)
Theorem X10_empty_page_with_no_page_size_panics h g (s : System W)
    cur l e1 e2 e3 :
  projectFetchSize h <= 0 ->
  controlOf g s = AtSweep cur ->
  NewLocker false (lockKeyOf g) (env (world s)) = (Ok l, e1) ->
  Lock false l e1 = (None, e2) ->
  FindNextNCyclingProjectInfos false (projectFetchSize h) cur e2 = (Ok [], e3) ->
  exists s' msg ue e4,
    exec h (Run g) s = Some s' /\
    controlOf g s' = Panicked msg /\
    Unlock false l e3 = (ue, e4) /\
    env (world s') = e4 /\
    trace s' = trace s
                 ++ [ENewLocker (lockKeyOf g) (Ok l); ELock l None;
                     EFindNextNCyclingProjectInfos (projectFetchSize h) cur (Ok [])]
                 ++ unlockEvents l ue.
Proof.
  intros Hle Hc HN HL HF.
  destruct (Unlock false l e3) as [ue e4] eqn:HU.
  assert (Hs : sweepOf h g Background cur (world s)
               = (Panic "index out of range", setEnv (world s) e4,
                  [ENewLocker (lockKeyOf g) (Ok l); ELock l None;
                   EFindNextNCyclingProjectInfos (projectFetchSize h) cur (Ok [])]
                    ++ unlockEvents l ue)).
  { destruct g; cbn [sweepOf lockKeyOf] in *.
    - unfold deactivateCandidates, coordinator_NewLocker, locker_Lock.
      unfold bind at 1. unfold call at 1. cbn [ctxDone]. rewrite HN.
      unfold bind at 1. unfold call at 1. cbn [ctxDone env setEnv]. rewrite HL.
      unfold defer, deactivateCandidates_locked. unfold bind at 1.
      change (setEnv (setEnv (world s) e1) e2) with (setEnv (world s) e2).
      rewrite (FindDeactivateCandidates_panics Background _ _ _
                 (setEnv (world s) e2) e3 Hle HF).
      unfold unlockOrLog, locker_Unlock, bind, call, logging_Error, emit, ret.
      cbn [ctxDone env setEnv cancelled]. rewrite HU.
      destruct ue; reflexivity.
    - unfold DeleteDocument, coordinator_NewLocker, locker_Lock.
      unfold bind at 1. unfold call at 1. cbn [ctxDone]. rewrite HN.
      unfold bind at 1. unfold call at 1. cbn [ctxDone env setEnv]. rewrite HL.
      unfold defer, DeleteDocument_locked. unfold bind at 1.
      change (setEnv (setEnv (world s) e1) e2) with (setEnv (world s) e2).
      rewrite (FindDocumentHardDeletionCandidates_panics Background _ _ _ _
                 (setEnv (world s) e2) e3 Hle HF).
      unfold unlockOrLog, locker_Unlock, bind, call, logging_Error, emit, ret.
      cbn [ctxDone env setEnv cancelled]. rewrite HU.
      destruct ue; reflexivity. }
  destruct (exec_Run h g cur s _ _ _ Hc Hs) as (s' & He & Hw & _ & Hc' & Ht).
  exists s', "index out of range", ue, e4.
  repeat split; auto. rewrite Hw. reflexivity.
Qed.

End Properties.

(** * The sweeps of package [clients] *)

Section ClientsProperties.

Context {W : Type} {DB : Database W} {CO : Coordinator W} {CL : Clients W}.

(** X11. [clients.DeactivateInactives], given the limit and the page size
    of a service, is the sweep [deactivateCandidates] of that service: the
    same result, the same final world and the same calls, on every world; and
    the two finders of package [clients] are the finders of the service. *)
Theorem X11_clients_sweep_is_the_method h ctx cur limit pfs grace last
    (w : World W) :
  clients.DeactivateInactives ctx
    (clientDeactivationCandidateLimitPerProject h) (projectFetchSize h) cur w
    = deactivateCandidates h ctx cur w
  /\ clients.FindDeactivateCandidates ctx limit pfs last w
      = FindDeactivateCandidates ctx limit pfs last w
  /\ clients.FindDocumentHardDeletionCandidates ctx limit pfs grace last w
      = FindDocumentHardDeletionCandidates ctx limit pfs grace last w.
Proof. repeat split. Qed.

(** X12. [clients.DeleteDocuments], given the limit, grace period and page
    size of a service, takes the lock of the key
    ["housekeeping/documentHardDeletionLock"], which is not the key of
    [Housekeeping.DeleteDocument]; without the lock it returns the
    coordinator's error and the sentinel after the coordinator calls alone;
    with it, it runs what [DeleteDocument] runs under its lock (so its
    arguments reach the finder in the finder's order) and then releases the
    lock. *)
Theorem X12_clients_DeleteDocuments h ctx cur (w : World W) r w' t :
  clients.DeleteDocuments ctx (DocumentHardDeletionCandidateLimitPerProject h)
    (documentHardDeletionGracefulPeriod h) (projectFetchSize h) cur w
    = (r, w', t) ->
  clients.DocumentHardDeletionLockKey <> documentHardDeletionLockKey
  /\
  let d := ctxDone ctx (cancelled w) in
  ((exists e e1,
      NewLocker d clients.DocumentHardDeletionLockKey (env w) = (Fail e, e1) /\
      r = Ret (DefaultProjectID, Some e) /\ w' = setEnv w e1 /\
      t = [ENewLocker clients.DocumentHardDeletionLockKey (Fail e)])
   \/ (exists l e1 e e2,
      NewLocker d clients.DocumentHardDeletionLockKey (env w) = (Ok l, e1) /\
      Lock d l e1 = (Some e, e2) /\
      r = Ret (DefaultProjectID, Some e) /\ w' = setEnv w e2 /\
      t = [ENewLocker clients.DocumentHardDeletionLockKey (Ok l);
           ELock l (Some e)])
   \/ (exists l e1 e2 wb tb ue e3,
      NewLocker d clients.DocumentHardDeletionLockKey (env w) = (Ok l, e1) /\
      Lock d l e1 = (None, e2) /\
      DeleteDocument_locked h ctx cur (setEnv w e2) = (r, wb, tb) /\
      Unlock (ctxDone ctx (cancelled wb)) l (env wb) = (ue, e3) /\
      w' = setEnv wb e3 /\
      t = [ENewLocker clients.DocumentHardDeletionLockKey (Ok l); ELock l None]
            ++ tb ++ unlockEvents l ue)).
Proof.
  intros H. split; [discriminate|]. intros d. subst d.
  unfold clients.DeleteDocuments in H.
  unfold bind at 1 in H. unfold coordinator_NewLocker, call at 1 in H.
  destruct (NewLocker _ _ (env w)) as [[l|e] e1] eqn:EN.
  - unfold bind at 1 in H. unfold locker_Lock, call at 1 in H.
    cbn [cancelled env setEnv] in H.
    destruct (Lock _ l e1) as [[e|] e2] eqn:EL.
    + cbn in H. inversion H; subst. right; left. exists l, e1, e, e2.
      repeat split; auto.
    + change (setEnv (setEnv w e1) e2) with (setEnv w e2) in H.
      unfold defer in H.
      change (bind (clients.FindDocumentHardDeletionCandidates ctx
                      (DocumentHardDeletionCandidateLimitPerProject h)
                      (projectFetchSize h)
                      (documentHardDeletionGracefulPeriod h) cur) _)
        with (DeleteDocument_locked h ctx cur) in H.
      destruct (DeleteDocument_locked h ctx cur (setEnv w e2))
        as [[rb wb] tb] eqn:Eb.
      unfold unlockOrLog, bind, locker_Unlock, logging_Error, emit, call, ret
        in H.
      destruct (Unlock (ctxDone ctx (cancelled wb)) l (env wb)) as [ue e3] eqn:Eu.
      right; right. exists l, e1, e2, wb, tb, ue, e3.
      destruct ue; cbn in H; inversion H; subst; repeat split; auto.
  - cbn in H. inversion H; subst. left. exists e, e1. repeat split; auto.
Qed.

End ClientsProperties.

(** * The revision of [src/unnamed/part_000] *)

Module part_000_facts.

Import part_000.

Section RevisionProperties.

Context {W : Type} {DB : Database W} {CO : Coordinator W} {CL : Clients W}.

(** ** The trace records the calls *)

Lemma answered0_app d t1 t2 (e e1 e2 : W) :
  answered d t1 e e1 -> answered d t2 e1 e2 -> answered d (t1 ++ t2) e e2.
Proof.
  revert e. induction t1 as [|ev t1 IH]; intros e H1 H2; cbn in *.
  - subst e1. exact H2.
  - destruct H1 as (e' & Hev & H1). exists e'. split; [exact Hev|].
    apply IH; assumption.
Qed.

Lemma recorded0_ret {A} ctx (a : A) : recorded ctx (ret a).
Proof. intros w r w' t H. inversion H; subst. split; reflexivity. Qed.

Lemma recorded0_emit ctx ev :
  (forall d e, answers d ev e e) -> recorded ctx (emit ev).
Proof.
  intros Hev w r w' t H. inversion H; subst. split; [reflexivity|].
  exists (env w'). split; [apply Hev|reflexivity].
Qed.

Lemma recorded0_call {A} (op : bool -> W -> A * W) ev ctx :
  (forall d e, answers d (ev (fst (op d e))) e (snd (op d e))) ->
  recorded ctx (call op ev ctx).
Proof.
  intros Hop w r w' t H. unfold call in H.
  specialize (Hop (ctxDone ctx (cancelled w)) (env w)).
  destruct (op _ _) as [a e1]. inversion H; subst. cbn in *.
  split; [reflexivity|]. exists e1. split; [exact Hop|reflexivity].
Qed.

Lemma recorded0_bind {A B} ctx (m : M A) (k : A -> M B) :
  recorded ctx m -> (forall a, recorded ctx (k a)) -> recorded ctx (bind m k).
Proof.
  intros Hm Hk w r w' t H. unfold bind in H.
  destruct (m w) as [[r1 w1] t1] eqn:E1. apply Hm in E1.
  destruct E1 as (Hc1 & Ha1). destruct r1.
  - destruct (k a w1) as [[r2 w2] t2] eqn:E2. apply Hk in E2.
    destruct E2 as (Hc2 & Ha2). inversion H; subst. rewrite Hc1 in Ha2.
    split; [congruence|]. eapply answered0_app; eassumption.
  - inversion H; subst. split; assumption.
Qed.

Lemma recorded0_defer {A} ctx (d : M unit) (m : M A) :
  recorded ctx m -> recorded ctx d -> recorded ctx (defer d m).
Proof.
  intros Hm Hd w r w' t H. unfold defer in H.
  destruct (m w) as [[r1 w1] t1] eqn:E1. apply Hm in E1.
  destruct E1 as (Hc1 & Ha1).
  destruct (d w1) as [[r2 w2] t2] eqn:E2. apply Hd in E2.
  destruct E2 as (Hc2 & Ha2). inversion H; subst. rewrite Hc1 in Ha2.
  split; [congruence|]. eapply answered0_app; eassumption.
Qed.

Lemma recorded0_rangeDeactivate ctx candidates n :
  recorded ctx (rangeDeactivate ctx candidates n).
Proof.
  revert n.
  induction candidates as [|c cs IH]; intros n; cbn [rangeDeactivate].
  - apply recorded0_ret.
  - apply recorded0_bind.
    + apply recorded0_call. intros d e. cbn.
      destruct (Deactivate d _ _ e) as [r e1]. cbn. exists r.
      split; reflexivity.
    + intros [e|]; [apply recorded0_ret|apply IH].
Qed.

Ltac recorded0_tac :=
  repeat first
    [ apply recorded0_ret | apply recorded0_rangeDeactivate
    | apply recorded0_emit; intros; reflexivity
    | apply recorded0_call; intros; cbn; apply surjective_pairing
    | apply recorded0_defer
    | apply recorded0_bind; [|intros]
    | match goal with
      | |- recorded _ (match ?x with _ => _ end) => destruct x
      | |- recorded _ (let '_ := ?x in _) => destruct x
      | |- recorded _ (if ?x then _ else _) => destruct x
      end ].

Lemma recorded0_documentHardDeletion h ctx cur :
  recorded ctx (documentHardDeletion h ctx cur).
Proof. unfold documentHardDeletion, unlockOrLog. recorded0_tac. Qed.

Lemma recorded0_deactivateCandidates h ctx cur :
  recorded ctx (deactivateCandidates h ctx cur).
Proof. unfold deactivateCandidates, unlockOrLog. recorded0_tac. Qed.

Lemma recorded0_loopBody sweep h cur :
  recorded Background (sweep Background cur) ->
  recorded Background (loopBody sweep h cur).
Proof.
  intros Hs. unfold loopBody. apply recorded0_bind; [exact Hs|].
  intros [c [e|]]; recorded0_tac.
Qed.

(** The five ways [documentHardDeletion] runs. *)
Lemma documentHardDeletion_cases h ctx cur (w : World W) r w' t :
  documentHardDeletion h ctx cur w = (r, w', t) ->
  (exists e, r = Ret (DefaultProjectID, Some e) /\
             t = [ENewLocker hardDeletionLockKey (Fail e)])
  \/ (exists l e, r = Ret (DefaultProjectID, Some e) /\
                  t = [ENewLocker hardDeletionLockKey (Ok l); ELock l (Some e)])
  \/ (exists l top cs e ue,
        r = Ret (DefaultProjectID, Some e) /\
        t = [ENewLocker hardDeletionLockKey (Ok l); ELock l None;
             EFindHardDeletionCandidates (candidatesLimitPerProject h)
               (projectFetchSize h) cur (top, cs, Some e)]
              ++ unlockEvents l ue)
  \/ (exists l top cs c e ue,
        r = Ret (DefaultProjectID, Some e) /\
        t = [ENewLocker hardDeletionLockKey (Ok l); ELock l None;
             EFindHardDeletionCandidates (candidatesLimitPerProject h)
               (projectFetchSize h) cur (top, cs, None);
             EHardDeletion cs (c, Some e)]
              ++ unlockEvents l ue)
  \/ (exists l top cs c ue,
        r = Ret (c, None) /\
        t = [ENewLocker hardDeletionLockKey (Ok l); ELock l None;
             EFindHardDeletionCandidates (candidatesLimitPerProject h)
               (projectFetchSize h) cur (top, cs, None);
             EHardDeletion cs (c, None)]
              ++ unlockEvents l ue).
Proof.
  intros H. unfold documentHardDeletion, defer, unlockOrLog, bind, call, emit,
    ret in H.
  destruct (NewLocker _ hardDeletionLockKey (env w)) as [[l|e] e1];
    cbn in H; [|inversion H; subst; left; eauto].
  destruct (Lock _ l e1) as [[e|] e2]; cbn in H;
    [inversion H; subst; right; left; eauto|].
  destruct (FindHardDeletionCandidates _ _ _ cur e2) as [[[top cs] [e|]] e3];
    cbn in H.
  - destruct (Unlock _ l e3) as [ue e4]. right; right; left.
    exists l, top, cs, e, ue. destruct ue; cbn in H; inversion H; subst; auto.
  - destruct (HardDeletion _ cs e3) as [[c [e|]] e4]; cbn in H;
      destruct (Unlock _ l e4) as [ue e5].
    + right; right; right; left. exists l, top, cs, c, e, ue.
      destruct ue; cbn in H; inversion H; subst; auto.
    + right; right; right; right. exists l, top, cs, c, ue.
      destruct ue; cbn in H; inversion H; subst; auto.
Qed.

(** X13. In this revision, a pass of the document loop that succeeds
    adopts as cursor the ID that [HardDeletion] returned: the ID returned by
    [FindHardDeletionCandidates] is overwritten and plays no part. The pass
    made exactly these calls: locker, lock, finder, [HardDeletion] on the
    batch found, unlock; then it enters the [select] with the one interval
    of the service. Each event is the answer of the collaborator it names,
    on the store the call before it left, and the store ends as the last
    call left it. *)
Theorem X13_cursor_comes_from_HardDeletion h cur (w : World W) c d f w' t :
  AttachDocumentHardDeletion_body h cur w = (Ret (AtSelect c d f), w', t) ->
  d = interval h /\ f = false /\
  (exists l top cs ue,
    t = [ENewLocker hardDeletionLockKey (Ok l); ELock l None;
         EFindHardDeletionCandidates (candidatesLimitPerProject h)
           (projectFetchSize h) cur (top, cs, None);
         EHardDeletion cs (c, None)]
          ++ unlockEvents l ue ++ [ESelect (interval h)]) /\
  answered false t (env w) (env w').
Proof.
  intros H.
  assert (Ha : answered false t (env w) (env w')).
  { apply (recorded0_loopBody _ h cur
             (recorded0_documentHardDeletion h Background cur) _ _ _ _ H). }
  unfold AttachDocumentHardDeletion_body, loopBody in H.
  unfold bind at 1 in H.
  destruct (documentHardDeletion h Background cur w) as [[rs ws] ts] eqn:Hs.
  apply documentHardDeletion_cases in Hs.
  destruct Hs as [(e & -> & ->)|[(l & e & -> & ->)
    |[(l & top & cs & e & ue & -> & ->)
    |[(l & top & cs & c0 & e & ue & -> & ->)
    |(l & top & cs & c0 & ue & -> & ->)]]]];
    cbn in H; inversion H; subst.
  repeat split; [|exact Ha]. exists l, top, cs, ue. reflexivity.
Qed.

(** X14. In this revision, [documentHardDeletion] returns the sentinel with
    every error; it calls [HardDeletion] at most once, and only after a finder
    that returned no error; and when it acquired the lock it releases it
    exactly once, as its last call. Each event is the answer of the
    collaborator it names, and the store ends as the last call left it. *)
Theorem X14_documentHardDeletion_errors h ctx cur (w : World W) r w' t :
  documentHardDeletion h ctx cur w = (r, w', t) ->
  (forall c e, r = Ret (c, Some e) -> c = DefaultProjectID) /\
  (forall cs x, In (EHardDeletion cs x) t ->
     filter isHardDeletion t = [EHardDeletion cs x] /\
     exists n p last top,
       In (EFindHardDeletionCandidates n p last (top, cs, None)) t) /\
  (forall l, In (ELock l None) t ->
     exists ue, filter isUnlock t = [EUnlock l ue]) /\
  answered (ctxDone ctx (cancelled w)) t (env w) (env w').
Proof.
  intros H.
  pose proof (recorded0_documentHardDeletion _ _ _ _ _ _ _ H) as (_ & Ha).
  revert Ha. apply documentHardDeletion_cases in H. intros Ha.
  cut ((forall c e, r = Ret (c, Some e) -> c = DefaultProjectID) /\
       (forall cs x, In (EHardDeletion cs x) t ->
          filter isHardDeletion t = [EHardDeletion cs x] /\
          exists n p last top,
            In (EFindHardDeletionCandidates n p last (top, cs, None)) t) /\
       (forall l, In (ELock l None) t ->
          exists ue, filter isUnlock t = [EUnlock l ue])).
  { intros (A1 & A2 & A3). split; [exact A1|]. split; [exact A2|].
    split; [exact A3|exact Ha]. }
  clear Ha.
  destruct H as [(e & -> & ->)|[(l & e & -> & ->)
    |[(l & top & cs & e & ue & -> & ->)
    |[(l & top & cs & c0 & e & ue & -> & ->)
    |(l & top & cs & c0 & ue & -> & ->)]]]];
    (split; [intros c e' Hr; inversion Hr; reflexivity|]);
    (split; [intros cs' x Hin|intros l' Hin]);
    try (destruct ue as [u|]); cbn in Hin;
    repeat match goal with
      | Hin : _ \/ _ |- _ => destruct Hin as [Hin|Hin]
      | Hin : False |- _ => destruct Hin
      | Hin : _ = _ :> Event |- _ =>
          first [discriminate Hin | inversion Hin; subst; clear Hin]
      end;
    cbn; eauto 10.
  all: split; [reflexivity|]; do 4 eexists; eauto 10.
Qed.

Lemma rangeDeactivate0_ok ctx candidates :
  forall n (w : World W) m w' t,
    rangeDeactivate ctx candidates n w = (Ret (Ok m), w', t) ->
    m = n + len candidates /\ t = map EDeactivated candidates.
Proof.
  unfold len.
  induction candidates as [|c cs IH]; intros n w m w' t H.
  - cbn in H. inversion H; subst. cbn. split; [lia|reflexivity].
  - cbn [rangeDeactivate] in H. unfold bind, call in H.
    destruct (Deactivate _ _ _ (env w)) as [[info|err] e1]; cbn in H.
    + destruct (rangeDeactivate ctx cs (n + 1) (setEnv w e1))
        as [[r2 w2] t2] eqn:E2.
      destruct r2 as [[m2|e2]|msg]; inversion H; subst.
      apply IH in E2. destruct E2 as (-> & ->).
      cbn [length map]. split; [lia|reflexivity].
    + inversion H.
Qed.

Lemma rangeDeactivate0_returns ctx candidates :
  forall n (w : World W), exists rd w' t,
    rangeDeactivate ctx candidates n w = (Ret rd, w', t).
Proof.
  induction candidates as [|c cs IH]; intros n w; cbn [rangeDeactivate].
  - unfold ret. eauto.
  - unfold bind, call.
    destruct (Deactivate _ _ _ (env w)) as [[info|err] e1]; cbn.
    + destruct (IH (n + 1) (setEnv w e1)) as (rd & w' & t & ->). eauto.
    + eauto.
Qed.

(** X15. In this revision, when [deactivateCandidates] returns a nil error
    it returns the project ID that the database's
    [FindDeactivateCandidates] returned, and between that call and the
    release of the lock it has deactivated each candidate of the batch once,
    in order, by its project ID and client ID, and logged the size of the
    batch twice when the batch is not empty. Each event is the answer of the
    collaborator it names ([clients.Deactivate] answered each call without
    error), and the store ends as the last call left it. *)
Theorem X15_revision_deactivates_all h ctx cur (w : World W) c w' t :
  deactivateCandidates h ctx cur w = (Ret (c, None), w', t) ->
  (exists l cs ue,
    t = [ENewLocker deactivateCandidatesKey (Ok l); ELock l None;
         EFindDeactivateCandidates (candidatesLimitPerProject h)
           (projectFetchSize h) cur (c, cs, None)]
          ++ map EDeactivated cs
          ++ (if 0 <? len cs
              then [ELogInfof "HSKP: candidates %d, deactivated %d, %s"
                      (len cs) (len cs)]
              else [])
          ++ unlockEvents l ue) /\
  answered (ctxDone ctx (cancelled w)) t (env w) (env w').
Proof.
  intros H.
  pose proof (recorded0_deactivateCandidates _ _ _ _ _ _ _ H) as (_ & Ha).
  split; [|exact Ha]. clear Ha.
  unfold deactivateCandidates in H.
  unfold bind at 1 in H. unfold call at 1 in H.
  destruct (NewLocker _ deactivateCandidatesKey (env w)) as [[l|e] e1];
    [|cbn in H; inversion H].
  unfold bind at 1 in H. unfold call at 1 in H. cbn [env setEnv cancelled] in H.
  destruct (Lock _ l e1) as [[e|] e2]; [cbn in H; inversion H|].
  unfold defer in H. unfold bind at 1 in H. unfold call at 1 in H.
  cbn [env setEnv cancelled] in H.
  destruct (FindDeactivateCandidates _ _ _ cur e2) as [[[top cs] [e|]] e3].
  - unfold unlockOrLog, bind, call, emit, ret in H. cbn in H.
    destruct (Unlock _ l e3) as [[ue|] e4]; cbn in H; inversion H.
  - unfold bind at 1 in H.
    destruct (rangeDeactivate0_returns ctx cs 0
                (setEnv (setEnv (setEnv w e1) e2) e3)) as (rd & wd & td & HD).
    rewrite HD in H.
    destruct rd as [n|e].
    + apply rangeDeactivate0_ok in HD. destruct HD as (Hn & ->). cbn in Hn.
      subst n. unfold unlockOrLog, bind, call, emit, ret in H.
      destruct (0 <? len cs) eqn:Elen; cbn -[len] in H;
        destruct (Unlock (ctxDone ctx (cancelled wd)) l (env wd))
          as [ue e4] eqn:EU;
        exists l, cs, ue; rewrite Elen;
        destruct ue; cbn -[len] in H; inversion H; subst;
        cbn -[len]; rewrite <- ?app_assoc; cbn -[len]; rewrite ?app_nil_r;
        reflexivity.
    + unfold unlockOrLog, bind, call, emit, ret in H. cbn in H.
      destruct (Unlock _ l (env wd)) as [[ue|] e4]; cbn in H; inversion H.
Qed.

End RevisionProperties.

End part_000_facts.

(** * Nil entries and the nil locker *)

Module pointers_facts.

Import pointers.

Section PointerProperties.

Context {W : Type} {DB : Database W} {CO : Coordinator W} {CL : Clients W}.

Implicit Types (w : World W) (ctx : Context) (h : Housekeeping).

(** The last step of a finder: the sentinel for a short page; else the ID
    of the last project, which panics on an empty page and on a nil entry. *)
Lemma topProjectID_cases (projects : list (option ProjectInfo)) pfs w :
  exists r,
    topProjectID projects pfs w = (r, w, []) /\
    ((len projects < pfs /\ r = Ret DefaultProjectID)
     \/ (pfs <= len projects /\
         ((projects = [] /\ r = Panic "index out of range")
          \/ (exists init info,
                projects = init ++ [Some info] /\ r = Ret (ProjectInfo_ID info))
          \/ (exists init,
                projects = init ++ [None] /\ r = Panic nilPointerDereference)))).
Proof.
  unfold topProjectID, len.
  destruct (Z.of_nat (length projects) <? pfs) eqn:E.
  - apply Z.ltb_lt in E. eexists. split; [reflexivity|]. left. auto.
  - apply Z.ltb_ge in E.
    destruct projects as [|p0 ps] using rev_ind.
    + eexists. split; [reflexivity|]. right. split; [exact E|]. left. auto.
    + clear IHps. unfold bind, index.
      rewrite length_app in *. cbn [length] in *.
      replace (Z.of_nat (length ps + 1) - 1) with (Z.of_nat (length ps)) by lia.
      destruct (Z.of_nat (length ps) <? 0) eqn:E0; [apply Z.ltb_lt in E0; lia|].
      rewrite Nat2Z.id.
      rewrite nth_error_app2 by lia. rewrite Nat.sub_diag. cbn.
      destruct p0 as [info|]; cbn; eexists; (split; [reflexivity|]);
        right; (split; [exact E|]); right; [left|right]; eauto.
Qed.

(** The range loop over the page never panics: it returns the batch when
    every lookup succeeds, and else the first error. *)
Lemma rangeProjects_run {C}
    (op : option ProjectInfo -> bool -> W -> result (list C) * W)
    (ev : option ProjectInfo -> result (list C) -> Event) ctx projects :
  forall acc w, exists t,
    rangeProjects (fun p => call (op p) (ev p) ctx) projects acc w =
      (Ret (match fst (lookupsOf (fun p => op p (ctxDone ctx (cancelled w)))
                         projects (env w)) with
            | Ok results => Ok (acc ++ concat results)
            | Fail err => Fail err
            end),
       setEnv w (snd (lookupsOf (fun p => op p (ctxDone ctx (cancelled w)))
                        projects (env w))),
       t).
Proof.
  induction projects as [|p ps IH]; intros acc w.
  - cbn. rewrite app_nil_r. unfold ret.
    replace (setEnv w (env w)) with w by (destruct w; reflexivity). eauto.
  - cbn [rangeProjects lookupsOf]. unfold bind at 1. unfold call at 1.
    destruct (op p (ctxDone ctx (cancelled w)) (env w)) as [[infos|err] e1].
    + destruct (IH (acc ++ infos) (setEnv w e1)) as (t & ->).
      cbn [cancelled env setEnv].
      destruct (lookupsOf _ ps e1) as [[results|err] e2]; cbn;
        rewrite <- ?app_assoc; eauto.
    + cbn. eauto.
Qed.

(** X3. A finder panics exactly when the listing and every lookup of the
    page succeed, the page is not shorter than the page size, and the page is
    empty or its last entry is nil: the code then reads the ID of the last
    project of the page. An empty page is not shorter than a page size of
    zero or less; a page size that is positive is reached by a full page
    whose last pointer is nil. *)
Theorem X3_finder_panics_iff ctx limit grace pfs last w :
  ((exists msg w' t,
       FindDeactivateCandidates ctx limit pfs last w = (Panic msg, w', t))
   <-> (exists projects e1 results e2,
          FindNextNCyclingProjectInfos (ctxDone ctx (cancelled w)) pfs last
            (env w) = (Ok projects, e1) /\
          lookupsOf (fun p => FindDeactivateCandidatesPerProject
                                (ctxDone ctx (cancelled w)) p limit)
            projects e1 = (Ok results, e2) /\
          pfs <= len projects /\
          (projects = [] \/ exists init, projects = init ++ [None])))
  /\
  ((exists msg w' t,
       FindDocumentHardDeletionCandidates ctx limit pfs grace last w
         = (Panic msg, w', t))
   <-> (exists projects e1 results e2,
          FindNextNCyclingProjectInfos (ctxDone ctx (cancelled w)) pfs last
            (env w) = (Ok projects, e1) /\
          lookupsOf (fun p => FindDocumentHardDeletionCandidatesPerProject
                                (ctxDone ctx (cancelled w)) p limit grace)
            projects e1 = (Ok results, e2) /\
          pfs <= len projects /\
          (projects = [] \/ exists init, projects = init ++ [None]))).
Proof.
  split; split.
  - intros (msg & w' & t & H).
    unfold FindDeactivateCandidates in H. unfold bind at 1 in H.
    unfold call at 1 in H.
    destruct (FindNextNCyclingProjectInfos _ pfs last (env w))
      as [[projects|err] e1] eqn:EL; [|discriminate H].
    unfold bind at 1 in H.
    destruct (rangeProjects_run
                (fun p d => FindDeactivateCandidatesPerProject d p limit)
                (fun p => EFindDeactivateCandidatesPerProject p limit)
                ctx projects [] (setEnv w e1)) as (t2 & E2).
    rewrite E2 in H. cbn [cancelled env setEnv] in H.
    destruct (lookupsOf _ projects e1) as [[results|err] e2] eqn:ELk;
      cbn [fst snd] in H; [|discriminate H].
    unfold bind in H.
    destruct (topProjectID_cases projects pfs (setEnv (setEnv w e1) e2))
      as (r & E3 & Hr).
    rewrite E3 in H.
    destruct Hr as [[_ ->]|[Hge [[-> ->]|[(init & info & -> & ->)
                                        |(init & -> & ->)]]]];
      try discriminate H.
    + exists [], e1, results, e2. auto.
    + exists (init ++ [None]), e1, results, e2. repeat split; eauto.
  - intros (projects & e1 & results & e2 & EL & ELk & Hge & Hlast).
    unfold FindDeactivateCandidates. unfold bind at 1. unfold call at 1.
    rewrite EL. unfold bind at 1.
    destruct (rangeProjects_run
                (fun p d => FindDeactivateCandidatesPerProject d p limit)
                (fun p => EFindDeactivateCandidatesPerProject p limit)
                ctx projects [] (setEnv w e1)) as (t2 & E2).
    rewrite E2. cbn [cancelled env setEnv]. rewrite ELk. cbn [fst snd].
    unfold bind.
    destruct (topProjectID_cases projects pfs (setEnv (setEnv w e1) e2))
      as (r & E3 & Hr).
    rewrite E3.
    destruct Hr as [[Hlt _]|[_ [[_ ->]|[(init & info & Hp & _)
                                       |(init & _ & ->)]]]];
      [lia|eauto| |eauto].
    exfalso. destruct Hlast as [->|(init' & ->)].
    + destruct init; discriminate Hp.
    + apply app_inj_tail in Hp. destruct Hp as (_ & Hp). discriminate Hp.
  - intros (msg & w' & t & H).
    unfold FindDocumentHardDeletionCandidates in H. unfold bind at 1 in H.
    unfold call at 1 in H.
    destruct (FindNextNCyclingProjectInfos _ pfs last (env w))
      as [[projects|err] e1] eqn:EL; [|discriminate H].
    unfold bind at 1 in H.
    destruct (rangeProjects_run
                (fun p d => FindDocumentHardDeletionCandidatesPerProject d p
                              limit grace)
                (fun p => EFindDocumentHardDeletionCandidatesPerProject p limit
                            grace)
                ctx projects [] (setEnv w e1)) as (t2 & E2).
    rewrite E2 in H. cbn [cancelled env setEnv] in H.
    destruct (lookupsOf _ projects e1) as [[results|err] e2] eqn:ELk;
      cbn [fst snd] in H; [|discriminate H].
    unfold bind in H.
    destruct (topProjectID_cases projects pfs (setEnv (setEnv w e1) e2))
      as (r & E3 & Hr).
    rewrite E3 in H.
    destruct Hr as [[_ ->]|[Hge [[-> ->]|[(init & info & -> & ->)
                                        |(init & -> & ->)]]]];
      try discriminate H.
    + exists [], e1, results, e2. auto.
    + exists (init ++ [None]), e1, results, e2. repeat split; eauto.
  - intros (projects & e1 & results & e2 & EL & ELk & Hge & Hlast).
    unfold FindDocumentHardDeletionCandidates. unfold bind at 1.
    unfold call at 1. rewrite EL. unfold bind at 1.
    destruct (rangeProjects_run
                (fun p d => FindDocumentHardDeletionCandidatesPerProject d p
                              limit grace)
                (fun p => EFindDocumentHardDeletionCandidatesPerProject p limit
                            grace)
                ctx projects [] (setEnv w e1)) as (t2 & E2).
    rewrite E2. cbn [cancelled env setEnv]. rewrite ELk. cbn [fst snd].
    unfold bind.
    destruct (topProjectID_cases projects pfs (setEnv (setEnv w e1) e2))
      as (r & E3 & Hr).
    rewrite E3.
    destruct Hr as [[Hlt _]|[_ [[_ ->]|[(init & info & Hp & _)
                                       |(init & _ & ->)]]]];
      [lia|eauto| |eauto].
    exfalso. destruct Hlast as [->|(init' & ->)].
    + destruct init; discriminate Hp.
    + apply app_inj_tail in Hp. destruct Hp as (_ & Hp). discriminate Hp.
Qed.

(** ** What returns *)

Lemma returns_ret {A} (P : A -> Prop) (a : A) : P a -> returns P (ret a).
Proof. intros HP w. exists a, w, []. split; [reflexivity|exact HP]. Qed.

Lemma returns_emit ev : returns (fun _ => True) (emit ev).
Proof. intros w. exists tt, w, [ev]. split; [reflexivity|exact I]. Qed.

Lemma returns_call {A} (P : A -> Prop) (op : bool -> W -> A * W) ev ctx :
  (forall d e, P (fst (op d e))) -> returns P (call op ev ctx).
Proof.
  intros HP w. unfold call.
  specialize (HP (ctxDone ctx (cancelled w)) (env w)).
  destruct (op _ _) as [a e1]. exists a, (setEnv w e1), [ev a].
  split; [reflexivity|exact HP].
Qed.

Lemma returns_bind {A B} (P : A -> Prop) (Q : B -> Prop) (m : M A)
    (k : A -> M B) :
  returns P m -> (forall a, P a -> returns Q (k a)) -> returns Q (bind m k).
Proof.
  intros Hm Hk w. unfold bind.
  destruct (Hm w) as (a & w1 & t1 & -> & HP).
  destruct (Hk a HP w1) as (b & w2 & t2 & -> & HQ).
  exists b, w2, (t1 ++ t2). split; [reflexivity|exact HQ].
Qed.

Lemma returns_defer {A} (P : A -> Prop) (d : M unit) (m : M A) :
  returns P m -> returns (fun _ => True) d -> returns P (defer d m).
Proof.
  intros Hm Hd w. unfold defer.
  destruct (Hm w) as (a & w1 & t1 & -> & HP).
  destruct (Hd w1) as (u & w2 & t2 & -> & _).
  exists a, w2, (t1 ++ t2). split; [reflexivity|exact HP].
Qed.

Lemma returns_weaken {A} (P Q : A -> Prop) (m : M A) :
  (forall a, P a -> Q a) -> returns P m -> returns Q m.
Proof.
  intros HPQ Hm w. destruct (Hm w) as (a & w1 & t1 & -> & HP).
  exists a, w1, t1. split; [reflexivity|auto].
Qed.

Lemma returns_unlockOrLog ctx locker :
  returns (fun _ => True) (unlockOrLog ctx locker).
Proof.
  unfold unlockOrLog.
  apply returns_bind with (P := fun _ => True);
    [apply returns_call; auto|].
  intros [e|] _; [apply returns_emit|apply returns_ret; exact I].
Qed.

Lemma returns_rangeProjects {C} (lookup : option ProjectInfo
                                          -> M (result (list (option C))))
    projects :
  (forall project,
      returns (fun r => forall infos, r = Ok infos -> ~ In None infos)
              (lookup project)) ->
  forall candidates,
    ~ In None candidates ->
    returns (fun r => forall cs, r = Ok cs -> ~ In None cs)
            (rangeProjects lookup projects candidates).
Proof.
  intros Hl. induction projects as [|p ps IH]; intros candidates Hc;
    cbn [rangeProjects].
  - apply returns_ret. intros cs Hcs. inversion Hcs; subst. exact Hc.
  - eapply returns_bind; [apply Hl|].
    intros [infos|err] Hinfos.
    + apply IH. intros Hin. apply in_app_or in Hin.
      destruct Hin as [Hin|Hin]; [exact (Hc Hin)|exact (Hinfos _ eq_refl Hin)].
    + apply returns_ret. intros cs Hcs. discriminate Hcs.
Qed.

(** The range loop over a page of documents: nothing is read through the
    entries, so nothing is asked of them. *)
Lemma returns_rangeProjects_any {C} (lookup : option ProjectInfo
                                              -> M (result (list C)))
    projects :
  (forall project, returns (fun _ => True) (lookup project)) ->
  forall candidates,
    returns (fun _ => True) (rangeProjects lookup projects candidates).
Proof.
  intros Hl. induction projects as [|p ps IH]; intros candidates;
    cbn [rangeProjects].
  - apply returns_ret. exact I.
  - eapply returns_bind; [apply Hl|].
    intros [infos|err] _; [apply IH|apply returns_ret; exact I].
Qed.

Lemma returns_topProjectID projects pfs :
  0 < pfs -> ~ In None projects ->
  returns (fun _ => True) (topProjectID projects pfs).
Proof.
  intros Hp Hn w.
  destruct (topProjectID_cases projects pfs w) as (r & E & Hr). rewrite E.
  destruct Hr as [[_ ->]|[Hge [[-> _]|[(init & info & _ & ->)|(init & -> & _)]]]].
  - eauto.
  - cbn in Hge. lia.
  - eauto.
  - exfalso. apply Hn. apply in_or_app. right. left. reflexivity.
Qed.

Lemma returns_rangeDeactivate ctx candidates :
  ~ In None candidates ->
  forall n, returns (fun _ => True) (rangeDeactivate ctx candidates n).
Proof.
  induction candidates as [|c cs IH]; intros Hn n; cbn [rangeDeactivate].
  - apply returns_ret. exact I.
  - destruct c as [info|]; [|exfalso; apply Hn; left; reflexivity].
    cbn [deref].
    eapply returns_bind with (P := fun _ => True);
      [apply returns_ret; exact I|]. intros info' _.
    eapply returns_bind with (P := fun _ => True); [apply returns_call; auto|].
    intros [e|] _; [apply returns_ret; exact I|].
    apply IH. intros Hin. apply Hn. right. exact Hin.
Qed.

Lemma returns_FindDeactivateCandidates ctx limit pfs last :
  noNil -> 0 < pfs ->
  returns (fun '(_, candidates, _) => ~ In None candidates)
          (FindDeactivateCandidates ctx limit pfs last).
Proof.
  intros (_ & Hpage & Hcs) Hp. unfold FindDeactivateCandidates.
  eapply returns_bind
    with (P := fun r => forall projects, r = Ok projects -> ~ In None projects).
  { apply returns_call. intros d e projects Hr. eapply Hpage; eassumption. }
  intros [projects|err] Hprojects; [|apply returns_ret; auto].
  specialize (Hprojects _ eq_refl).
  eapply returns_bind.
  { apply returns_rangeProjects; [|auto].
    intros project. apply returns_call. intros d e infos Hr.
    eapply Hcs; eassumption. }
  intros [candidates|err] Hcandidates; [|apply returns_ret; auto].
  specialize (Hcandidates _ eq_refl).
  eapply returns_bind; [apply returns_topProjectID; assumption|].
  intros top _. apply returns_ret. exact Hcandidates.
Qed.

Lemma returns_FindDocumentHardDeletionCandidates ctx limit pfs grace last :
  noNil -> 0 < pfs ->
  returns (fun _ => True)
          (FindDocumentHardDeletionCandidates ctx limit pfs grace last).
Proof.
  intros (_ & Hpage & _) Hp. unfold FindDocumentHardDeletionCandidates.
  eapply returns_bind
    with (P := fun r => forall projects, r = Ok projects -> ~ In None projects).
  { apply returns_call. intros d e projects Hr. eapply Hpage; eassumption. }
  intros [projects|err] Hprojects; [|apply returns_ret; auto].
  specialize (Hprojects _ eq_refl).
  eapply returns_bind with (P := fun _ => True).
  { apply returns_rangeProjects_any.
    intros project. apply returns_call. auto. }
  intros [candidates|err] _; [|apply returns_ret; auto].
  eapply returns_bind; [apply returns_topProjectID; assumption|].
  intros top _. apply returns_ret. exact I.
Qed.

(** X4. With a positive page size, a coordinator that hands back no nil
    locker and a store whose pages of projects and lists of client
    candidates hold no nil entry, neither sweep panics: every run of
    [deactivateCandidates] and of [DeleteDocument] returns, with an error or
    without, whatever else the collaborators answer. *)
Theorem X4_no_nil_no_panic h ctx cur w :
  noNil ->
  0 < projectFetchSize h ->
  (exists c err w' t,
      deactivateCandidates h ctx cur w = (Ret (c, err), w', t))
  /\ (exists c err w' t,
        DeleteDocument h ctx cur w = (Ret (c, err), w', t)).
Proof.
  intros Hn Hp.
  assert (Hlocker : forall key,
             returns (fun r => r <> Ok None)
               (call (fun d => NewLocker d key) (ENewLocker key) ctx)).
  { intros key. apply returns_call. intros d e. apply (proj1 Hn). }
  split.
  - assert (Hr : returns (fun _ => True) (deactivateCandidates h ctx cur)).
    { unfold deactivateCandidates.
      eapply returns_bind; [apply Hlocker|].
      intros [[locker|]|err] Hl; [|congruence|apply returns_ret; exact I].
      cbn [deref].
      eapply returns_bind with (P := fun _ => True);
        [apply returns_ret; exact I|]. intros locker' _.
      eapply returns_bind with (P := fun _ => True);
        [apply returns_call; auto|].
      intros [e|] _; [apply returns_ret; exact I|].
      apply returns_defer; [|apply returns_unlockOrLog].
      eapply returns_bind;
        [apply returns_FindDeactivateCandidates; assumption|].
      intros [[top candidates] [e|]] Hc; [apply returns_ret; exact I|].
      eapply returns_bind; [apply returns_rangeDeactivate; exact Hc|].
      intros [n|e] _; [|apply returns_ret; exact I].
      eapply returns_bind with (P := fun _ => True);
        [destruct (0 <? len candidates);
         [apply returns_emit|apply returns_ret; exact I]|].
      intros _ _. apply returns_ret. exact I. }
    destruct (Hr w) as ([c err] & w' & t & E & _). eauto.
  - assert (Hr : returns (fun _ => True) (DeleteDocument h ctx cur)).
    { unfold DeleteDocument.
      eapply returns_bind; [apply Hlocker|].
      intros [[locker|]|err] Hl; [|congruence|apply returns_ret; exact I].
      cbn [deref].
      eapply returns_bind with (P := fun _ => True);
        [apply returns_ret; exact I|]. intros locker' _.
      eapply returns_bind with (P := fun _ => True);
        [apply returns_call; auto|].
      intros [e|] _; [apply returns_ret; exact I|].
      apply returns_defer; [|apply returns_unlockOrLog].
      eapply returns_bind;
        [apply returns_FindDocumentHardDeletionCandidates; assumption|].
      intros [[top candidates] [e|]] _; [apply returns_ret; exact I|].
      eapply returns_bind with (P := fun _ => True);
        [apply returns_call; auto|].
      intros [n|e] _; [|apply returns_ret; exact I].
      eapply returns_bind with (P := fun _ => True);
        [destruct (0 <? len candidates);
         [apply returns_emit|apply returns_ret; exact I]|].
      intros _ _. apply returns_ret. exact I. }
    destruct (Hr w) as ([c err] & w' & t & E & _). eauto.
Qed.

End PointerProperties.

End pointers_facts.

(** * The model at work on the in-memory store *)

Import Demo.

(** The scenario of three projects fetched by pages of two: the first page
    is [p1; p2] and moves the cursor to [p2]; the second is [p3] alone, fewer
    than the page size, and resets the cursor to the sentinel. *)
Example page_by_page :
  fst (fst (FindDeactivateCandidates Background 10 2 sentinel (live store0)))
    = Ret ("p2", [C "p1" "a"; C "p1" "b"], None)
  /\ fst (fst (FindDeactivateCandidates Background 10 2 "p2" (live store0)))
    = Ret (sentinel, [C "p3" "c"], None).
Proof. split; reflexivity. Qed.

(** An empty page with a page size of zero is not "fewer than the page
    size": the code indexes the last element of an empty slice. *)
Example empty_page_of_zero_panics :
  fst (fst (FindDeactivateCandidates Background 10 0 sentinel (live store0)))
    = Panic "index out of range".
Proof. reflexivity. Qed.

Lemma C1_next_cursor_witness :
  exists top1 cs1 w1 t1 top2 cs2 w2 t2,
    FindDeactivateCandidates Background 10 2 sentinel (live store0)
      = (Ret (top1, cs1, None), w1, t1)
    /\ FindDocumentHardDeletionCandidates Background 10 2 86400000000000 "p2"
         (live store0) = (Ret (top2, cs2, None), w2, t2)
    /\ (exists projects e1,
          FindNextNCyclingProjectInfos false 2 sentinel store0 = (Ok projects, e1)
          /\ (len projects < 2 -> top1 = sentinel)
          /\ (~ len projects < 2 ->
              exists init p, projects = init ++ [p] /\ top1 = ProjectInfo_ID p))
    /\ (exists projects e1,
          FindNextNCyclingProjectInfos false 2 "p2" store0 = (Ok projects, e1)
          /\ (len projects < 2 -> top2 = sentinel)
          /\ (~ len projects < 2 ->
              exists init p, projects = init ++ [p] /\ top2 = ProjectInfo_ID p)).
Proof.
  do 8 eexists.
  assert (H1 : FindDeactivateCandidates Background 10 2 sentinel (live store0)
               = (Ret ("p2", [C "p1" "a"; C "p1" "b"], None), _, _))
    by reflexivity.
  assert (H2 : FindDocumentHardDeletionCandidates Background 10 2
                 86400000000000 "p2" (live store0)
               = (Ret (sentinel, [D "p3" "y"], None), _, _))
    by reflexivity.
  split; [exact H1|]. split; [exact H2|]. split.
  - exact (proj1 (C1_next_cursor Background 10 86400000000000 2 sentinel
                    (live store0)) _ _ _ _ H1).
  - exact (proj2 (C1_next_cursor Background 10 86400000000000 2 "p2"
                    (live store0)) _ _ _ _ H2).
Defined.

(** What the store itself answers to the lookups of the page [p1; p2; p3]. *)
Example the_store_on_each_project :
  FindDeactivateCandidatesPerProject false (P "p1") 10 store0
    = (Ok [C "p1" "a"; C "p1" "b"], store0)
  /\ FindDeactivateCandidatesPerProject false (P "p2") 10 store0 = (Ok [], store0)
  /\ FindDeactivateCandidatesPerProject false (P "p3") 10 store0
    = (Ok [C "p3" "c"], store0).
Proof. repeat split. Qed.

Lemma C7_batch_is_concatenation_witness :
  exists top1 w1 t1 top2 w2 t2 r3 w3 t3 r4 w4 t4,
    FindDeactivateCandidates Background 10 3 sentinel (live store0)
      = (Ret (top1, [C "p1" "a"; C "p1" "b"; C "p3" "c"], None), w1, t1)
    /\ FindDocumentHardDeletionCandidates Background 10 3 86400000000000
         sentinel (live store0)
         = (Ret (top2, [D "p1" "x"; D "p3" "y"], None), w2, t2)
    /\ deactivateCandidates (conf 3) Background sentinel (live store0)
         = (r3, w3, t3)
    /\ DeleteDocument (conf 3) Background sentinel (live store0) = (r4, w4, t4)
    /\ (exists projects results,
          t1 = EFindNextNCyclingProjectInfos 3 sentinel (Ok projects)
                 :: clientLookups 10 projects results
          /\ length results = length projects
          /\ [C "p1" "a"; C "p1" "b"; C "p3" "c"] = concat results
          /\ answered false t1 store0 (env w1))
    /\ (exists projects results,
          t2 = EFindNextNCyclingProjectInfos 3 sentinel (Ok projects)
                 :: docLookups 10 86400000000000 projects results
          /\ length results = length projects
          /\ [D "p1" "x"; D "p3" "y"] = concat results
          /\ answered false t2 store0 (env w2))
    /\ (Forall (lookupLimit 10 10) t3 /\ answered false t3 store0 (env w3))
    /\ (Forall (lookupLimit 10 10) t4 /\ answered false t4 store0 (env w4)).
Proof.
  do 12 eexists.
  assert (H1 : FindDeactivateCandidates Background 10 3 sentinel (live store0)
               = (Ret (_, [C "p1" "a"; C "p1" "b"; C "p3" "c"], None), _, _))
    by reflexivity.
  assert (H2 : FindDocumentHardDeletionCandidates Background 10 3
                 86400000000000 sentinel (live store0)
               = (Ret (_, [D "p1" "x"; D "p3" "y"], None), _, _))
    by reflexivity.
  assert (H3 : deactivateCandidates (conf 3) Background sentinel (live store0)
               = (Ret ("p3", None), _, _)) by reflexivity.
  assert (H4 : DeleteDocument (conf 3) Background sentinel (live store0)
               = (Ret ("p3", None), _, _)) by reflexivity.
  pose proof (C7_batch_is_concatenation (conf 3) Background 10 86400000000000 3
                sentinel (live store0)) as (T1 & T2 & T3 & T4).
  split; [exact H1|]. split; [exact H2|]. split; [exact H3|].
  split; [exact H4|]. split; [exact (T1 _ _ _ _ H1)|].
  split; [exact (T2 _ _ _ _ H2)|].
  split; [exact (T3 _ _ _ H3)|exact (T4 _ _ _ H4)].
Defined.

Lemma C9_error_returns_sentinel_witness :
  exists c1 e1 w1 t1 c2 e2 w2 t2,
    deactivateCandidates (conf 2) Background "p1" (live lockedElsewhere)
      = (Ret (c1, Some e1), w1, t1)
    /\ DeleteDocument (conf 2) Background "p1" (live storeGone)
         = (Ret (c2, Some e2), w2, t2)
    /\ c1 = sentinel /\ c2 = sentinel.
Proof.
  do 8 eexists.
  assert (H1 : deactivateCandidates (conf 2) Background "p1"
                 (live lockedElsewhere)
               = (Ret (_, Some "lock is held"), _, _)) by reflexivity.
  assert (H2 : DeleteDocument (conf 2) Background "p1" (live storeGone)
               = (Ret (_, Some "store unreachable"), _, _)) by reflexivity.
  split; [exact H1|]. split; [exact H2|]. split.
  - exact (proj1 (C9_error_returns_sentinel (conf 2) Background "p1"
                    (live lockedElsewhere) _ _ _ _) H1).
  - exact (proj2 (C9_error_returns_sentinel (conf 2) Background "p1"
                    (live storeGone) _ _ _ _) H2).
Defined.

Lemma C10_success_deactivates_all_witness :
  exists w' t,
    deactivateCandidates (conf 2) Background sentinel (live store0)
      = (Ret ("p2", None), w', t)
    /\ deactivated (env w') = [RefKey (C "p1" "b"); RefKey (C "p1" "a")]
    /\ exists l e1 e2 candidates wf tf wd ue e3,
         NewLocker false deactivateCandidatesKey store0 = (Ok l, e1)
         /\ Lock false l e1 = (None, e2)
         /\ FindDeactivateCandidates Background 10 2 sentinel
              (setEnv (live store0) e2) = (Ret ("p2", candidates, None), wf, tf)
         /\ allDeactivate (ctxDone Background (cancelled wf)) candidates (env wf)
              = true
         /\ wd = setEnv wf (afterDeactivations
                              (ctxDone Background (cancelled wf)) candidates
                              (env wf))
         /\ rangeDeactivate Background candidates 0 wf
              = (Ret (Ok (len candidates)), wd, map EDeactivated candidates)
         /\ Unlock (ctxDone Background (cancelled wd)) l (env wd) = (ue, e3)
         /\ w' = setEnv wd e3
         /\ t = [ENewLocker deactivateCandidatesKey (Ok l); ELock l None]
                 ++ tf ++ map EDeactivated candidates
                 ++ (if 0 <? len candidates
                     then [ELogInfof "HSKP: candidates %d, deactivated %d, %s"
                             (len candidates) (len candidates)]
                     else [])
                 ++ unlockEvents l ue
         /\ filter isDeactivate t = map EDeactivated candidates
         /\ answered false t store0 (env w').
Proof.
  do 2 eexists.
  assert (H : deactivateCandidates (conf 2) Background sentinel (live store0)
              = (Ret ("p2", None), _, _)) by reflexivity.
  split; [exact H|]. split; [reflexivity|].
  exact (C10_success_deactivates_all (conf 2) Background sentinel (live store0)
           _ _ _ H).
Defined.

Lemma C5_no_store_access_without_lock_witness :
  exists t,
    NewLocker false deactivateCandidatesKey coordinatorDown
      = (Fail "coordinator unreachable", coordinatorDown)
    /\ deactivateCandidates (conf 2) Background "p1" (live coordinatorDown)
         = (Ret (sentinel, Some "coordinator unreachable"), live coordinatorDown,
            [ENewLocker deactivateCandidatesKey (Fail "coordinator unreachable")])
    /\ Lock false deactivateCandidatesKey lockedElsewhere
         = (Some "lock is held", lockedElsewhere)
    /\ deactivateCandidates (conf 2) Background "p1" (live lockedElsewhere)
         = (Ret (sentinel, Some "lock is held"), live lockedElsewhere,
            [ENewLocker deactivateCandidatesKey (Ok deactivateCandidatesKey);
             ELock deactivateCandidatesKey (Some "lock is held")])
    /\ DeleteDocument (conf 2) Background "p1" (live coordinatorDown)
         = (Ret (sentinel, Some "coordinator unreachable"), live coordinatorDown,
            [ENewLocker documentHardDeletionLockKey
               (Fail "coordinator unreachable")])
    /\ DeleteDocument (conf 2) Background "p1" (live lockedElsewhere)
         = (Ret (sentinel, Some "lock is held"), live lockedElsewhere,
            [ENewLocker documentHardDeletionLockKey
               (Ok documentHardDeletionLockKey);
             ELock documentHardDeletionLockKey (Some "lock is held")])
    /\ snd (deactivateCandidates (conf 2) Background sentinel (live store0)) = t
    /\ (forall t1 ev t2,
          t = t1 ++ ev :: t2 -> isStoreCall ev = true ->
          exists l t1',
            t1 = ENewLocker deactivateCandidatesKey (Ok l) :: ELock l None :: t1'
            /\ filter isUnlock t1 = [])
    /\ (forall t1 ev t2,
          snd (DeleteDocument (conf 2) Background sentinel (live store0))
            = t1 ++ ev :: t2 ->
          isStoreCall ev = true ->
          exists l t1',
            t1 = ENewLocker documentHardDeletionLockKey (Ok l)
                   :: ELock l None :: t1'
            /\ filter isUnlock t1 = []).
Proof.
  eexists.
  pose proof (C5_no_store_access_without_lock (conf 2) Background "p1"
                (live coordinatorDown)) as (A1 & _ & A3 & _).
  pose proof (C5_no_store_access_without_lock (conf 2) Background "p1"
                (live lockedElsewhere)) as (_ & B2 & _ & B4 & _).
  pose proof (C5_no_store_access_without_lock (conf 2) Background sentinel
                (live store0)) as (_ & _ & _ & _ & G5 & G6).
  split; [reflexivity|].
  split; [exact (A1 _ _ eq_refl)|].
  split; [reflexivity|].
  split; [exact (B2 _ _ _ _ eq_refl eq_refl)|].
  split; [exact (A3 _ _ eq_refl)|].
  split; [exact (B4 _ _ _ _ eq_refl eq_refl)|].
  split; [reflexivity|].
  split.
  - intros t1 ev t2. exact (G5 _ _ _ t1 ev t2 eq_refl).
  - intros t1 ev t2. exact (G6 _ _ _ t1 ev t2 eq_refl).
Defined.

(** A release that fails is logged and the sweep still reports success. *)
Example failed_release_is_only_logged :
  let '(r, _, t) :=
    deactivateCandidates (conf 2) Background sentinel (live stuckUnlock) in
  r = Ret ("p2", None)
  /\ filter isUnlock t = [EUnlock deactivateCandidatesKey (Some "unlock failed")]
  /\ last t (ESelect 0) = ELogError "unlock failed".
Proof. repeat split. Qed.

Lemma C6_lock_released_exactly_once_witness :
  exists r1 w1 t1 r2 w2 t2,
    NewLocker false deactivateCandidatesKey stuckUnlock
      = (Ok deactivateCandidatesKey, stuckUnlock)
    /\ Lock false deactivateCandidatesKey stuckUnlock
         = (None, setHeld stuckUnlock [deactivateCandidatesKey])
    /\ deactivateCandidates (conf 2) Background sentinel (live stuckUnlock)
         = (r1, w1, t1)
    /\ NewLocker false documentHardDeletionLockKey storeGone
         = (Ok documentHardDeletionLockKey, storeGone)
    /\ Lock false documentHardDeletionLockKey storeGone
         = (None, setHeld storeGone [documentHardDeletionLockKey])
    /\ DeleteDocument (conf 2) Background "p1" (live storeGone) = (r2, w2, t2)
    /\ (exists wb tb ue e3,
          deactivateCandidates_locked (conf 2) Background sentinel
            (setEnv (live stuckUnlock)
               (setHeld stuckUnlock [deactivateCandidatesKey])) = (r1, wb, tb)
          /\ Unlock false deactivateCandidatesKey (env wb) = (ue, e3)
          /\ w1 = setEnv wb e3
          /\ t1 = [ENewLocker deactivateCandidatesKey
                     (Ok deactivateCandidatesKey);
                   ELock deactivateCandidatesKey None]
                  ++ tb
                  ++ EUnlock deactivateCandidatesKey ue
                     :: match ue with Some e => [ELogError e] | None => [] end
          /\ filter isUnlock t1 = [EUnlock deactivateCandidatesKey ue])
    /\ (exists wb tb ue e3,
          DeleteDocument_locked (conf 2) Background "p1"
            (setEnv (live storeGone)
               (setHeld storeGone [documentHardDeletionLockKey])) = (r2, wb, tb)
          /\ Unlock false documentHardDeletionLockKey (env wb) = (ue, e3)
          /\ w2 = setEnv wb e3
          /\ t2 = [ENewLocker documentHardDeletionLockKey
                     (Ok documentHardDeletionLockKey);
                   ELock documentHardDeletionLockKey None]
                  ++ tb
                  ++ EUnlock documentHardDeletionLockKey ue
                     :: match ue with Some e => [ELogError e] | None => [] end
          /\ filter isUnlock t2 = [EUnlock documentHardDeletionLockKey ue]).
Proof.
  do 6 eexists.
  assert (H1 : deactivateCandidates (conf 2) Background sentinel
                 (live stuckUnlock) = (Ret ("p2", None), _, _)) by reflexivity.
  assert (H2 : DeleteDocument (conf 2) Background "p1" (live storeGone)
               = (Ret (sentinel, Some "store unreachable"), _, _))
    by reflexivity.
  split; [reflexivity|]. split; [reflexivity|]. split; [exact H1|].
  split; [reflexivity|]. split; [reflexivity|]. split; [exact H2|].
  split.
  - exact (proj1 (C6_lock_released_exactly_once (conf 2) Background sentinel
                    (live stuckUnlock)) _ _ _ _ _ _ eq_refl eq_refl H1).
  - exact (proj2 (C6_lock_released_exactly_once (conf 2) Background "p1"
                    (live storeGone)) _ _ _ _ _ _ eq_refl eq_refl H2).
Defined.

(** The batch [a; b; c] with the deactivation of [b] failing: [a] stays
    deactivated, [c] is never tried, the sweep reports the error. *)
Example second_of_three_fails :
  let '(r, w, t) :=
    deactivateCandidates (conf 3) Background sentinel (live brokenB) in
  r = Ret (sentinel, Some "deactivate failed")
  /\ deactivated (env w) = [RefKey (C "p1" "a")]
  /\ filter isDeactivate t
      = [EDeactivate (RefKey (C "p1" "a")) None;
         EDeactivate (RefKey (C "p1" "b")) (Some "deactivate failed")]
  /\ held (env w) = [].
Proof. repeat split. Qed.

Lemma C4_partial_failure_no_rollback_witness :
  let s := Start brokenB in
  let locked := setHeld brokenB [deactivateCandidatesKey] in
  exists top wf tf e4,
    deactivateLoop s = AtSweep sentinel
    /\ NewLocker false deactivateCandidatesKey (env (world s))
         = (Ok deactivateCandidatesKey, brokenB)
    /\ Lock false deactivateCandidatesKey brokenB = (None, locked)
    /\ FindDeactivateCandidates Background 10 3 sentinel (setEnv (world s) locked)
         = (Ret (top, [C "p1" "a"] ++ C "p1" "b" :: [C "p3" "c"], None), wf, tf)
    /\ allDeactivate false [C "p1" "a"] (env wf) = true
    /\ Deactivate false (RefKey (C "p1" "b"))
         (afterDeactivations false [C "p1" "a"] (env wf))
         = (Fail "deactivate failed", e4)
    /\ exists ue e5 s',
         Unlock false deactivateCandidatesKey e4 = (ue, e5)
         /\ deactivateCandidates (conf 3) Background sentinel (world s)
              = (Ret (sentinel, Some "deactivate failed"), setEnv (world s) e5,
                 [ENewLocker deactivateCandidatesKey (Ok deactivateCandidatesKey);
                  ELock deactivateCandidatesKey None]
                   ++ tf
                   ++ (map EDeactivated [C "p1" "a"]
                       ++ [EDeactivate (RefKey (C "p1" "b"))
                             (Some "deactivate failed")])
                   ++ unlockEvents deactivateCandidatesKey ue)
         /\ exec (conf 3) (Run GDeactivateCandidates) s = Some s'
         /\ deactivateLoop s' = AtSweep sentinel
         /\ env (world s') = e5.
Proof.
  intros s locked. do 4 eexists.
  assert (HF : FindDeactivateCandidates Background 10 3 sentinel
                 (setEnv (world s) locked)
               = (Ret (_, [C "p1" "a"] ++ C "p1" "b" :: [C "p3" "c"], None), _, _))
    by reflexivity.
  split; [reflexivity|]. split; [reflexivity|]. split; [reflexivity|].
  split; [exact HF|]. split; [reflexivity|]. split; [reflexivity|].
  exact (C4_partial_failure_no_rollback (conf 3) sentinel s _ _ _ _ _ _ _ _ _ _ _
           eq_refl eq_refl eq_refl HF eq_refl eq_refl).
Defined.

(** After a first pass over [p1; p2] the loop holds the cursor [p2]; the
    second pass fails on client [c] and returns the sentinel with the error,
    and the loop still holds [p2]. *)
Example cursor_survives_a_failed_pass :
  let g := GDeactivateCandidates in
  let s := reached 2 [Run g; Fire g; Select g CaseTimeAfter] brokenC in
  controlOf g s = AtSweep "p2"
  /\ fst (fst (deactivateCandidates (conf 2) Background "p2" (world s)))
      = Ret (sentinel, Some "deactivate failed")
  /\ controlOf g (reached 2 [Run g; Fire g; Select g CaseTimeAfter; Run g] brokenC)
      = AtSweep "p2".
Proof. repeat split. Qed.

Lemma C2_cursor_kept_on_error_witness :
  let g := GDeactivateCandidates in
  let s := reached 2 [Run g; Fire g; Select g CaseTimeAfter] brokenC in
  exists ws ts ws0 ts0 s1,
    controlOf g s = AtSweep "p2"
    /\ sweepOf (conf 2) g Background "p2" (world s)
         = (Ret (sentinel, Some "deactivate failed"), ws, ts)
    /\ controlOf g (Start store0) = AtSweep sentinel
    /\ sweepOf (conf 2) g Background sentinel (world (Start store0))
         = (Ret ("p2", None), ws0, ts0)
    /\ CallStop <> Run g
    /\ exec (conf 2) CallStop s = Some s1
    /\ (exists s', exec (conf 2) (Run g) s = Some s'
                   /\ cursorOf (controlOf g s') = Some "p2")
    /\ (exists s', exec (conf 2) (Run g) (Start store0) = Some s'
                   /\ cursorOf (controlOf g s') = Some "p2")
    /\ (controlOf g s1 = Returned
        \/ cursorOf (controlOf g s1) = cursorOf (controlOf g s)).
Proof.
  intros g s. do 5 eexists.
  assert (H1 : sweepOf (conf 2) g Background "p2" (world s)
               = (Ret (sentinel, Some "deactivate failed"), _, _))
    by reflexivity.
  assert (H2 : sweepOf (conf 2) g Background sentinel (world (Start store0))
               = (Ret ("p2", None), _, _)) by reflexivity.
  assert (H3 : CallStop <> Run g) by discriminate.
  assert (H4 : exec (conf 2) CallStop s = Some _) by reflexivity.
  split; [reflexivity|]. split; [exact H1|]. split; [reflexivity|].
  split; [exact H2|]. split; [exact H3|]. split; [exact H4|].
  split; [|split].
  - exact (proj1 (C2_cursor_kept_on_error (conf 2) g s) _ _ _ _ _ eq_refl H1).
  - exact (proj1 (C2_cursor_kept_on_error (conf 2) g (Start store0))
             _ _ _ _ _ eq_refl H2).
  - exact (proj2 (C2_cursor_kept_on_error (conf 2) g s) _ _ H3 H4).
Defined.

Lemma C3_no_wait_after_error_witness :
  let g := GDeactivateCandidates in
  let s := reached 2 [Run g; Fire g; Select g CaseTimeAfter] brokenC in
  let s0 := Start store0 in
  exists ws ts s0' d,
    controlOf g s = AtSweep "p2"
    /\ sweepOf (conf 2) g Background "p2" (world s)
         = (Ret (sentinel, Some "deactivate failed"), ws, ts)
    /\ exec (conf 2) (Run g) s0 = Some s0'
    /\ controlOf g s0' = AtSelect "p2" d false
    /\ (exists s',
          exec (conf 2) (Run g) s = Some s'
          /\ controlOf g s' = AtSweep "p2"
          /\ trace s' = trace s ++ ts ++ [ELogError "deactivate failed"]
          /\ (forall k, exec (conf 2) (Select g k) s' = None)
          /\ exec (conf 2) (Fire g) s' = None
          /\ exists s'', exec (conf 2) (Run g) s' = Some s'')
    /\ (exists cur ws0 ts0,
          controlOf g s0 = AtSweep cur
          /\ sweepOf (conf 2) g Background cur (world s0)
               = (Ret ("p2", None), ws0, ts0)
          /\ trace s0' = trace s0 ++ ts0 ++ [ESelect d]).
Proof.
  intros g s s0. do 4 eexists.
  assert (H1 : sweepOf (conf 2) g Background "p2" (world s)
               = (Ret (sentinel, Some "deactivate failed"), _, _))
    by reflexivity.
  assert (H2 : exec (conf 2) (Run g) s0 = Some _) by reflexivity.
  split; [reflexivity|]. split; [exact H1|]. split; [exact H2|].
  split; [reflexivity|]. split.
  - exact (proj1 (C3_no_wait_after_error (conf 2) g s) _ _ _ _ _ eq_refl H1).
  - exact (proj2 (C3_no_wait_after_error (conf 2) g s0) _ _ _ _ H2 eq_refl).
Defined.

(** [Stop] is seen at the [select] only: with the store unreachable every
    pass fails and is followed by the next pass, the signal set or not. *)
Example failing_passes_go_on_after_Stop :
  let g := GDeactivateCandidates in
  let s := reached 2 [CallStop; Run g; Run g; Run g] storeGone in
  cancelled (world s) = true
  /\ controlOf g s = AtSweep sentinel
  /\ length (filter (fun ev => match ev with ENewLocker _ _ => true | _ => false end)
               (trace s)) = 3%nat
  /\ exec (conf 2) (Select g CaseDone) s = None.
Proof. repeat split. Qed.

(** When the timer has fired and the signal is set, both cases of the
    [select] are ready and either may be taken. *)
Example both_cases_ready :
  let g := GDeactivateCandidates in
  let s := reached 2 [Run g; Fire g; CallStop] store0 in
  (exists s1, exec (conf 2) (Select g CaseDone) s = Some s1
              /\ controlOf g s1 = Returned)
  /\ (exists s2, exec (conf 2) (Select g CaseTimeAfter) s = Some s2
                 /\ controlOf g s2 = AtSweep "p2").
Proof. split; eexists; split; reflexivity. Qed.

Lemma C8_stop_at_the_select_witness :
  let g := GDeactivateCandidates in
  let g' := GDocumentHardDeletion in
  let s := reached 2 [Run g; CallStop] store0 in
  let stopped := reached 2 [Run g; CallStop; Select g CaseDone] store0 in
  exists s1 s2,
    cancelled (world s) = true
    /\ exec (conf 2) (Fire g) s = Some s1
    /\ controlOf g s = AtSelect "p2" 1000000000 false
    /\ lifecycle (controlOf g stopped) = Some Stopped
    /\ execs (conf 2) [CallStop; Run g'; Fire g'] stopped = Some s2
    /\ exec (conf 2) (Select g CaseDone) s = Some stopped
    /\ lifecycle (controlOf g s) <> Some Stopped
    /\ cancelled (world s1) = true
    /\ (exec (conf 2) (Select g CaseDone) s = Some (setControl g Returned s)
        /\ exec (conf 2) (Select g CaseTimeAfter) s = None
        /\ exec (conf 2) (Run g) s = None)
    /\ (lifecycle (controlOf g s2) = Some Stopped
        /\ ~ In (Run g) [CallStop; Run g'; Fire g']
        /\ forall k, ~ In (Select g k) [CallStop; Run g'; Fire g'])
    /\ (Select g CaseDone = Select g CaseDone /\ cancelled (world s) = true
        /\ exists cur d f, controlOf g s = AtSelect cur d f)
    /\ (let s0 := reached 2 [CallStop] storeGone in
        exists ws ts,
          cancelled (world s0) = true
          /\ controlOf g s0 = AtSweep sentinel
          /\ sweepOf (conf 2) g Background sentinel (world s0)
               = (Ret (sentinel, Some "store unreachable"), ws, ts)
          /\ exists s',
               exec (conf 2) (Run g) s0 = Some s'
               /\ controlOf g s' = AtSweep sentinel
               /\ exec (conf 2) (Select g CaseDone) s' = None
               /\ exists s'', exec (conf 2) (Run g) s' = Some s'').
Proof.
  intros g g' s stopped. do 2 eexists.
  pose proof (C8_stop_at_the_select (conf 2) g s) as (_ & T2 & T3 & _ & T5 & _).
  pose proof (C8_stop_at_the_select (conf 2) g (reached 2 [CallStop] storeGone))
    as (_ & _ & _ & _ & _ & _ & _ & T8).
  pose proof (C8_stop_at_the_select (conf 2) g stopped) as (_ & _ & _ & T4 & _).
  assert (H1 : cancelled (world s) = true) by reflexivity.
  assert (H2 : exec (conf 2) (Fire g) s = Some _) by reflexivity.
  assert (H3 : controlOf g s = AtSelect "p2" 1000000000 false) by reflexivity.
  assert (H4 : lifecycle (controlOf g stopped) = Some Stopped) by reflexivity.
  assert (H5 : execs (conf 2) [CallStop; Run g'; Fire g'] stopped = Some _)
    by reflexivity.
  assert (H6 : exec (conf 2) (Select g CaseDone) s = Some stopped)
    by reflexivity.
  assert (H7 : lifecycle (controlOf g s) <> Some Stopped) by discriminate.
  split; [exact H1|]. split; [exact H2|]. split; [exact H3|].
  split; [exact H4|]. split; [exact H5|]. split; [exact H6|].
  split; [exact H7|].
  split; [exact (T2 _ _ H1 H2)|].
  split; [exact (T3 _ _ H3 H1)|].
  split; [exact (T4 _ _ H4 H5)|].
  split; [exact (T5 _ _ H6 H4 H7)|].
  do 2 eexists.
  assert (H8 : sweepOf (conf 2) g Background sentinel
                 (world (reached 2 [CallStop] storeGone))
               = (Ret (sentinel, Some "store unreachable"), _, _))
    by reflexivity.
  split; [reflexivity|]. split; [reflexivity|]. split; [exact H8|].
  exact (T8 _ _ _ _ _ eq_refl eq_refl H8).
Defined.

(** With the store unreachable, the pass made after [Stop] fails and the
    loop makes another pass. *)
Lemma C8_counterexample :
  ~ lastPassAfterStop (conf 2) GDeactivateCandidates.
Proof.
  intros H.
  specialize (H (reached 2 [CallStop] storeGone)
                (reached 2 [CallStop; Run GDeactivateCandidates] storeGone)
                eq_refl eq_refl).
  discriminate H.
Qed.

(** ** Further runs on the in-memory store *)

Lemma X1_DeleteDocument_success_witness :
  exists w' t,
    DeleteDocument (conf 2) Background sentinel (live store0)
      = (Ret ("p2", None), w', t)
    /\ trash (env w') = [D "p3" "y"]
    /\ exists l e1 e2 candidates wf tf n e4 ue e5,
         NewLocker false documentHardDeletionLockKey store0 = (Ok l, e1)
         /\ Lock false l e1 = (None, e2)
         /\ FindDocumentHardDeletionCandidates Background 10 2 86400000000000
              sentinel (setEnv (live store0) e2)
              = (Ret ("p2", candidates, None), wf, tf)
         /\ db_DeleteDocument (ctxDone Background (cancelled wf)) candidates
              (env wf) = (Ok n, e4)
         /\ Unlock (ctxDone Background (cancelled wf)) l e4 = (ue, e5)
         /\ w' = setEnv wf e5
         /\ t = [ENewLocker documentHardDeletionLockKey (Ok l); ELock l None]
                 ++ tf
                 ++ EDeleteDocument candidates (Ok n)
                    :: (if 0 <? len candidates
                        then [ELogInfof "HSKP: candidates %d, hard deleted %d, %s"
                                (len candidates) n]
                        else [])
                 ++ unlockEvents l ue
         /\ filter isDeleteDocument t = [EDeleteDocument candidates (Ok n)]
         /\ answered false t store0 (env w').
Proof.
  do 2 eexists.
  assert (H : DeleteDocument (conf 2) Background sentinel (live store0)
              = (Ret ("p2", None), _, _)) by reflexivity.
  split; [exact H|]. split; [reflexivity|].
  exact (X1_DeleteDocument_success (conf 2) Background sentinel (live store0)
           _ _ _ H).
Defined.

Lemma X2_read_error_no_action_witness :
  let x := EFindNextNCyclingProjectInfos 2 "p1" (Fail "store unreachable") in
  exists r1 w1 t1 r2 w2 t2,
    deactivateCandidates (conf 2) Background "p1" (live storeGone) = (r1, w1, t1)
    /\ In x t1
    /\ DeleteDocument (conf 2) Background "p1" (live storeGone) = (r2, w2, t2)
    /\ In x t2
    /\ readError x = Some "store unreachable"
    /\ (r1 = Ret (sentinel, Some "store unreachable") /\ filter isAction t1 = [])
    /\ (r2 = Ret (sentinel, Some "store unreachable") /\ filter isAction t2 = []).
Proof.
  intros x. do 6 eexists.
  assert (H1 : deactivateCandidates (conf 2) Background "p1" (live storeGone)
               = (Ret (sentinel, Some "store unreachable"), _,
                  [_; _; x; _])) by reflexivity.
  assert (H2 : DeleteDocument (conf 2) Background "p1" (live storeGone)
               = (Ret (sentinel, Some "store unreachable"), _,
                  [_; _; x; _])) by reflexivity.
  assert (Hin : forall a b c : Event, In x [a; b; x; c])
    by (intros; right; right; left; reflexivity).
  split; [exact H1|]. split; [apply Hin|]. split; [exact H2|].
  split; [apply Hin|]. split; [reflexivity|]. split.
  - exact (proj1 (X2_read_error_no_action (conf 2) Background "p1"
                    (live storeGone)) _ _ _ x _ H1 (Hin _ _ _) eq_refl).
  - exact (proj2 (X2_read_error_no_action (conf 2) Background "p1"
                    (live storeGone)) _ _ _ x _ H2 (Hin _ _ _) eq_refl).
Defined.

Lemma X6_cursor_is_sentinel_or_listed_witness :
  let g := GDeactivateCandidates in
  let s := reached 2 [Run g; Fire g] store0 in
  execs (conf 2) [Run g; Fire g] (Start store0) = Some s
  /\ cursorOf (controlOf g s) = Some "p2"
  /\ ("p2" = sentinel \/ listedLast "p2" (trace s)).
Proof.
  intros g s.
  assert (H : execs (conf 2) [Run g; Fire g] (Start store0) = Some s)
    by (vm_compute; reflexivity).
  assert (Hc : cursorOf (controlOf g s) = Some "p2")
    by (vm_compute; reflexivity).
  split; [exact H|]. split; [exact Hc|].
  exact (X6_cursor_is_sentinel_or_listed (conf 2) store0 _ _ g "p2" H Hc).
Defined.

Lemma X7_pass_lists_from_cursor_witness :
  let g := GDocumentHardDeletion in
  let s := reached 2 [Run g; Fire g; Select g CaseTimeAfter] store0 in
  let s' := reached 2 [Run g; Fire g; Select g CaseTimeAfter; Run g] store0 in
  controlOf g s = AtSweep "p2"
  /\ exec (conf 2) (Run g) s = Some s'
  /\ exists t,
       trace s' = trace s ++ t
       /\ (exists rk rest, t = ENewLocker (lockKeyOf g) rk :: rest)
       /\ Forall (listsFrom 2 "p2") t
       /\ (length (filter isListing t) <= 1)%nat.
Proof.
  intros g s s'.
  assert (Hc : controlOf g s = AtSweep "p2") by (vm_compute; reflexivity).
  assert (H : exec (conf 2) (Run g) s = Some s') by (vm_compute; reflexivity).
  split; [exact Hc|]. split; [exact H|].
  exact (X7_pass_lists_from_cursor (conf 2) g s s' "p2" Hc H).
Defined.

Lemma X8_stopped_service_is_silent_witness :
  let g := GDeactivateCandidates in
  let g' := GDocumentHardDeletion in
  let ms := [Run g; Run g'; CallStop; Select g CaseDone; Select g' CaseDone] in
  let s := reached 2 ms store0 in
  let s' := reached 2 (ms ++ [CallStop; CallStop]) store0 in
  (forall g0, controlOf g0 s = Returned)
  /\ execs (conf 2) [CallStop; CallStop] s = Some s'
  /\ trace s' = trace s /\ env (world s') = env (world s)
  /\ forall g0, controlOf g0 s' = Returned.
Proof.
  intros g g' ms s s'.
  assert (H1 : forall g0, controlOf g0 s = Returned)
    by (intros []; vm_compute; reflexivity).
  assert (H2 : execs (conf 2) [CallStop; CallStop] s = Some s')
    by (vm_compute; reflexivity).
  split; [exact H1|]. split; [exact H2|].
  exact (X8_stopped_service_is_silent (conf 2) s s' _ H1 H2).
Defined.

Lemma X9_New_reports_first_bad_duration_witness :
  exists err,
    New parseDuration badSettings = Fail err
    /\ parseDuration "1s" = Ok 1000000000
    /\ parseDuration "2s" = Ok 2000000000
    /\ parseDuration "24h" = Ok 86400000000000
    /\ ((exists e,
           parseDuration "1s" = Fail e /\
           err = Errorf "parse intervalDeactivateCandidates " "1s" e)
        \/ (exists v e,
           parseDuration "1s" = Ok v /\ parseDuration "soon" = Fail e /\
           err = Errorf "parse intervalDeleteDocuments " "soon" e)
        \/ (exists v1 v2 e,
           parseDuration "1s" = Ok v1 /\ parseDuration "soon" = Ok v2 /\
           parseDuration "later" = Fail e /\
           err = Errorf "parse documentHardDeletionGracefulPeriod " "later" e))
    /\ New parseDuration (settings (-1)) = Ok (conf (-1)).
Proof.
  eexists.
  assert (H : New parseDuration badSettings = Fail _) by reflexivity.
  split; [exact H|]. split; [reflexivity|]. split; [reflexivity|].
  split; [reflexivity|]. split.
  - exact (proj1 (X9_New_reports_first_bad_duration parseDuration badSettings)
             _ H).
  - exact (proj2 (X9_New_reports_first_bad_duration parseDuration
                    (settings (-1))) _ _ _ eq_refl eq_refl eq_refl).
Defined.

Lemma X10_empty_page_with_no_page_size_panics_witness :
  let g := GDeactivateCandidates in
  let s := Start store0 in
  let locked := setHeld store0 [deactivateCandidatesKey] in
  projectFetchSize (conf 0) <= 0
  /\ controlOf g s = AtSweep sentinel
  /\ NewLocker false (lockKeyOf g) (env (world s))
     = (Ok deactivateCandidatesKey, store0)
  /\ Lock false deactivateCandidatesKey store0 = (None, locked)
  /\ FindNextNCyclingProjectInfos false (projectFetchSize (conf 0)) sentinel
       locked = (Ok [], locked)
  /\ exists s' msg ue e4,
       exec (conf 0) (Run g) s = Some s'
       /\ controlOf g s' = Panicked msg
       /\ Unlock false deactivateCandidatesKey locked = (ue, e4)
       /\ env (world s') = e4
       /\ trace s' = trace s
                       ++ [ENewLocker (lockKeyOf g) (Ok deactivateCandidatesKey);
                           ELock deactivateCandidatesKey None;
                           EFindNextNCyclingProjectInfos
                             (projectFetchSize (conf 0)) sentinel (Ok [])]
                       ++ unlockEvents deactivateCandidatesKey ue.
Proof.
  intros g s locked.
  assert (H0 : projectFetchSize (conf 0) <= 0) by discriminate.
  split; [exact H0|]. split; [reflexivity|]. split; [reflexivity|].
  split; [reflexivity|]. split; [reflexivity|].
  exact (X10_empty_page_with_no_page_size_panics (conf 0) g s sentinel
           _ _ _ _ H0 eq_refl eq_refl eq_refl eq_refl).
Defined.

Lemma X12_clients_DeleteDocuments_witness :
  exists r w' t,
    clients.DeleteDocuments Background 10 86400000000000 2 sentinel (live store0)
      = (r, w', t)
    /\ clients.DocumentHardDeletionLockKey <> documentHardDeletionLockKey
    /\ exists l e1 e2 wb tb ue e3,
         NewLocker false clients.DocumentHardDeletionLockKey store0 = (Ok l, e1)
         /\ Lock false l e1 = (None, e2)
         /\ DeleteDocument_locked (conf 2) Background sentinel
              (setEnv (live store0) e2) = (r, wb, tb)
         /\ Unlock false l (env wb) = (ue, e3)
         /\ w' = setEnv wb e3
         /\ t = [ENewLocker clients.DocumentHardDeletionLockKey (Ok l);
                 ELock l None] ++ tb ++ unlockEvents l ue.
Proof.
  do 3 eexists.
  assert (H : clients.DeleteDocuments Background 10 86400000000000 2 sentinel
                (live store0) = (Ret ("p2", None), _, _)) by reflexivity.
  split; [exact H|].
  destruct (X12_clients_DeleteDocuments (conf 2) Background sentinel
              (live store0) _ _ _ H) as (Hk & Hcases).
  split; [exact Hk|].
  destruct Hcases as [(e & e1 & HN & _)|[(l & e1 & e & e2 & HN & HL & _)|Hrun]].
  - discriminate HN.
  - exfalso. inversion HN; subst l e1. discriminate HL.
  - exact Hrun.
Defined.

(** In the revision of [part_000], the finder says [p2] and [HardDeletion]
    says [p1]: the loop goes on from [p1]. *)
Lemma X13_cursor_comes_from_HardDeletion_witness :
  exists w' t,
    part_000.AttachDocumentHardDeletion_body (conf0 2) sentinel (live store0)
      = (Ret (AtSelect "p1" 1000000000 false), w', t)
    /\ 1000000000 = part_000.interval (conf0 2) /\ false = false
    /\ (exists l top cs ue,
         t = [part_000.ENewLocker part_000.hardDeletionLockKey (Ok l);
              part_000.ELock l None;
              part_000.EFindHardDeletionCandidates 10 2 sentinel (top, cs, None);
              part_000.EHardDeletion cs ("p1", None)]
               ++ part_000.unlockEvents l ue
               ++ [part_000.ESelect (part_000.interval (conf0 2))])
    /\ part_000.answered false t store0 (env w').
Proof.
  do 2 eexists.
  assert (H : part_000.AttachDocumentHardDeletion_body (conf0 2) sentinel
                (live store0)
              = (Ret (AtSelect "p1" 1000000000 false), _, _)) by reflexivity.
  split; [exact H|].
  exact (part_000_facts.X13_cursor_comes_from_HardDeletion (conf0 2) sentinel
           (live store0) _ _ _ _ _ H).
Defined.

Lemma X14_documentHardDeletion_errors_witness :
  exists r w' t,
    part_000.documentHardDeletion (conf0 2) Background "p1" (live storeGone)
      = (r, w', t)
    /\ (forall c e, r = Ret (c, Some e) -> c = sentinel)
    /\ (forall cs x, In (part_000.EHardDeletion cs x) t ->
          filter part_000.isHardDeletion t = [part_000.EHardDeletion cs x]
          /\ exists n p last top,
               In (part_000.EFindHardDeletionCandidates n p last (top, cs, None)) t)
    /\ (forall l, In (part_000.ELock l None) t ->
          exists ue, filter part_000.isUnlock t = [part_000.EUnlock l ue])
    /\ part_000.answered false t storeGone (env w').
Proof.
  do 3 eexists.
  assert (H : part_000.documentHardDeletion (conf0 2) Background "p1"
                (live storeGone)
              = (Ret (sentinel, Some "store unreachable"), _, _))
    by reflexivity.
  split; [exact H|].
  exact (part_000_facts.X14_documentHardDeletion_errors (conf0 2) Background
           "p1" (live storeGone) _ _ _ H).
Defined.

Lemma X15_revision_deactivates_all_witness :
  exists w' t,
    part_000.deactivateCandidates (conf0 2) Background sentinel (live store0)
      = (Ret ("p2", None), w', t)
    /\ deactivated (env w') = [RefKey (C "p1" "b"); RefKey (C "p1" "a")]
    /\ (exists l cs ue,
         t = [part_000.ENewLocker part_000.deactivateCandidatesKey (Ok l);
              part_000.ELock l None;
              part_000.EFindDeactivateCandidates 10 2 sentinel ("p2", cs, None)]
               ++ map part_000.EDeactivated cs
               ++ (if 0 <? len cs
                   then [part_000.ELogInfof
                           "HSKP: candidates %d, deactivated %d, %s"
                           (len cs) (len cs)]
                   else [])
               ++ part_000.unlockEvents l ue)
    /\ part_000.answered false t store0 (env w').
Proof.
  do 2 eexists.
  assert (H : part_000.deactivateCandidates (conf0 2) Background sentinel
                (live store0) = (Ret ("p2", None), _, _)) by reflexivity.
  split; [exact H|]. split; [reflexivity|].
  exact (part_000_facts.X15_revision_deactivates_all (conf0 2) Background
           sentinel (live store0) _ _ _ H).
Defined.

(** ** Nil entries on the in-memory store *)

(** With [p2] handed back as a nil pointer, the first page of two is
    [p1; nil]: full, and its last entry is nil. The sweep panics although
    the page size is positive, and the lock is released on the way out. *)
Example nil_last_entry_panics :
  let run :=
    @pointers.deactivateCandidates Store (database1 ["p2"]) (coordinator1 [])
      clients (conf 2) Background sentinel (live store0) in
  fst (fst run) = Panic pointers.nilPointerDereference
  /\ held (env (snd (fst run))) = [].
Proof. split; reflexivity. Qed.

(** A nil locker handed back with a nil error: [locker.Lock] panics, and
    nothing was locked. *)
Example nil_locker_panics :
  @pointers.DeleteDocument Store (database1 [])
    (coordinator1 [documentHardDeletionLockKey]) (conf 2) Background
    sentinel (live store0)
  = (Panic pointers.nilPointerDereference, live store0,
     [pointers.ENewLocker documentHardDeletionLockKey (Ok None)]).
Proof. reflexivity. Qed.

Lemma X3_finder_panics_iff_witness :
  let page : list (option ProjectInfo) := [Some (P "p1"); None] in
  @pointers.FindNextNCyclingProjectInfos Store (database1 ["p2"]) false 2
    sentinel store0 = (Ok page, store0)
  /\ pointers.lookupsOf
       (fun p => @pointers.FindDeactivateCandidatesPerProject Store
                   (database1 ["p2"]) false p 10) page store0
     = (Ok [[Some (C "p1" "a"); Some (C "p1" "b")]; []], store0)
  /\ pointers.lookupsOf
       (fun p => @pointers.FindDocumentHardDeletionCandidatesPerProject Store
                   (database1 ["p2"]) false p 10 86400000000000) page store0
     = (Ok [[Some (D "p1" "x")]; []], store0)
  /\ 2 <= len page
  /\ (exists msg w' t,
        @pointers.FindDeactivateCandidates Store (database1 ["p2"])
          (coordinator1 []) Background 10 2 sentinel (live store0)
        = (Panic msg, w', t))
  /\ (exists msg w' t,
        @pointers.FindDocumentHardDeletionCandidates Store (database1 ["p2"])
          (coordinator1 []) Background 10 2 86400000000000 sentinel
          (live store0)
        = (Panic msg, w', t)).
Proof.
  intros page.
  assert (HL : @pointers.FindNextNCyclingProjectInfos Store (database1 ["p2"])
                 false 2 sentinel store0 = (Ok page, store0)) by reflexivity.
  assert (H1 : pointers.lookupsOf
                 (fun p => @pointers.FindDeactivateCandidatesPerProject Store
                             (database1 ["p2"]) false p 10) page store0
               = (Ok [[Some (C "p1" "a"); Some (C "p1" "b")]; []], store0))
    by reflexivity.
  assert (H2 : pointers.lookupsOf
                 (fun p => @pointers.FindDocumentHardDeletionCandidatesPerProject
                             Store (database1 ["p2"]) false p 10 86400000000000)
                 page store0
               = (Ok [[Some (D "p1" "x")]; []], store0)) by reflexivity.
  assert (Hge : 2 <= len page) by discriminate.
  assert (Hlast : page = [] \/ exists init, page = init ++ [None])
    by (right; exists [Some (P "p1")]; reflexivity).
  split; [exact HL|]. split; [exact H1|]. split; [exact H2|].
  split; [exact Hge|]. split.
  - exact (proj2 (proj1 (@pointers_facts.X3_finder_panics_iff Store
                           (database1 ["p2"]) (coordinator1 []) Background 10
                           86400000000000 2 sentinel (live store0)))
             (ex_intro _ page (ex_intro _ store0 (ex_intro _ _ (ex_intro _ store0
                (conj HL (conj H1 (conj Hge Hlast)))))))).
  - exact (proj2 (proj2 (@pointers_facts.X3_finder_panics_iff Store
                           (database1 ["p2"]) (coordinator1 []) Background 10
                           86400000000000 2 sentinel (live store0)))
             (ex_intro _ page (ex_intro _ store0 (ex_intro _ _ (ex_intro _ store0
                (conj HL (conj H2 (conj Hge Hlast)))))))).
Defined.

(** The store that hands back every project and the coordinator that hands
    back a locker for every key return no nil. *)
Lemma no_nil_on_the_store :
  @pointers.noNil Store (database1 []) (coordinator1 []).
Proof.
  split; [|split].
  - intros d key e. cbn. unfold newLocker.
    destruct (lockServiceDown e); cbn; discriminate.
  - intros d n lastProjectID e ps. cbn. unfold listing.
    destruct (storeDown e); cbn; intros H; [discriminate H|].
    inversion H; subst ps. unfold holed. intros Hin.
    apply in_map_iff in Hin. destruct Hin as (x & Hx & _). discriminate Hx.
  - intros d project limit e cs. cbn.
    destruct project as [p|]; cbn; intros H; inversion H; subst cs.
    + intros Hin. apply in_map_iff in Hin. destruct Hin as (x & Hx & _).
      discriminate Hx.
    + intros [].
Qed.

Lemma X4_no_nil_no_panic_witness :
  @pointers.noNil Store (database1 []) (coordinator1 [])
  /\ 0 < projectFetchSize (conf 2)
  /\ (exists c err w' t,
        @pointers.deactivateCandidates Store (database1 []) (coordinator1 [])
          clients (conf 2) Background sentinel (live store0)
        = (Ret (c, err), w', t))
  /\ (exists c err w' t,
        @pointers.DeleteDocument Store (database1 []) (coordinator1 [])
          (conf 2) Background sentinel (live store0)
        = (Ret (c, err), w', t)).
Proof.
  assert (Hp : 0 < projectFetchSize (conf 2)) by reflexivity.
  split; [exact no_nil_on_the_store|]. split; [exact Hp|].
  exact (@pointers_facts.X4_no_nil_no_panic Store (database1 [])
           (coordinator1 []) clients (conf 2) Background sentinel (live store0)
           no_nil_on_the_store Hp).
Defined.
